(** * Accounts-easing: the transaction interpretation pipeline

    A shallow embedding of the Python sources under [accounting_app/]:
    the bank format detector, the amount and date normalisers, the regex
    driven transaction parser, the keyword rule engine, the journal entry
    generator and the ledger manager.

    Modelling conventions.
    - A Python [str] is a [text], a list of characters (bytes of its UTF-8
      encoding; only ASCII characters are classified as digits, letters or
      white space).
    - A Python [float] is an exact rational of [Q]: IEEE rounding is outside
      the model.  In amount_parser.py, whose results can leave the finite
      range, a float is a [Py.float64]: an exact rational below the overflow
      bound of a double, an infinity or NaN.  The journal and the ledger
      keep rationals: their amounts are finite numbers.
    - A [dict] whose iteration order matters is an association list in
      insertion order; a pandas [DataFrame] is the list of its rows.
    - Calls into third-party parsers ([dateutil], pandas' string to
      timestamp conversion) are Section variables. *)

From Stdlib Require Import Ascii String List Bool Arith ZArith NArith QArith Qabs Qround Lia Permutation Sorted.
Import ListNotations.

Set Implicit Arguments.
Close Scope Q_scope.

(* ================================================================== *)
(** * Part I.  Python strings                                          *)
(* ================================================================== *)

Definition text := list ascii.

(** A string literal of the source. *)
Definition T (s : string) : text := list_ascii_of_string s.

Module Str.

Definition code (c : ascii) : N := N_of_ascii c.

Definition in_range (lo hi : N) (c : ascii) : bool :=
  (lo <=? code c)%N && (code c <=? hi)%N.

Definition is_digit (c : ascii) : bool := in_range 48 57 c.
Definition is_upper (c : ascii) : bool := in_range 65 90 c.
Definition is_lower (c : ascii) : bool := in_range 97 122 c.
Definition is_alpha (c : ascii) : bool := is_upper c || is_lower c.
Definition is_alnum (c : ascii) : bool := is_alpha c || is_digit c.

(** [\w] of the [re] module. *)
Definition is_word (c : ascii) : bool := is_alnum c || (code c =? 95)%N.

(** [str.isspace], also [\s]: tab, line feed, vertical tab, form feed,
    carriage return, the four separators 0x1c-0x1f and the space. *)
Definition is_space (c : ascii) : bool :=
  in_range 9 13 c || in_range 28 31 c || (code c =? 32)%N.

(** A character of the ASCII range, where a byte is a character and the
    classes above are those of Python. *)
Definition is_ascii (c : ascii) : bool := (code c <? 128)%N.

Definition char_upper (c : ascii) : ascii :=
  if is_lower c then ascii_of_N (code c - 32) else c.
Definition char_lower (c : ascii) : ascii :=
  if is_upper c then ascii_of_N (code c + 32) else c.

Definition upper (s : text) : text := map char_upper s.
Definition lower (s : text) : text := map char_lower s.

(** [str.title]: a cased character is upper-cased when the character before
    it is not cased, lower-cased otherwise. *)
Fixpoint title_from (prev_cased : bool) (s : text) : text :=
  match s with
  | [] => []
  | c :: s' =>
      (if prev_cased then char_lower c else char_upper c)
        :: title_from (is_alpha c) s'
  end.
Definition title (s : text) : text := title_from false s.

Fixpoint eqb (a b : text) : bool :=
  match a, b with
  | [], [] => true
  | x :: a', y :: b' => Ascii.eqb x y && eqb a' b'
  | _, _ => false
  end.

Fixpoint startswith (p s : text) : bool :=
  match p, s with
  | [], _ => true
  | x :: p', y :: s' => Ascii.eqb x y && startswith p' s'
  | _ :: _, [] => false
  end.

Definition endswith (p s : text) : bool := startswith (rev p) (rev s).

(** [sub in s] *)
Fixpoint contains (sub s : text) : bool :=
  startswith sub s ||
  match s with
  | [] => false
  | _ :: s' => contains sub s'
  end.

Fixpoint lstrip (s : text) : text :=
  match s with
  | c :: s' => if is_space c then lstrip s' else s
  | [] => []
  end.
Definition rstrip (s : text) : text := rev (lstrip (rev s)).
Definition strip (s : text) : text := rstrip (lstrip s).

(** [s.replace(old, new)] for a non-empty [old]: occurrences are replaced
    from the left and do not overlap; [skip] counts the characters of an
    occurrence still to be dropped. *)
Fixpoint replace_from (skip : nat) (old new s : text) : text :=
  match s with
  | [] => []
  | c :: s' =>
      match skip with
      | S n => replace_from n old new s'
      | O =>
          if startswith old s
          then new ++ replace_from (length old - 1) old new s'
          else c :: replace_from 0 old new s'
      end
  end.

(** With an empty [old], Python inserts [new] before every character and
    at the end. *)
Definition replace (old new s : text) : text :=
  match old with
  | [] => flat_map (fun c => new ++ [c]) s ++ new
  | _ :: _ => replace_from 0 old new s
  end.

(** [s.split(sep)] for a one-character separator. *)
Fixpoint split (sep : ascii) (s : text) : list text :=
  match s with
  | [] => [[]]
  | c :: s' =>
      if Ascii.eqb c sep then [] :: split sep s'
      else match split sep s' with
           | h :: t => (c :: h) :: t
           | [] => [[c]]
           end
  end.

Definition digit_val (c : ascii) : N := (code c - 48)%N.
Definition digit_char (n : N) : ascii := ascii_of_N (48 + n).

(** The number a run of decimal digits denotes. *)
Definition digits_value (ds : text) : N :=
  fold_left (fun a c => (10 * a + digit_val c)%N) ds 0%N.

Fixpoint take_while (p : ascii -> bool) (s : text) : text :=
  match s with
  | c :: s' => if p c then c :: take_while p s' else []
  | [] => []
  end.
Fixpoint drop_while (p : ascii -> bool) (s : text) : text :=
  match s with
  | c :: s' => if p c then drop_while p s' else s
  | [] => []
  end.

(** Decimal digits of a number, most significant first.  [fuel] bounds the
    number of digits. *)
Fixpoint digits_fuel (fuel : nat) (n : N) : text :=
  match fuel with
  | O => []
  | S f =>
      if (n <? 10)%N then [digit_char n]
      else digits_fuel f (n / 10)%N ++ [digit_char (n mod 10)%N]
  end.
Definition digits_of (n : N) : text :=
  digits_fuel (S (N.to_nat (N.log2 n))) n.

End Str.

(* ================================================================== *)
(** * Part II.  The fragment of Python's [re] the sources use          *)
(* ================================================================== *)

Module Re.

(** Members of a character set. *)
Inductive citem :=
| IChar (c : ascii)
| IRange (lo hi : ascii)
| IDigit          (* \d *)
| ISpace          (* \s *)
| IWord           (* \w *)
| IAny.           (* .  : any character but a line feed *)

Record cset := { negated : bool; items : list citem }.

(** Every quantifier of the repository's patterns applies to a single
    character item, so [Rep] repeats a character set. *)
Inductive re :=
| Eps
| Chr (cs : cset)
| Seq (a b : re)
| Alt (a b : re)
| Rep (greedy : bool) (lo : nat) (hi : option nat) (cs : cset)
| Grp (i : nat) (a : re)
| Bol            (* ^ *)
| Eol            (* $ *)
| WordB.         (* \b *)

Record flags := { ignorecase : bool; multiline : bool }.
Definition no_flags := {| ignorecase := false; multiline := false |}.

Record pattern := { ast : re; ngroups : nat; pflags : flags }.

(** ** Reading a pattern *)

Definition newline : ascii := ascii_of_N 10.

Definition lit (c : ascii) : cset := {| negated := false; items := [IChar c] |}.
Definition one (i : citem) : cset := {| negated := false; items := [i] |}.

Definition escape_item (c : ascii) : option citem :=
  if Ascii.eqb c "d" then Some IDigit
  else if Ascii.eqb c "s" then Some ISpace
  else if Ascii.eqb c "w" then Some IWord
  else if Str.is_alnum c then None
  else Some (IChar c).

Fixpoint parse_class (fuel : nat) (s : text) : option (list citem * text) :=
  match fuel with
  | O => None
  | S f =>
      let continue (it : list citem) (s' : text) :=
        match parse_class f s' with
        | Some (its, r) => Some (it ++ its, r)
        | None => None
        end in
      match s with
      | [] => None
      | "]"%char :: s' => Some ([], s')
      | "\"%char :: c :: s' =>
          match escape_item c with
          | Some it => continue [it] s'
          | None => None
          end
      | a :: "-"%char :: "]"%char :: s' => Some ([IChar a; IChar "-"], s')
      | _ :: "-"%char :: "\"%char :: _ => None
      | a :: "-"%char :: b :: s' => continue [IRange a b] s'
      | a :: s' => continue [IChar a] s'
      end
  end.

(** [{n}], [{n,}] and [{n,m}] after the opening brace. *)
Definition parse_bounds (s : text) : option (nat * option nat * text) :=
  let ds := Str.take_while Str.is_digit s in
  let lo := N.to_nat (Str.digits_value ds) in
  match ds, Str.drop_while Str.is_digit s with
  | [], _ => None
  | _, "}"%char :: r => Some (lo, Some lo, r)
  | _, ","%char :: r =>
      let es := Str.take_while Str.is_digit r in
      match es, Str.drop_while Str.is_digit r with
      | [], "}"%char :: r' => Some (lo, None, r')
      | _, "}"%char :: r' => Some (lo, Some (N.to_nat (Str.digits_value es)), r')
      | _, _ => None
      end
  | _, _ => None
  end.

(** The quantifier that follows an atom, if any; a trailing [?] makes it lazy. *)
Definition parse_quant (a : re) (s : text) : option (re * text) :=
  let bounds :=
    match s with
    | "*"%char :: r => Some (Some (0, None, r))
    | "+"%char :: r => Some (Some (1, None, r))
    | "?"%char :: r => Some (Some (0, Some 1, r))
    | "{"%char :: r =>
        match parse_bounds r with
        | Some b => Some (Some b)
        | None => None
        end
    | _ => Some None
    end in
  match bounds with
  | None => None
  | Some None => Some (a, s)
  | Some (Some (lo, hi, r)) =>
      match a with
      | Chr cs =>
          match r with
          | "?"%char :: r' => Some (Rep false lo hi cs, r')
          | _ => Some (Rep true lo hi cs, r)
          end
      | _ => None
      end
  end.

Definition is_special (c : ascii) : bool :=
  existsb (Ascii.eqb c) (T "*+?{}").

(** Recursive descent; [n] is the number of groups opened so far, so groups
    are numbered by their opening parenthesis. *)
Fixpoint parse_alt (fuel n : nat) (s : text) : option (re * nat * text) :=
  match fuel with
  | O => None
  | S f =>
      match parse_seq f n s with
      | Some (a, n1, "|"%char :: s1) =>
          match parse_alt f n1 s1 with
          | Some (b, n2, s2) => Some (Alt a b, n2, s2)
          | None => None
          end
      | other => other
      end
  end
with parse_seq (fuel n : nat) (s : text) : option (re * nat * text) :=
  match fuel with
  | O => None
  | S f =>
      match s with
      | [] => Some (Eps, n, s)
      | "|"%char :: _ => Some (Eps, n, s)
      | ")"%char :: _ => Some (Eps, n, s)
      | _ =>
          match parse_atom f n s with
          | Some (a, n1, s1) =>
              match parse_quant a s1 with
              | Some (item, s2) =>
                  match parse_seq f n1 s2 with
                  | Some (Eps, n2, s3) => Some (item, n2, s3)
                  | Some (r, n2, s3) => Some (Seq item r, n2, s3)
                  | None => None
                  end
              | None => None
              end
          | None => None
          end
      end
  end
with parse_atom (fuel n : nat) (s : text) : option (re * nat * text) :=
  match fuel with
  | O => None
  | S f =>
      match s with
      | [] => None
      | "("%char :: "?"%char :: _ => None
      | "("%char :: s1 =>
          match parse_alt f (S n) s1 with
          | Some (r, n1, ")"%char :: s2) => Some (Grp (S n) r, n1, s2)
          | _ => None
          end
      | "["%char :: "^"%char :: s1 =>
          match parse_class (S (length s1)) s1 with
          | Some (its, s2) => Some (Chr {| negated := true; items := its |}, n, s2)
          | None => None
          end
      | "["%char :: s1 =>
          match parse_class (S (length s1)) s1 with
          | Some (its, s2) => Some (Chr {| negated := false; items := its |}, n, s2)
          | None => None
          end
      | "\"%char :: "b"%char :: s1 => Some (WordB, n, s1)
      | "\"%char :: c :: s1 =>
          match escape_item c with
          | Some it => Some (Chr (one it), n, s1)
          | None => None
          end
      | "."%char :: s1 => Some (Chr (one IAny), n, s1)
      | "^"%char :: s1 => Some (Bol, n, s1)
      | "$"%char :: s1 => Some (Eol, n, s1)
      | c :: s1 => if is_special c then None else Some (Chr (lit c), n, s1)
      end
  end.

(** [re.compile(pat, flags)]; [None] when the pattern leaves the fragment. *)
Definition compile_text (fl : flags) (s : text) : option pattern :=
  match parse_alt (4 * length s + 4) 0 s with
  | Some (r, n, []) => Some {| ast := r; ngroups := n; pflags := fl |}
  | _ => None
  end.
Definition compile (fl : flags) (pat : string) : option pattern :=
  compile_text fl (T pat).

(** [re.escape(keyword)] followed by compilation: the keyword, character by
    character. *)
Fixpoint literal (s : text) : re :=
  match s with
  | [] => Eps
  | c :: s' => Seq (Chr (lit c)) (literal s')
  end.

(** ** Matching *)

Definition item_mem (it : citem) (c : ascii) : bool :=
  match it with
  | IChar a => Ascii.eqb a c
  | IRange lo hi => Str.in_range (Str.code lo) (Str.code hi) c
  | IDigit => Str.is_digit c
  | ISpace => Str.is_space c
  | IWord => Str.is_word c
  | IAny => negb (Ascii.eqb c newline)
  end.

(** Under IGNORECASE an item also accepts the other case of a letter. *)
Definition item_mem_ic (ic : bool) (c : ascii) (it : citem) : bool :=
  item_mem it c ||
  (ic && (item_mem it (Str.char_lower c) || item_mem it (Str.char_upper c))).

Definition cset_mem (ic : bool) (cs : cset) (c : ascii) : bool :=
  xorb (negated cs) (existsb (item_mem_ic ic c) (items cs)).

Definition captures := list (nat * text).

Definition at_bol (ml : bool) (pv : option ascii) : bool :=
  match pv with
  | None => true
  | Some c => ml && Ascii.eqb c newline
  end.

(** [$]: at the end, before a final line feed, and (MULTILINE) before any
    line feed. *)
Definition at_eol (ml : bool) (s : text) : bool :=
  match s with
  | [] => true
  | c :: s' =>
      Ascii.eqb c newline && (ml || match s' with [] => true | _ => false end)
  end.

Definition word_boundary (pv : option ascii) (s : text) : bool :=
  xorb (match pv with Some c => Str.is_word c | None => false end)
       (match s with c :: _ => Str.is_word c | [] => false end).

Definition or_else {A} (a : option A) (b : option A) : option A :=
  match a with
  | Some _ => a
  | None => b
  end.

Section Exec.
Variable fl : flags.
Variable R : Type.

(** A continuation receives the character before the position and the
    remaining input. *)

(** Backtracking over [cs{lo,hi}]: a greedy repetition first tries one
    more character, a lazy one first tries to stop. *)
Fixpoint rep_exec (g : bool) (cs : cset) (lo : nat) (hi : option nat)
    (pv : option ascii) (s : text)
    (k : option ascii -> text -> option R) {struct s} : option R :=
  match s with
  | [] => match lo with O => k pv s | S _ => None end
  | c :: s' =>
      let may_take :=
        cset_mem (ignorecase fl) cs c &&
        match hi with Some O => false | _ => true end in
      match lo with
      | S lo' =>
          if may_take
          then rep_exec g cs lo' (option_map pred hi) (Some c) s' k
          else None
      | O =>
          if may_take then
            if g then
              match rep_exec g cs 0 (option_map pred hi) (Some c) s' k with
              | Some r => Some r
              | None => k pv s
              end
            else
              match k pv s with
              | Some r => Some r
              | None => rep_exec g cs 0 (option_map pred hi) (Some c) s' k
              end
          else k pv s
      end
  end.

Fixpoint exec (r : re) (pv : option ascii) (s : text) (cs : captures)
    (k : option ascii -> text -> captures -> option R) {struct r} : option R :=
  match r with
  | Eps => k pv s cs
  | Chr c =>
      match s with
      | x :: s' => if cset_mem (ignorecase fl) c x then k (Some x) s' cs else None
      | [] => None
      end
  | Seq a b => exec a pv s cs (fun pv1 s1 cs1 => exec b pv1 s1 cs1 k)
  | Alt a b =>
      match exec a pv s cs k with
      | Some x => Some x
      | None => exec b pv s cs k
      end
  | Rep g lo hi c => rep_exec g c lo hi pv s (fun pv1 s1 => k pv1 s1 cs)
  | Grp i a =>
      exec a pv s cs
        (fun pv1 s1 cs1 =>
           k pv1 s1 ((i, firstn (length s - length s1) s) :: cs1))
  | Bol => if at_bol (multiline fl) pv then k pv s cs else None
  | Eol => if at_eol (multiline fl) s then k pv s cs else None
  | WordB => if word_boundary pv s then k pv s cs else None
  end.
End Exec.

(** A match: the text before it, the matched text, the text after it and
    the groups 1..n ([None] for a group that took no part). *)
Record mobj := {
  m_before : text;
  m_text : text;
  m_after : text;
  m_groups : list (option text)
}.

Fixpoint lookup_cap (i : nat) (cs : captures) : option text :=
  match cs with
  | [] => None
  | (j, t) :: cs' => if Nat.eqb i j then Some t else lookup_cap i cs'
  end.

Definition groups_of (n : nat) (cs : captures) : list (option text) :=
  map (fun i => lookup_cap i cs) (seq 1 n).

(** One attempt at the current position. *)
Definition match_here (p : pattern) (pv : option ascii) (s : text)
  : option (text * captures) :=
  exec (pflags p) (ast p) pv s []
       (fun _ s1 cs1 => Some (s1, cs1)).

Definition mobj_at (p : pattern) (before s : text) (res : text * captures) : mobj :=
  let '(s1, cs1) := res in
  {| m_before := before;
     m_text := firstn (length s - length s1) s;
     m_after := s1;
     m_groups := groups_of (ngroups p) cs1 |}.

(** [pattern.match(s)]: anchored at the start of [s]. *)
Definition rmatch (p : pattern) (s : text) : option mobj :=
  option_map (mobj_at p [] s) (match_here p None s).

(** [pattern.search(s)]: the leftmost position with a match. *)
Fixpoint search_from (p : pattern) (before : text) (pv : option ascii) (s : text)
  : option mobj :=
  match match_here p pv s with
  | Some res => Some (mobj_at p (rev before) s res)
  | None =>
      match s with
      | [] => None
      | c :: s' => search_from p (c :: before) (Some c) s'
      end
  end.
Definition search (p : pattern) (s : text) : option mobj :=
  search_from p [] None s.

(** Scanning for all non-overlapping matches, as [findall] and [sub] do:
    after a match the scan resumes at its end; an empty match is followed by
    one step forward.  [skip] counts characters inside the last match. *)
Fixpoint scan (p : pattern) (skip : nat) (pv : option ascii) (s : text)
  : list (text + ascii) :=
  match skip with
  | S n =>
      match s with
      | [] => []
      | c :: s' => scan p n (Some c) s'
      end
  | O =>
      match match_here p pv s with
      | Some (s1, _) =>
          let len := length s - length s1 in
          inl (firstn len s) ::
          match s with
          | [] => []
          | c :: s' =>
              match len with
              | O => inr c :: scan p 0 (Some c) s'
              | S n => scan p n (Some c) s'
              end
          end
      | None =>
          match s with
          | [] => []
          | c :: s' => inr c :: scan p 0 (Some c) s'
          end
      end
  end.

(** [len(re.findall(pattern, s))] *)
Definition count_matches (p : pattern) (s : text) : nat :=
  length (filter (fun x => match x with inl _ => true | inr _ => false end)
                 (scan p 0 None s)).

(** [re.sub(pattern, repl, s)] for a replacement without group references. *)
Definition sub (p : pattern) (repl s : text) : text :=
  flat_map (fun x => match x with inl _ => repl | inr c => [c] end)
           (scan p 0 None s).

End Re.

(* ================================================================== *)
(** * Part III.  Python numbers                                        *)
(* ================================================================== *)

Module Py.

Fixpoint pow10 (n : nat) : positive :=
  match n with
  | O => 1%positive
  | S k => (10 * pow10 k)%positive
  end.

(** Nearest integer, ties to the even one (the rule of [round] and of the
    [f] format). *)
Definition round_half_even (q : Q) : Z :=
  let n := Qnum q in
  let d := Zpos (Qden q) in
  let f := (n / d)%Z in
  let r2 := (2 * (n mod d))%Z in
  if (r2 <? d)%Z then f
  else if (d <? r2)%Z then (f + 1)%Z
  else if Z.even f then f else (f + 1)%Z.

(** [round(x, 2)] *)
Definition round2 (q : Q) : Q := (round_half_even (q * 100) # 100)%Q.

Definition is_neg (q : Q) : bool := (Qnum q <? 0)%Z.

(** An optional sign in front of a literal. *)
Definition split_sign (s : text) : bool * text :=
  match s with
  | c :: t =>
      if Ascii.eqb c "-" then (true, t)
      else if Ascii.eqb c "+" then (false, t)
      else (false, s)
  | [] => (false, s)
  end.

(** A run of digits with an optional sign, as [int] and the exponent of a
    float literal read it. *)
Definition signed_digits (s : text) : option Z :=
  let '(neg, ds) := split_sign s in
  match ds with
  | [] => None
  | _ :: _ =>
      if forallb Str.is_digit ds
      then let v := Z.of_N (Str.digits_value ds) in
           Some (if neg then (- v)%Z else v)
      else None
  end.

(** [int(s)] on a decimal literal. *)
Definition int (s : text) : option Z := signed_digits (Str.strip s).

Definition exponent (s : text) : option Z :=
  match s with
  | [] => Some 0%Z
  | c :: t =>
      if Ascii.eqb c "e" || Ascii.eqb c "E" then signed_digits t else None
  end.

Definition scale (q : Q) (e : Z) : Q :=
  match e with
  | Z0 => q
  | Zpos n => (q * (Zpos (pow10 (Pos.to_nat n)) # 1))%Q
  | Zneg n => (q * (1 # pow10 (Pos.to_nat n)))%Q
  end.

(** The digits after the point, and what follows them. *)
Definition fraction (s : text) : text * text :=
  match s with
  | c :: t =>
      if Ascii.eqb c "."
      then (Str.take_while Str.is_digit t, Str.drop_while Str.is_digit t)
      else ([], s)
  | [] => ([], s)
  end.

(** [float(s)] on a decimal literal, as the exact number it denotes:
    optional sign, digits with an optional fraction, optional exponent.
    Digit-group underscores, [inf] and [nan] are not read here; [float64_of]
    below reads them. *)
Definition float (s : text) : option Q :=
  let '(neg, s1) := split_sign (Str.strip s) in
  let ip := Str.take_while Str.is_digit s1 in
  let '(fp, s3) := fraction (Str.drop_while Str.is_digit s1) in
  match ip ++ fp with
  | [] => None
  | _ :: _ =>
      match exponent s3 with
      | None => None
      | Some e =>
          let v := scale (Z.of_N (Str.digits_value (ip ++ fp)) # pow10 (length fp))%Q e in
          Some (if neg then (- v)%Q else v)
      end
  end.

(** Thousands separators, inserted from the right on the reversed digits. *)
Fixpoint commas_rev (n : nat) (rs : text) : text :=
  match rs with
  | [] => []
  | c :: rs' =>
      match n with
      | O => ","%char :: c :: commas_rev 2 rs'
      | S k => c :: commas_rev k rs'
      end
  end.
Definition group3 (ds : text) : text := rev (commas_rev 3 (rev ds)).

(** [f"{x:,.2f}"]: sign, integer part with thousands separators, a point
    and two digits. *)
Definition format_comma_2f (q : Q) : text :=
  let c := Z.to_N (round_half_even (Qabs q * 100)%Q) in
  (if is_neg q then ["-"%char] else [])
    ++ group3 (Str.digits_of (c / 100)%N)
    ++ ["."%char; Str.digit_char ((c mod 100) / 10)%N; Str.digit_char (c mod 10)%N].

(** [if x:] on a string that may be [None]: [None] and the empty string
    count as false. *)
Definition truthy (x : option text) : option text :=
  match x with
  | Some (c :: s) => Some (c :: s)
  | _ => None
  end.

(** ** Doubles with their special values *)

(** A [float] where it can leave the finite range (amount_parser.py): a
    finite value, kept as the exact rational, an infinity or NaN. *)
Inductive float64 :=
| Finite (q : Q)
| Infinity (negative : bool)
| NaN.

(** The largest finite double is [2^1024 - 2^971]; a decimal literal at or
    above [2^1024 - 2^970], half a unit in the last place further, is read
    as an infinity. *)
Definition overflow_bound : Q := (2 ^ 1024 - 2 ^ 970 # 1)%Q.

Definition to_float64 (q : Q) : float64 :=
  if Qle_bool overflow_bound (Qabs q) then Infinity (is_neg q) else Finite q.

(** The white space [float] accepts around an ASCII literal. *)
Definition c_space (c : ascii) : bool :=
  Str.in_range 9 13 c || (Str.code c =? 32)%N.

(** Underscores are accepted between two digits and dropped; any other
    underscore is an error. *)
Fixpoint digit_groups (prev_digit : bool) (s : text) : option text :=
  match s with
  | [] => Some []
  | c :: t =>
      if Ascii.eqb c "_"
      then match t with
           | d :: _ =>
               if prev_digit && Str.is_digit d then digit_groups false t else None
           | [] => None
           end
      else match digit_groups (Str.is_digit c) t with
           | Some u => Some (c :: u)
           | None => None
           end
  end.

(** [inf], [infinity] and [nan] in any case, with an optional sign. *)
Definition special (s : text) : option float64 :=
  let '(neg, body) := split_sign s in
  let body := Str.lower body in
  if Str.eqb body (T "inf") || Str.eqb body (T "infinity") then Some (Infinity neg)
  else if Str.eqb body (T "nan") then Some NaN
  else None.

(** [float(s)] as a double: the special values are read, and a decimal
    literal beyond the range of a double gives an infinity; below, the
    value is the exact rational [float] reads. *)
Definition float64_of (s : text) : option float64 :=
  let s := Str.drop_while c_space s in
  let s := rev (Str.drop_while c_space (rev s)) in
  match digit_groups false s with
  | None => None
  | Some u =>
      match special u with
      | Some v => Some v
      | None =>
          (* no other white space is skipped *)
          if negb (length (Str.strip u) =? length u) then None
          else match float u with
               | Some q => Some (to_float64 q)
               | None => None
               end
      end
  end.

(** [round(x, 2)] *)
Definition round_2 (x : float64) : float64 :=
  match x with
  | Finite q => Finite (round2 q)
  | _ => x
  end.

(** [abs(x)] *)
Definition fabs (x : float64) : float64 :=
  match x with
  | Finite q => Finite (Qabs q)
  | Infinity _ => Infinity false
  | NaN => NaN
  end.

(** [x < 0] *)
Definition negative (x : float64) : bool :=
  match x with
  | Finite q => is_neg q
  | Infinity neg => neg
  | NaN => false
  end.

(** [f"{x:,.2f}"] on a double. *)
Definition format_comma_2f_64 (x : float64) : text :=
  match x with
  | Finite q => format_comma_2f q
  | Infinity neg => if neg then T "-inf" else T "inf"
  | NaN => T "nan"
  end.

End Py.

(* ================================================================== *)
(** * Part IV.  parser/amount_parser.py                                *)
(* ================================================================== *)

Module AmountParser.

Definition amount_patterns : list string :=
  [ "[\d,]+\.\d{2}"%string;      (* Standard format: 1,000.00 *)
    "[\d,]+\.\d{1}"%string;      (* Format with one decimal: 1,000.0 *)
    "[\d,]+"%string;             (* Format without decimals: 1,000 *)
    "\d+\.\d{2}"%string;         (* Without commas: 1000.00 *)
    "\d+\.\d{1}"%string ].       (* Without commas, one decimal: 1000.0 *)

(** [re.search(pattern, s)] *)
Definition re_search (pat : string) (s : text) : option Re.mobj :=
  match Re.compile Re.no_flags pat with
  | Some p => Re.search p s
  | None => None
  end.

Fixpoint first_match (pats : list string) (s : text) : option text :=
  match pats with
  | [] => None
  | pat :: rest =>
      match re_search pat s with
      | Some m => Some (Re.m_text m)
      | None => first_match rest s
      end
  end.

Definition _clean_amount_string (amount_str : text) : option text :=
  (* Remove extra spaces *)
  let amount_str := Str.strip amount_str in
  (* Handle negative amounts in parentheses: (1,000.00) -> -1000.00 *)
  let amount_str :=
    if Str.startswith (T "(") amount_str && Str.endswith (T ")") amount_str
    then "-"%char :: removelast (tl amount_str)
    else amount_str in
  (* Try to extract amount using patterns *)
  match first_match amount_patterns amount_str with
  | Some m => Some m
  | None =>
      (* If no pattern matches, try to extract digits and decimal *)
      match re_search "[\d,]*\.?\d+" amount_str with
      | Some m => Some (Re.m_text m)
      | None => None
      end
  end.

Definition parse_amount (amount_str : text) : option Py.float64 :=
  match amount_str with
  | [] => None
  | _ :: _ =>
      match _clean_amount_string amount_str with
      | None => None
      | Some [] => None
      | Some cleaned =>
          match Py.float64_of (Str.replace (T ",") [] cleaned) with
          | Some amount => Some (Py.round_2 amount)
          | None => None
          end
      end
  end.

Definition validate_amount_format (amount_str : text) : bool :=
  match _clean_amount_string amount_str with
  | None => false
  | Some [] => false
  | Some cleaned =>
      match Py.float64_of (Str.replace (T ",") [] cleaned) with
      | Some _ => true
      | None => false
      end
  end.

(** The seven bytes the source file holds between the quotes of its
    currency prefix. *)
Definition currency_prefix : text :=
  map ascii_of_nat [195; 162; 226; 128; 154; 194; 185].

Definition format_amount (amount : Py.float64) (include_currency : bool) : text :=
  (* Format with commas and 2 decimal places *)
  let formatted := Py.format_comma_2f_64 (Py.fabs amount) in
  (* Add negative sign if needed *)
  let formatted :=
    if Py.negative amount then T "(" ++ formatted ++ T ")" else formatted in
  if include_currency then currency_prefix ++ formatted else formatted.

End AmountParser.

(* ================================================================== *)
(** * Part V.  Dictionaries in insertion order                         *)
(* ================================================================== *)

Module Dict.

Section Assoc.
Variable V : Type.

Definition dict := list (text * V).

(** [d.get(k)] *)
Fixpoint get (k : text) (d : dict) : option V :=
  match d with
  | [] => None
  | (k', v) :: d' => if Str.eqb k k' then Some v else get k d'
  end.

(** [k in d] *)
Definition mem (k : text) (d : dict) : bool :=
  match get k d with Some _ => true | None => false end.

(** [d[k] = v]: an existing key keeps its place, a new one goes last. *)
Fixpoint set (k : text) (v : V) (d : dict) : dict :=
  match d with
  | [] => [(k, v)]
  | (k', v') :: d' =>
      if Str.eqb k k' then (k', v) :: d' else (k', v') :: set k v d'
  end.

Definition keys (d : dict) : list text := map fst d.
End Assoc.

End Dict.

(* ================================================================== *)
(** * Part VI.  parser/bank_format_detector.py                         *)
(* ================================================================== *)

Record indicators := {
  keywords : list text;
  date_format : string;
  amount_format : string
}.

Module BankFormatDetector.

Definition bank_indicators : Dict.dict indicators :=
  [ (T "hdfc",
      {| keywords := [T "HDFC"; T "HDFC BANK"; T "HDFC Bank"];
         date_format := "\d{2}/\d{2}/\d{4}";
         amount_format := "[\d,]+\.[\d]{2}" |});
    (T "sbi",
      {| keywords := [T "SBI"; T "STATE BANK"; T "State Bank of India"];
         date_format := "\d{2}-\d{2}-\d{4}";
         amount_format := "[\d,]+\.[\d]{2}" |});
    (T "icici",
      {| keywords := [T "ICICI"; T "ICICI BANK"; T "ICICI Bank"];
         date_format := "\d{2}/\d{2}/\d{4}";
         amount_format := "[\d,]+\.[\d]{2}" |});
    (T "axis",
      {| keywords := [T "AXIS"; T "AXIS BANK"; T "Axis Bank"];
         date_format := "\d{2}/\d{2}/\d{4}";
         amount_format := "[\d,]+\.[\d]{2}" |}) ].

(** The first profile, in dictionary order, one of whose keywords occurs in
    the upper-cased text. *)
Fixpoint keyword_scan (text_upper : text) (inds : Dict.dict indicators)
  : option text :=
  match inds with
  | [] => None
  | (bank_type, ind) :: rest =>
      if existsb (fun keyword => Str.contains (Str.upper keyword) text_upper)
                 (keywords ind)
      then Some bank_type
      else keyword_scan text_upper rest
  end.

Definition detect_bank_format (txt : text) : text :=
  let text_upper := Str.upper txt in
  match keyword_scan text_upper bank_indicators with
  | Some bank_type => bank_type
  | None => T "generic"
  end.

End BankFormatDetector.

(* ================================================================== *)
(** * Part VII.  parser/bank_formats.py (a second detector class)      *)
(* ================================================================== *)

Module BankFormats.

Definition bank_indicators : Dict.dict indicators :=
  BankFormatDetector.bank_indicators ++
  [ (T "pnb",
      {| keywords := [T "PNB"; T "PUNJAB NATIONAL BANK"];
         date_format := "\d{2}/\d{2}/\d{4}";
         amount_format := "[\d,]+\.[\d]{2}" |}) ].

(** [re.findall(pattern, text)] *)
Definition findall (pat : string) (txt : text) : list text :=
  match Re.compile Re.no_flags pat with
  | Some p =>
      flat_map (fun x => match x with inl m => [m] | inr _ => [] end)
               (Re.scan p 0 None txt)
  | None => []
  end.

Definition date_patterns : list (text * string) :=
  [ (T "sbi", "\d{2}-\d{2}-\d{4}"%string);    (* DD-MM-YYYY *)
    (T "hdfc", "\d{2}/\d{2}/\d{4}"%string);   (* DD/MM/YYYY *)
    (T "icici", "\d{2}/\d{2}/\d{4}"%string);  (* DD/MM/YYYY *)
    (T "axis", "\d{2}/\d{2}/\d{4}"%string) ]. (* DD/MM/YYYY *)

(** [max(counts, key=counts.get)]: the first key with the largest count. *)
Fixpoint max_by_count (best : text * nat) (rest : list (text * nat)) : text * nat :=
  match rest with
  | [] => best
  | (k, n) :: rest' =>
      if snd best <? n then max_by_count (k, n) rest' else max_by_count best rest'
  end.

Definition _detect_by_date_format (txt : text) : option text :=
  let pattern_counts :=
    map (fun bp => (fst bp, length (findall (snd bp) txt))) date_patterns in
  (* Return bank with most date matches *)
  match pattern_counts with
  | [] => None
  | first :: rest =>
      let max_bank := max_by_count first rest in
      if 0 <? snd max_bank then Some (fst max_bank) else None
  end.

Definition _detect_by_amount_format (txt : text) : option text :=
  let matches := findall "[\d,]+\.\d{2}" txt in
  if (5 <? length matches)
     && existsb (fun amount => Str.contains (T ",") amount) matches
  then Some (T "generic")
  else None.

Definition detect_bank_format (txt : text) : text :=
  let text_upper := Str.upper txt in
  (* Check for bank-specific keywords *)
  match BankFormatDetector.keyword_scan text_upper bank_indicators with
  | Some bank_type => bank_type
  | None =>
      (* Check date format patterns *)
      match _detect_by_date_format txt with
      | Some date_matches => date_matches
      | None =>
          (* Check amount format patterns *)
          match _detect_by_amount_format txt with
          | Some amount_matches => amount_matches
          | None => T "generic"
          end
      end
  end.

End BankFormats.

(* ================================================================== *)
(** * Part VIII.  parser/regex_patterns.py                             *)
(* ================================================================== *)

Module RegexPatterns.

(** Default patterns for common bank formats *)
Definition default_patterns : Dict.dict (list string) :=
  [ (T "hdfc",
      [ (* DD/MM/YYYY Description Amount CR/DR Narration *)
        "^(\d{1,2}/\d{1,2}/\d{2,4})\s+(.*?)\s+([\d,]+\.?\d{0,2})\s+(CR|DR)\s*(.*)$"%string;
        (* With transaction code *)
        "^(\d{1,2}/\d{1,2}/\d{4})\s+([A-Z0-9/-]+)\s+(.*?)\s+([\d,]+\.?\d{0,2})\s+(CR|DR)\s*(.*)$"%string ]);
    (T "sbi",
      [ (* DD-MM-YYYY Description Amount CR/DR Narration *)
        "^(\d{1,2}-\d{1,2}-\d{2,4})\s+(.*?)\s+([\d,]+\.?\d{0,2})\s+(CR|DR)\s*(.*)$"%string;
        (* With cheque number *)
        "^(\d{1,2}-\d{1,2}-\d{4})\s+(.*?)\s+(CHQ\s+\d+)\s+([\d,]+\.?\d{0,2})\s+(CR|DR)\s*(.*)$"%string ]);
    (T "icici",
      [ (* DD/MM/YYYY Description Amount Cr/Dr Balance *)
        "^(\d{1,2}/\d{1,2}/\d{4})\s+(.*?)\s+([\d,]+\.?\d{0,2})\s+(Cr|Dr)\s+([\d,]+\.?\d{0,2})$"%string;
        (* UPI transactions *)
        "^(\d{1,2}/\d{1,2}/\d{4})\s+(UPI/.*?)\s+([\d,]+\.?\d{0,2})\s+(Cr|Dr)$"%string ]);
    (T "axis",
      [ (* DD/MM/YYYY Description Amount CR/DR *)
        "^(\d{1,2}/\d{1,2}/\d{4})\s+(.*?)\s+([\d,]+\.?\d{0,2})\s+(CR|DR)$"%string;
        (* NEFT/IMPS transactions *)
        "^(\d{1,2}/\d{1,2}/\d{4})\s+(NEFT|IMPS|RTGS).*?\s+([\d,]+\.?\d{0,2})\s+(CR|DR)$"%string ]);
    (T "generic",
      [ (* Generic pattern 1: Date Description Amount Type *)
        "^(\d{1,2}[/-]\d{1,2}[/-]\d{2,4})\s+(.*?)\s+([\d,]+\.?\d{0,2})\s+(CR|DR|Cr|Dr)\s*(.*)$"%string;
        (* Generic pattern 2: Date Description Type Amount *)
        "^(\d{1,2}[/-]\d{1,2}[/-]\d{2,4})\s+(.*?)\s+(CR|DR|Cr|Dr)\s+([\d,]+\.?\d{0,2})\s*(.*)$"%string;
        (* Generic pattern 3: With transaction ID *)
        "^(\d{1,2}[/-]\d{1,2}[/-]\d{4})\s+([A-Z0-9]+)\s+(.*?)\s+([\d,]+\.?\d{0,2})\s+(CR|DR)\s*(.*)$"%string;
        (* Generic pattern 4: Multi-line transactions *)
        "^(\d{1,2}[/-]\d{1,2}[/-]\d{4})\s*$\s*^(.*?)\s+([\d,]+\.?\d{0,2})\s+(CR|DR)\s*(.*)$"%string ]) ].

Definition compile_flags : Re.flags :=
  {| Re.ignorecase := true; Re.multiline := true |}.

Fixpoint compile_list (pats : list string) : option (list Re.pattern) :=
  match pats with
  | [] => Some []
  | pat :: rest =>
      match Re.compile compile_flags pat, compile_list rest with
      | Some p, Some ps => Some (p :: ps)
      | _, _ => None
      end
  end.

(** Compile all regex patterns; [None] when a pattern is not accepted
    (the constructor raises). *)
Fixpoint _compile_patterns (patterns : Dict.dict (list string))
  : option (Dict.dict (list Re.pattern)) :=
  match patterns with
  | [] => Some []
  | (bank_type, pats) :: rest =>
      match compile_list pats, _compile_patterns rest with
      | Some ps, Some d => Some ((bank_type, ps) :: d)
      | _, _ => None
      end
  end.

(** The [compiled_patterns] of an instance built without a config file. *)
Definition default_compiled : Dict.dict (list Re.pattern) :=
  match _compile_patterns default_patterns with
  | Some d => d
  | None => []
  end.

(** A match is the tuple of its groups. *)
Definition groups := list (option text).

Section Instance.
(** [self.compiled_patterns] *)
Variable compiled_patterns : Dict.dict (list Re.pattern).

Definition get_patterns (bank_type : text) : list Re.pattern :=
  match Dict.get bank_type compiled_patterns with
  | Some ps => ps
  | None => []
  end.

Fixpoint first_groups (pats : list Re.pattern) (line : text) : option groups :=
  match pats with
  | [] => None
  | p :: rest =>
      match Re.rmatch p line with
      | Some m => Some (Re.m_groups m)
      | None => first_groups rest line
      end
  end.

(** Try all patterns for a specific bank type on a line. *)
Definition match_transaction (line : text) (bank_type : text) : option groups :=
  let line := Str.strip line in
  match line with
  | [] => None
  | _ :: _ =>
      if length line <? 10 then None
      else
        let patterns := get_patterns bank_type ++ get_patterns (T "generic") in
        first_groups patterns line
  end.

(** Find all transactions in text using specified bank patterns; an empty
    tuple of groups is falsy and is skipped like a failed match. *)
Definition find_all_transactions (txt : text) (bank_type : text) : list groups :=
  let lines := Str.split Re.newline txt in
  flat_map
    (fun line =>
       match match_transaction line bank_type with
       | Some (g :: gs) => [g :: gs]
       | _ => []
       end)
    lines.
End Instance.

(** An instance: [self.patterns] and [self.compiled_patterns]. *)
Record instance := {
  patterns : Dict.dict (list string);
  compiled_patterns : Dict.dict (list Re.pattern)
}.

(** The instance built without a config file. *)
Definition default_instance : instance :=
  {| patterns := default_patterns; compiled_patterns := default_compiled |}.

(** Get list of supported bank formats *)
Definition get_supported_banks (self : instance) : list text :=
  Dict.keys (patterns self).

(** [if k not in d: d[k] = []] followed by [d[k].append(x)] *)
Definition ensure_key (V : Type) (k : text) (d : Dict.dict (list V))
  : Dict.dict (list V) :=
  if Dict.mem k d then d else Dict.set k [] d.
Definition append_to (V : Type) (k : text) (x : V) (d : Dict.dict (list V))
  : Dict.dict (list V) :=
  match Dict.get k d with
  | Some l => Dict.set k (l ++ [x]) d
  | None => d
  end.

(** Add custom regex pattern for a bank type.  The boolean tells whether
    the call returned: compilation raises after the key has been entered
    into [compiled_patterns]. *)
Definition add_custom_pattern (self : instance) (bank_type : text)
    (pattern : string) : instance * bool :=
  let compiled := ensure_key bank_type (compiled_patterns self) in
  match Re.compile compile_flags pattern with
  | None =>
      ({| patterns := patterns self; compiled_patterns := compiled |}, false)
  | Some compiled_pattern =>
      let compiled := append_to bank_type compiled_pattern compiled in
      (* Also add to patterns dict for persistence *)
      let pats := ensure_key bank_type (patterns self) in
      ({| patterns := append_to bank_type pattern pats;
          compiled_patterns := compiled |}, true)
  end.

End RegexPatterns.

(* ================================================================== *)
(** * Part IX.  parser/date_parser.py                                  *)
(* ================================================================== *)

(** A [datetime] at midnight: the formats of the parser carry no time. *)
Record datetime := { year : Z; month : Z; day : Z }.

Module DateParser.

Local Open Scope Z_scope.

Definition is_leap (y : Z) : bool :=
  (y mod 4 =? 0) && (negb (y mod 100 =? 0) || (y mod 400 =? 0)).

Definition days_in_month (y m : Z) : Z :=
  if (m =? 2) then (if is_leap y then 29 else 28)
  else if (m =? 4) || (m =? 6) || (m =? 9) || (m =? 11) then 30
  else 31.

(** [datetime(year, month, day)]; [None] for the [ValueError]. *)
Definition make_datetime (y m d : Z) : option datetime :=
  if (1 <=? y) && (y <=? 9999) && (1 <=? m) && (m <=? 12)
     && (1 <=? d) && (d <=? days_in_month y m)
  then Some {| year := y; month := m; day := d |}
  else None.

Inductive field := FDay | FMonth | FYear4 | FYear2.

(** The regular expression [strptime] builds for a directive. *)
Definition directive (c : ascii) : option (text * field) :=
  if Ascii.eqb c "d" then Some (T "(3[0-1]|[1-2]\d|0[1-9]|[1-9]| [1-9])", FDay)
  else if Ascii.eqb c "m" then Some (T "(1[0-2]|0[1-9]|[1-9])", FMonth)
  else if Ascii.eqb c "Y" then Some (T "(\d\d\d\d)", FYear4)
  else if Ascii.eqb c "y" then Some (T "(\d\d)", FYear2)
  else None.

Fixpoint format_regex (fuel : nat) (fmt : text) : option (text * list field) :=
  match fuel with
  | O => None
  | S f =>
      match fmt with
      | [] => Some ([], [])
      | "%"%char :: c :: rest =>
          match directive c, format_regex f rest with
          | Some (r, fld), Some (rs, flds) => Some (r ++ rs, fld :: flds)
          | _, _ => None
          end
      | c :: rest =>
          match format_regex f rest with
          | Some (rs, flds) =>
              Some ((if Str.is_alnum c then [c] else ["\"%char; c]) ++ rs, flds)
          | None => None
          end
      end
  end.

Fixpoint assign (flds : list field) (gs : list (option text)) (dmy : Z * Z * Z)
  : option (Z * Z * Z) :=
  match flds, gs with
  | [], _ => Some dmy
  | fld :: flds', Some g :: gs' =>
      match Py.int g with
      | Some v =>
          let '(d, m, y) := dmy in
          assign flds' gs'
            match fld with
            | FDay => (v, m, y)
            | FMonth => (d, v, y)
            | FYear4 => (d, m, v)
            | FYear2 => (d, m, if v <=? 68 then v + 2000 else v + 1900)
            end
      | None => None
      end
  | _, _ => None
  end.

(** [datetime.strptime(date_string, format)]; [None] for the [ValueError]:
    the whole string has to match and to denote a date. *)
Definition strptime (date_string : text) (fmt : string) : option datetime :=
  match format_regex (S (length (T fmt))) (T fmt) with
  | None => None
  | Some (rs, flds) =>
      match Re.compile_text {| Re.ignorecase := true; Re.multiline := false |} rs with
      | None => None
      | Some p =>
          match Re.rmatch p date_string with
          | Some m =>
              match Re.m_after m with
              | [] =>
                  match assign flds (Re.m_groups m) (1, 1, 1900) with
                  | Some (d, mo, y) => make_datetime y mo d
                  | None => None
                  end
              | _ :: _ => None
              end
          | None => None
          end
      end
  end.

Definition date_patterns : list (string * string) :=
  [ ("\d{1,2}/\d{1,2}/\d{4}", "%d/%m/%Y");    (* DD/MM/YYYY *)
    ("\d{1,2}-\d{1,2}-\d{4}", "%d-%m-%Y");    (* DD-MM-YYYY *)
    ("\d{1,2}\.\d{1,2}\.\d{4}", "%d.%m.%Y");  (* DD.MM.YYYY *)
    ("\d{4}/\d{1,2}/\d{1,2}", "%Y/%m/%d");    (* YYYY/MM/DD *)
    ("\d{4}-\d{1,2}-\d{1,2}", "%Y-%m-%d");    (* YYYY-MM-DD *)
    ("\d{1,2}/\d{1,2}/\d{2}", "%d/%m/%y");    (* DD/MM/YY *)
    ("\d{1,2}-\d{1,2}-\d{2}", "%d-%m-%y") ]%string.  (* DD-MM-YY *)

(** [re.match(pattern, s)] is truthy *)
Definition re_matches (pat : string) (s : text) : bool :=
  match Re.compile Re.no_flags pat with
  | Some p => match Re.rmatch p s with Some _ => true | None => false end
  | None => false
  end.

(** Method 1: the first pattern that matches and whose format parses. *)
Fixpoint try_patterns (pats : list (string * string)) (date_str : text)
  : option datetime :=
  match pats with
  | [] => None
  | (pat, format_str) :: rest =>
      if re_matches pat date_str then
        match strptime date_str format_str with
        | Some d => Some d
        | None => try_patterns rest date_str
        end
      else try_patterns rest date_str
  end.

(** One separator of the manual method: [None] lets the loop go on. *)
Definition manual_with_sep (clean_date : text) (sep : ascii) : option datetime :=
  match Str.split sep clean_date with
  | [p1; p2; p3] =>
      match Py.int p1, Py.int p2, Py.int p3 with
      | Some d, Some m, Some y =>
          (* Handle 2-digit years *)
          let y := if y <? 100 then y + (if y <? 50 then 2000 else 1900) else y in
          (* Validate date components *)
          if (1 <=? d) && (d <=? 31) && (1 <=? m) && (m <=? 12)
          then make_datetime y m d
          else None
      | _, _, _ => None
      end
  | _ => None
  end.

(** Manual date parsing for tricky formats *)
Definition _manual_date_parse (date_str : text) : option datetime :=
  (* Remove any non-date characters *)
  let clean_date :=
    match Re.compile Re.no_flags "[^\d/\-\.]" with
    | Some p => Re.sub p [] date_str
    | None => date_str
    end in
  (* Try common separators *)
  Re.or_else (manual_with_sep clean_date "/")
    (Re.or_else (manual_with_sep clean_date "-")
                (manual_with_sep clean_date ".")).

(** A number in at least [w] digits, padded with zeros on the left. *)
Definition zero_pad (w : nat) (n : Z) : text :=
  let ds := Str.digits_of (Z.to_N n) in
  repeat "0"%char (w - length ds) ++ ds.

(** What [strftime] writes for a directive: [%d] and [%m] in two digits,
    [%y] the year modulo 100 in two digits, [%Y] the year as the C library
    prints it (no padding), [%%] a percent sign. *)
Definition directive_text (c : ascii) (d : datetime) : option text :=
  if Ascii.eqb c "d" then Some (zero_pad 2 (day d))
  else if Ascii.eqb c "m" then Some (zero_pad 2 (month d))
  else if Ascii.eqb c "Y" then Some (zero_pad 1 (year d))
  else if Ascii.eqb c "y" then Some (zero_pad 2 (year d mod 100))
  else if Ascii.eqb c "%" then Some (T "%")
  else None.

(** [date_obj.strftime(format)]; [None] when the format holds a directive
    other than the five above. *)
Fixpoint strftime (d : datetime) (fmt : text) : option text :=
  match fmt with
  | [] => Some []
  | "%"%char :: rest =>
      match rest with
      | c :: rest' =>
          match directive_text c d, strftime d rest' with
          | Some t, Some ts => Some (t ++ ts)
          | _, _ => None
          end
      | [] => None
      end
  | c :: rest =>
      match strftime d rest with
      | Some ts => Some (c :: ts)
      | None => None
      end
  end.

(** Format datetime object to string.  [strftime] does not raise on the
    directives read here, so the [except] branch is not taken. *)
Definition format_date (date_obj : datetime) (format_str : string) : option text :=
  strftime date_obj (T format_str).

(** Detect the format of a date string *)
Fixpoint detect_in (pats : list (string * string)) (date_str : text)
  : option string :=
  match pats with
  | [] => None
  | (pat, format_str) :: rest =>
      if re_matches pat date_str then
        match strptime date_str format_str with
        | Some _ => Some format_str
        | None => detect_in rest date_str
        end
      else detect_in rest date_str
  end.
Definition detect_date_format (date_str : text) : option string :=
  detect_in date_patterns date_str.

(** Get all supported date formats *)
Definition get_all_date_formats : list string := map snd date_patterns.

Section External.
(** [dateutil.parser.parse(s, dayfirst=True)]; [None] when it raises. *)
Variable dateutil_parse : text -> option datetime.

Definition parse_date (date_str : option text) : option datetime :=
  match date_str with
  | None => None
  | Some [] => None
  | Some date_str =>
      let date_str := Str.strip date_str in
      (* Method 1: Try specific patterns first *)
      match try_patterns date_patterns date_str with
      | Some d => Some d
      | None =>
          (* Method 2: Try dateutil parser (more flexible) *)
          match dateutil_parse date_str with
          | Some d => Some d
          | None =>
              (* Method 3: Manual parsing for common variations *)
              _manual_date_parse date_str
          end
      end
  end.

(** Validate if string contains a valid date format *)
Definition validate_date_format (date_str : option text) : bool :=
  match parse_date date_str with Some _ => true | None => false end.
End External.

End DateParser.

(* ================================================================== *)
(** * Part X.  parser/transaction_parser.py                            *)
(* ================================================================== *)

(** The value under a transaction's ['date'] key: the parsed date, or the
    original string when parsing failed, or [None] when the group is. *)
Inductive date_cell :=
| DateObj (d : datetime)
| DateStr (s : text)
| DateNone.

Record transaction := {
  date : date_cell;
  date_original : option text;
  description : text;
  transaction_code : option text;
  amount : option Py.float64;
  amount_original : option text;
  type_ : text;
  narration : text;
  category : text;
  bank_type : text;
  original_match : list (option text)   (* the tuple; the source keeps its [str] *)
}.

Record stats := {
  total_lines_processed : nat;
  transactions_found : nat;
  bank_type_detected : option text;
  parsing_errors : nat
}.

Module TransactionParser.

Definition _reset_stats : stats :=
  {| total_lines_processed := 0;
     transactions_found := 0;
     bank_type_detected := None;
     parsing_errors := 0 |}.

Definition add_error (st : stats) : stats :=
  {| total_lines_processed := total_lines_processed st;
     transactions_found := transactions_found st;
     bank_type_detected := bank_type_detected st;
     parsing_errors := parsing_errors st + 1 |}.

Definition re_sub (pat : string) (repl s : text) : text :=
  match Re.compile Re.no_flags pat with
  | Some p => Re.sub p repl s
  | None => s
  end.

(** Clean and normalize transaction description *)
Definition _clean_description (description transaction_code : option text) : text :=
  match description with
  | None => []
  | Some [] => []
  | Some description =>
      (* Remove extra whitespace *)
      let description := re_sub "\s+" (T " ") (Str.strip description) in
      (* Remove transaction code from description if it's already separate *)
      let description :=
        match transaction_code with
        | Some (c :: cs) =>
            if Str.contains (c :: cs) description
            then Str.strip (Str.replace (c :: cs) [] description)
            else description
        | _ => description
        end in
      (* Clean common description patterns *)
      let description := re_sub "^\s*[-*]\s*" [] description in
      let description := re_sub "\s*[-*]\s*$" [] description in
      description
  end.

Definition any_keyword (keywords : list text) (description_lower : text) : bool :=
  existsb (fun keyword => Str.contains keyword description_lower) keywords.

Definition expense_keywords : Dict.dict (list text) :=
  [ (T "food", map T ["restaurant"; "cafe"; "food"; "snacks"; "meal"; "lunch"; "dinner"]%string);
    (T "transport", map T ["fuel"; "petrol"; "bus"; "train"; "taxi"; "uber"; "ola"]%string);
    (T "shopping", map T ["market"; "store"; "shop"; "purchase"; "buy"]%string);
    (T "utility", map T ["electricity"; "water"; "internet"; "mobile"; "bill"]%string) ].

Fixpoint first_expense (d : Dict.dict (list text)) (description_lower : text)
  : option text :=
  match d with
  | [] => None
  | (category, keywords) :: rest =>
      if any_keyword keywords description_lower then Some category
      else first_expense rest description_lower
  end.

(** Simple categorization based on description keywords *)
Definition _categorize_transaction (description transaction_type : text) : text :=
  let description_lower := Str.lower description in
  (* Income-related keywords *)
  if any_keyword (map T ["salary"; "interest"; "refund"; "donation"; "grant"]%string)
                 description_lower then T "income"
  (* Transfer keywords *)
  else if any_keyword (map T ["neft"; "imps"; "rtgs"; "upi"; "transfer"]%string)
                      description_lower then T "transfer"
  (* Cash withdrawal *)
  else if any_keyword (map T ["atm"; "cash"; "withdrawal"; "wdl"]%string)
                      description_lower then T "cash_withdrawal"
  else
    (* Expense categories *)
    match first_expense expense_keywords description_lower with
    | Some category => category
    | None =>
        (* Default based on transaction type *)
        if Str.eqb transaction_type (T "CR") then T "income" else T "expense"
    end.

(** Validate if a parsed transaction has required fields *)
Definition validate_transaction (t : transaction) : bool :=
  match date t with DateObj _ => true | DateStr (_ :: _) => true | _ => false end
  && match description t with [] => false | _ => true end
  && match amount t with
     | Some (Py.Finite a) => negb (Qeq_bool a 0) && negb (Py.is_neg a)
     | Some (Py.Infinity negative) => negb negative
     | Some Py.NaN => true     (* NaN is true, and [nan <= 0] is false *)
     | None => false
     end
  && (Str.eqb (type_ t) (T "CR") || Str.eqb (type_ t) (T "DR")).

Section Instance.
Variable compiled_patterns : Dict.dict (list Re.pattern).
Variable dateutil_parse : text -> option datetime.
(** pandas' conversion of a string of the date column to a timestamp under
    [errors='coerce', dayfirst=True]; [None] is [NaT].  The first argument
    is the whole column: the format pandas infers may depend on it. *)
Variable pd_to_datetime : list date_cell -> text -> option datetime.

(** Parse a single transaction match into structured data.  The result
    carries the statistics: an exception adds one parsing error and gives
    no transaction. *)
Definition _parse_transaction_match (st : stats) (m : RegexPatterns.groups)
    (bank : text) : option transaction * stats :=
  (* Handle different match lengths based on pattern *)
  let fields :=
    match m with
    | [date_str; description; amount_str; type_str] =>
        Some (date_str, Some [], description, amount_str, type_str, Some [])
    | [date_str; description; amount_str; type_str; narration] =>
        Some (date_str, Some [], description, amount_str, type_str, narration)
    | [date_str; transaction_code; description; amount_str; type_str; narration] =>
        Some (date_str, transaction_code, description, amount_str, type_str, narration)
    | _ => None   (* empty match or unknown pattern *)
    end in
  match fields with
  | None => (None, st)
  | Some (date_str, transaction_code, description, amount_str, type_str, narration) =>
      (* Parse date *)
      let date_obj := DateParser.parse_date dateutil_parse date_str in
      (* Parse amount *)
      let amount :=
        match amount_str with
        | Some a => AmountParser.parse_amount a
        | None => None
        end in
      (* Clean and normalize fields *)
      let description := _clean_description description transaction_code in
      match type_str, narration with
      | Some type_str, Some narration =>
          let type_str := Str.upper type_str in
          let narration := Str.strip narration in
          (* Determine transaction category based on description *)
          let category := _categorize_transaction description type_str in
          (Some {| date := match date_obj with
                           | Some d => DateObj d
                           | None =>
                               match date_str with
                               | Some s => DateStr s
                               | None => DateNone
                               end
                           end;
                   date_original := date_str;
                   description := description;
                   transaction_code := transaction_code;
                   amount := amount;
                   amount_original := amount_str;
                   type_ := type_str;
                   narration := narration;
                   category := category;
                   bank_type := bank;
                   original_match := m |},
           st)
      | _, _ =>
          (* [None.upper()] or [None.strip()] raises *)
          (None, add_error st)
      end
  end.

Fixpoint parse_matches (st : stats) (ms : list RegexPatterns.groups)
    (bank : text) : list transaction * stats :=
  match ms with
  | [] => ([], st)
  | m :: rest =>
      let '(t, st1) := _parse_transaction_match st m bank in
      let '(ts, st2) := parse_matches st1 rest bank in
      (match t with Some t => t :: ts | None => ts end, st2)
  end.

(** [pd.to_datetime(df['date'], errors='coerce', dayfirst=True)], cell by
    cell *)
Definition to_datetime (column : list date_cell) (c : date_cell)
  : option datetime :=
  match c with
  | DateObj d => Some d
  | DateStr s => pd_to_datetime column s
  | DateNone => None
  end.

Definition date_leb (a b : datetime) : bool :=
  ((year a <? year b) ||
   ((year a =? year b) &&
    ((month a <? month b) ||
     ((month a =? month b) && (day a <=? day b)))))%Z.

Fixpoint insert_row (x : datetime * transaction)
    (l : list (datetime * transaction)) : list (datetime * transaction) :=
  match l with
  | [] => [x]
  | y :: l' =>
      if date_leb (fst x) (fst y) then x :: l else y :: insert_row x l'
  end.

(** [df.sort_values('date_temp')]: ascending, the rows without a
    timestamp last. *)
Definition sort_values (keyed : list (option datetime * transaction))
  : list transaction :=
  let dated :=
    flat_map (fun kr => match fst kr with
                        | Some k => [(k, snd kr)]
                        | None => []
                        end) keyed in
  let undated :=
    flat_map (fun kr => match fst kr with
                        | Some _ => []
                        | None => [snd kr]
                        end) keyed in
  map snd (fold_right insert_row [] dated) ++ undated.

(** Sort transactions by date.  The conversion coerces every failure to
    [NaT], so the [except] branch of the source is not taken. *)
Definition _sort_transactions (df : list transaction) : list transaction :=
  let column := map date df in
  sort_values (map (fun r => (to_datetime column (date r), r)) df).

(** Parse text into structured transactions with automatic bank
    detection; returns the rows and [self.stats]. *)
Definition parse_transactions (txt : text) (bank : text)
  : list transaction * stats :=
  let st := _reset_stats in
  let lines := length (Str.split Re.newline txt) in
  (* Detect bank type if auto *)
  let '(bank, detected) :=
    if Str.eqb bank (T "auto")
    then let b := BankFormatDetector.detect_bank_format txt in (b, Some b)
    else (bank, None) in
  (* Find all transaction matches *)
  let transaction_matches :=
    RegexPatterns.find_all_transactions compiled_patterns txt bank in
  let st :=
    {| total_lines_processed := lines;
       transactions_found := length transaction_matches;
       bank_type_detected := detected;
       parsing_errors := parsing_errors st |} in
  (* Parse each transaction *)
  let '(transactions, st) := parse_matches st transaction_matches bank in
  (* Sort by date if we have dates *)
  (match transactions with
   | [] => []
   | _ :: _ => _sort_transactions transactions
   end, st).

(** Parse transactions from pre-extracted text blocks.  Every block is
    parsed by [parse_transactions], which resets [self.stats]; [st] is the
    value of [self.stats] before the call. *)
Fixpoint parse_transactions_from_blocks (st : stats) (text_blocks : list text)
    (bank : text) : list transaction * stats :=
  match text_blocks with
  | [] => ([], st)
  | block :: rest =>
      let '(transactions_df, st1) := parse_transactions block bank in
      let '(all_transactions, st2) :=
        parse_transactions_from_blocks st1 rest bank in
      (transactions_df ++ all_transactions, st2)
  end.
End Instance.

End TransactionParser.

(* ================================================================== *)
(** * Part XI.  categorizer/rule_engine.py                             *)
(* ================================================================== *)

(** The value of a category in [self.categories]; [priority] and
    [patterns] are read with [.get] and may be absent. *)
Record category_data := {
  cat_keywords : list text;
  account_name : text;
  cat_type : text;
  priority : option Z;
  patterns : option (list string)
}.

Module RuleEngine.

Definition mk (kws : list string) (acc typ : string) (prio : Z)
    (pats : option (list string)) : category_data :=
  {| cat_keywords := map T kws; account_name := T acc; cat_type := T typ;
     priority := Some prio; patterns := pats |}.

(** Default categories if config file is missing *)
Definition _get_default_categories : Dict.dict category_data :=
  [ (T "donation_income",
      mk ["donation"; "donated"; "contribution"; "charity"; "grant"; "gift"]%string
         "Donation Income" "income" 1
         (Some ["donation"; "contribution"; "charity"]%string));
    (T "salary_income",
      mk ["salary"; "payroll"; "wages"; "stipend"; "compensation"]%string
         "Salary Income" "income" 1 None);
    (T "food_expense",
      mk ["restaurant"; "cafe"; "food"; "snacks"; "samosa"; "meal"; "lunch"; "dinner"]%string
         "Food Expense" "expense" 2 None);
    (T "transport_expense",
      mk ["fuel"; "petrol"; "diesel"; "bus"; "train"; "metro"; "taxi"; "uber"; "ola"]%string
         "Transport Expense" "expense" 2 None);
    (T "cash_withdrawal",
      mk ["atm"; "cash"; "withdrawal"; "wdl"; "cash withdraw"]%string
         "Cash Account" "transfer" 1 None);
    (T "bank_transfer",
      mk ["neft"; "imps"; "rtgs"; "upi"; "transfer"]%string
         "Bank Transfer" "transfer" 1 None);
    (T "miscellaneous",
      mk [] "Miscellaneous" "expense" 99 None) ].

(** [re.search(r'\b' + re.escape(keyword) + r'\b', description)] *)
Definition whole_word (keyword description : text) : bool :=
  let p := {| Re.ast := Re.Seq Re.WordB (Re.Seq (Re.literal keyword) Re.WordB);
              Re.ngroups := 0;
              Re.pflags := Re.no_flags |} in
  match Re.search p description with
  | Some _ => true
  | None => false
  end.

Definition get_priority (d : category_data) : Z :=
  match priority d with Some n => n | None => 1%Z end.

(** The inner loop over the keywords of one category. *)
Definition keyword_hit (d : category_data) (description : text) : bool :=
  existsb (fun keyword => whole_word keyword description) (cat_keywords d).

(** [list.sort(key=lambda x: x[1])]: a stable sort on the priority. *)
Fixpoint insert_by_priority (x : text * Z) (l : list (text * Z)) : list (text * Z) :=
  match l with
  | [] => [x]
  | y :: l' =>
      if (snd x <=? snd y)%Z then x :: l else y :: insert_by_priority x l'
  end.
Definition sort_by_priority (l : list (text * Z)) : list (text * Z) :=
  fold_right insert_by_priority [] l.

Section Instance.
(** [self.categories], in the order of the configuration *)
Variable categories : Dict.dict category_data.

Definition matched_categories (description : text) : list (text * Z) :=
  flat_map
    (fun c => if keyword_hit (snd c) description
              then [(fst c, get_priority (snd c))]
              else [])
    categories.

(** Match using exact keywords with priority handling *)
Definition _exact_keyword_match (description : text) : option text :=
  match sort_by_priority (matched_categories description) with
  | [] => None
  | m :: _ => Some (fst m)   (* Return highest priority match *)
  end.

Definition re_search_ic (pat : string) (s : text) : bool :=
  match Re.compile {| Re.ignorecase := true; Re.multiline := false |} pat with
  | Some p => match Re.search p s with Some _ => true | None => false end
  | None => false
  end.

(** Match using regex patterns *)
Fixpoint pattern_scan (cats : Dict.dict category_data) (description : text)
  : option text :=
  match cats with
  | [] => None
  | (category_name, d) :: rest =>
      if existsb (fun pat => re_search_ic pat description)
                 (match patterns d with Some ps => ps | None => [] end)
      then Some category_name
      else pattern_scan rest description
  end.
Definition _pattern_match (description : text) : option text :=
  pattern_scan categories description.

Definition any_in (indicators : list string) (description : text) : bool :=
  existsb (fun i => Str.contains (T i) description) indicators.

(** Use amount-based heuristics for categorization *)
Definition _amount_based_heuristics (description : text) (amount : Q)
    (transaction_type : text) : option text :=
  let rounded_amount := Py.round_half_even amount in
  (* Common ATM withdrawal amounts *)
  let atm_amounts := [500; 1000; 2000; 5000; 10000; 20000]%Z in
  if Str.contains (T "atm") description
     && existsb (Z.eqb rounded_amount) atm_amounts
  then Some (T "cash_withdrawal")
  (* Common food expense patterns *)
  else if Str.eqb transaction_type (T "DR")
          && negb (Qle_bool 1000 amount)
          && any_in ["cafe"; "restaurant"; "food"; "meal"; "snack"]%string description
  then Some (T "food_expense")
  (* Common transport amounts *)
  else if Str.eqb transaction_type (T "DR")
          && Qle_bool amount 500
          && any_in ["fuel"; "petrol"; "bus"; "taxi"; "uber"]%string description
  then Some (T "transport_expense")
  else None.

(** Get default category based on transaction type *)
Definition _get_default_category (transaction_type : text) : text :=
  if Str.eqb transaction_type (T "CR")
  then T "donation_income"    (* Default for credits *)
  else T "miscellaneous".     (* Default for debits *)

(** The TF-IDF similarity stage (scikit-learn), consulted only with
    [use_ai]. *)
Variable _similarity_match : text -> option text.

Definition categorize_transaction (description : text) (amount : Q)
    (transaction_type : text) (use_ai : bool) : text :=
  let description_lower := Str.lower description in
  (* Method 1: Exact keyword matching (highest priority) *)
  match Py.truthy (_exact_keyword_match description_lower) with
  | Some exact_match => exact_match
  | None =>
      (* Method 2: Pattern matching with regex *)
      match Py.truthy (_pattern_match description_lower) with
      | Some pattern_match => pattern_match
      | None =>
          (* Method 3: TF-IDF similarity matching *)
          match Py.truthy (if use_ai then _similarity_match description_lower
                           else None) with
          | Some similarity_match => similarity_match
          | None =>
              (* Method 4: Amount-based heuristics *)
              match Py.truthy (_amount_based_heuristics description_lower amount
                                 transaction_type) with
              | Some amount_match => amount_match
              | None =>
                  (* Method 5: Default based on transaction type *)
                  _get_default_category transaction_type
              end
          end
      end
  end.

(** Calculate confidence score for categorization *)
Definition _calculate_confidence (description category : text) : Q :=
  let description_lower := Str.lower description in
  let keywords :=
    match Dict.get category categories with
    | Some d => cat_keywords d
    | None => []
    end in
  (* Check for exact keyword matches *)
  if existsb (fun keyword => whole_word keyword description_lower) keywords
  then (9 # 10)%Q
  (* Check for partial matches *)
  else if existsb (fun keyword => Str.contains keyword description_lower) keywords
  then (7 # 10)%Q
  (* Low confidence for default categories *)
  else if Str.eqb category (T "miscellaneous") || Str.eqb category (T "donation_income")
  then (3 # 10)%Q
  else (5 # 10)%Q.

(** Get detailed information about a category; [None] is the empty dict. *)
Definition get_category_details (category_name : text) : option category_data :=
  Dict.get category_name categories.

(** Get accounting account name for category *)
Definition get_account_name (category : text) : text :=
  match Dict.get category categories with
  | Some d => account_name d
  | None => T "Miscellaneous Account"
  end.

(** Get category type (income, expense, transfer, asset, liability) *)
Definition get_category_type (category : text) : text :=
  match Dict.get category categories with
  | Some d => cat_type d
  | None => T "expense"
  end.

End Instance.

End RuleEngine.

(* ================================================================== *)
(** * Part XII.  journal/entry_generator.py                            *)
(* ================================================================== *)

(** A [{'debit': ..., 'credit': ...}] value of the account mapping. *)
Record account_pair := { debit : option text; credit : option text }.

Record account_mapping_t := {
  account_types : Dict.dict account_pair;
  specific_accounts : Dict.dict (text * text)
}.

Record accounting_rules_t := {
  currency_symbol : text;
  narration_style : text
}.

(** The transaction dictionary [generate_journal_entry] reads with [.get]:
    [None] is a key the dictionary does not have.  The amount, when there
    is one, is a finite number. *)
Record txn_dict := {
  t_date : option date_cell;
  t_description : option text;
  t_amount : option Q;
  t_type : option text;
  t_category : option text
}.

Record journal_entry := {
  je_date : date_cell;
  debit_account : text;
  debit_amount : text;
  credit_account : text;
  credit_amount : text;
  je_narration : text;
  je_type : text;
  transaction_type : text;
  je_category : text;
  debit_entry : text;
  credit_entry : text;
  full_entry : text
}.

Module JournalEntryGenerator.

Definition pair (d c : string) : account_pair :=
  {| debit := Some (T d); credit := Some (T c) |}.

(** Get default account mapping *)
Definition _get_default_account_mapping : account_mapping_t :=
  {| account_types :=
       [ (T "income", pair "Bank Account" "To {account_name}");
         (T "expense", pair "{account_name}" "To Bank Account");
         (T "transfer", pair "{account_name}" "To Bank Account");
         (T "asset", pair "{account_name}" "To Bank Account");
         (T "liability", pair "{account_name}" "To Bank Account") ];
     specific_accounts :=
       [ (T "cash_withdrawal", (T "Cash Account", T "To Bank Account"));
         (T "bank_transfer", (T "Bank Transfer", T "To Bank Account"));
         (T "donation_income", (T "Bank Account", T "To Donation Income"));
         (T "salary_income", (T "Bank Account", T "To Salary Income"));
         (T "food_expense", (T "Food Expense", T "To Bank Account"));
         (T "transport_expense", (T "Transport Expense", T "To Bank Account")) ] |}.

(** The rupee sign, U+20B9, in UTF-8. *)
Definition rupee : text := map ascii_of_nat [226; 130; 185].

(** Get default accounting rules *)
Definition _get_default_accounting_rules : accounting_rules_t :=
  {| currency_symbol := rupee; narration_style := T "detailed" |}.

(** [template.format(account_name=name)] *)
Definition format_account_name (template name : text) : text :=
  Str.replace (T "{account_name}") name template.

(** Determine category type based on category name *)
Definition _get_category_type (category : text) : text :=
  let category_lower := Str.lower category in
  if existsb (fun i => Str.contains (T i) category_lower)
             ["income"; "salary"; "donation"; "interest"; "refund"]%string
  then T "income"
  else if existsb (fun i => Str.contains (T i) category_lower)
                  ["transfer"; "withdrawal"; "cash"]%string
  then T "transfer"
  else T "expense".

(** Parse amount string to float *)
Definition _parse_amount (amount_str : text) : Q :=
  (* Remove currency symbol and commas *)
  let clean_amount := Str.replace (T ",") [] (Str.replace rupee [] amount_str) in
  match Py.float clean_amount with
  | Some a => a
  | None => 0%Q
  end.

Section Instance.
Variable account_mapping : account_mapping_t.
Variable accounting_rules : accounting_rules_t.

(** Get debit and credit account names based on category and
    transaction type *)
Definition _get_account_names (category txn_type : text) : text * text :=
  (* Check specific account mappings first *)
  match Dict.get category (specific_accounts account_mapping) with
  | Some mapping => mapping
  | None =>
      (* Get category type (income, expense, transfer, etc.) *)
      let category_type := _get_category_type category in
      (* Get account type template *)
      let account_templates :=
        match Dict.get category_type (account_types account_mapping) with
        | Some p => p
        | None => {| debit := None; credit := None |}
        end in
      if Str.eqb txn_type (T "CR") then  (* Money coming in *)
        (match debit account_templates with
         | Some d => d
         | None => T "Bank Account"
         end,
         format_account_name
           (match credit account_templates with
            | Some c => c
            | None => T "To {account_name}"
            end)
           (Str.title category))
      else  (* Money going out *)
        (format_account_name
           (match debit account_templates with
            | Some d => d
            | None => T "{account_name}"
            end)
           (Str.title category),
         match credit account_templates with
         | Some c => c
         | None => T "To Bank Account"
         end)
  end.

(** Format amount with currency symbol *)
Definition _format_amount (amount : Q) : text :=
  currency_symbol accounting_rules ++ Py.format_comma_2f amount.

(** Generate narration for journal entry *)
Definition _generate_narration (description : text) (amount : Q)
    (txn_type : text) : text :=
  let style := narration_style accounting_rules in
  let formatted_amount :=
    currency_symbol accounting_rules ++ Py.format_comma_2f amount in
  if Str.eqb style (T "minimal") then description
  else if Str.eqb style (T "brief")
  then description ++ T " - " ++ formatted_amount
  else  (* detailed *)
    let txn_type_desc :=
      if Str.eqb txn_type (T "CR") then T "Received" else T "Paid" in
    txn_type_desc ++ T " for " ++ description ++ T " - Amount: " ++ formatted_amount.

(** Generate double-entry accounting journal entry *)
Definition generate_journal_entry (transaction : txn_dict) (category : text)
  : journal_entry :=
  let date := match t_date transaction with Some d => d | None => DateStr [] end in
  let description :=
    match t_description transaction with Some d => d | None => [] end in
  let amount := match t_amount transaction with Some a => a | None => 0%Q end in
  let txn_type :=
    Str.upper (match t_type transaction with Some t => t | None => T "DR" end) in
  (* Format amount *)
  let formatted_amount := _format_amount amount in
  (* Get account names based on category and transaction type *)
  let '(debit_account, credit_account) := _get_account_names category txn_type in
  (* Generate narration *)
  let narration := _generate_narration description amount txn_type in
  (* Create journal entry *)
  if Str.eqb txn_type (T "CR") then  (* Credit to bank (money coming in) *)
    {| je_date := date;
       debit_account := debit_account;
       debit_amount := formatted_amount;
       credit_account := credit_account;
       credit_amount := formatted_amount;
       je_narration := narration;
       je_type := T "credit";
       transaction_type := txn_type;
       je_category := category;
       debit_entry := debit_account ++ T " Dr " ++ formatted_amount;
       credit_entry := T "To " ++ credit_account ++ T " " ++ formatted_amount;
       full_entry :=
         debit_account ++ T " Dr " ++ formatted_amount ++ [Re.newline]
           ++ T "To " ++ credit_account ++ T " " ++ formatted_amount |}
  else  (* Debit from bank (money going out) *)
    {| je_date := date;
       debit_account := debit_account;
       debit_amount := formatted_amount;
       credit_account := credit_account;
       credit_amount := formatted_amount;
       je_narration := narration;
       je_type := T "debit";
       transaction_type := txn_type;
       je_category := category;
       debit_entry := debit_account ++ T " Dr " ++ formatted_amount;
       credit_entry := T "To " ++ credit_account ++ T " " ++ formatted_amount;
       full_entry :=
         debit_account ++ T " Dr " ++ formatted_amount ++ [Re.newline]
           ++ T "To " ++ credit_account ++ T " " ++ formatted_amount |}.

(** Generate journal entries for all transactions *)
Definition generate_all_entries (transactions : list txn_dict)
  : list journal_entry :=
  map (fun transaction =>
         let category :=
           match t_category transaction with
           | Some c => c
           | None => T "miscellaneous"
           end in
         generate_journal_entry transaction category)
      transactions.
End Instance.

(** The running totals of [validate_accounting_equation]. *)
Definition totals (journal_entries : list journal_entry) : Q * Q :=
  fold_left
    (fun acc entry =>
       (fst acc + _parse_amount (debit_amount entry),
        snd acc + _parse_amount (credit_amount entry))%Q)
    journal_entries (0%Q, 0%Q).

(** Validate that total debits equal total credits *)
Definition validate_accounting_equation (journal_entries : list journal_entry)
  : bool :=
  let '(total_debits, total_credits) := totals journal_entries in
  (* Allow for small rounding differences *)
  negb (Qle_bool (1 # 100) (Qabs (total_debits - total_credits))).

(** [ledger.get(account, 0)] *)
Definition balance_of (account : text) (ledger : Dict.dict Q) : Q :=
  match Dict.get account ledger with
  | Some b => b
  | None => 0%Q
  end.

(** Generate ledger account summary from journal entries *)
Definition generate_ledger_summary (journal_entries : list journal_entry)
  : Dict.dict Q :=
  fold_left
    (fun ledger entry =>
       (* Process debit side *)
       let debit_account := debit_account entry in
       let debit_amount := _parse_amount (debit_amount entry) in
       let ledger :=
         Dict.set debit_account
           (balance_of debit_account ledger + debit_amount)%Q ledger in
       (* Process credit side *)
       let credit_account := credit_account entry in
       let credit_amount := _parse_amount (credit_amount entry) in
       Dict.set credit_account
         (balance_of credit_account ledger - credit_amount)%Q ledger)
    journal_entries [].

Record accounting_summary := {
  total_entries : nat;
  total_debits : Q;
  total_credits : Q;
  accounting_equation_balanced : bool;
  unique_accounts : nat
}.

(** Get accounting summary statistics *)
Definition get_accounting_summary (journal_entries : list journal_entry)
  : accounting_summary :=
  let '(total_debits, total_credits) := totals journal_entries in
  {| total_entries := length journal_entries;
     total_debits := total_debits;
     total_credits := total_credits;
     accounting_equation_balanced := validate_accounting_equation journal_entries;
     unique_accounts := length (generate_ledger_summary journal_entries) |}.

End JournalEntryGenerator.

(* ================================================================== *)
(** * Part XIII.  journal/ledger_manager.py                            *)
(* ================================================================== *)

Record posting := {
  p_date : date_cell;
  particulars : text;
  p_debit : Q;
  p_credit : Q;
  p_narration : text;
  p_type : text
}.

Module LedgerManager.

(** [self.ledger_accounts] *)
Definition ledger := Dict.dict (list posting).

(** The seven bytes the source file holds between the quotes of the
    currency symbol it strips. *)
Definition stripped_symbol : text :=
  map ascii_of_nat [195; 162; 226; 128; 154; 194; 185].

(** Parse amount string to float *)
Definition _parse_amount (amount_str : text) : Q :=
  let clean_amount :=
    Str.replace (T ",") [] (Str.replace stripped_symbol [] amount_str) in
  match Py.float clean_amount with
  | Some a => a
  | None => 0%Q
  end.

(** [if account not in ledger: ledger[account] = []] followed by
    [ledger[account].append(p)] *)
Definition append_posting (account : text) (p : posting) (l : ledger) : ledger :=
  let l := if Dict.mem account l then l else Dict.set account [] l in
  match Dict.get account l with
  | Some ps => Dict.set account (ps ++ [p]) l
  | None => l
  end.

(** Process a single journal entry into ledger accounts *)
Definition _process_journal_entry (l : ledger) (entry : journal_entry) : ledger :=
  let date := je_date entry in
  let debit_account := debit_account entry in
  let credit_account := credit_account entry in
  let amount := _parse_amount (debit_amount entry) in
  let narration := je_narration entry in
  (* Process debit account *)
  let l :=
    append_posting debit_account
      {| p_date := date;
         particulars := T "To " ++ credit_account;
         p_debit := amount;
         p_credit := 0;
         p_narration := narration;
         p_type := T "debit" |} l in
  (* Process credit account *)
  append_posting credit_account
    {| p_date := date;
       particulars := T "By " ++ debit_account;
       p_debit := 0;
       p_credit := amount;
       p_narration := narration;
       p_type := T "credit" |} l.

(** Update ledger accounts from journal entries *)
Definition update_ledger (l : ledger) (journal_entries : list journal_entry)
  : ledger :=
  fold_left _process_journal_entry journal_entries l.

(** The sums [get_trial_balance] takes per account, over all accounts. *)
Definition sum_debit (ps : list posting) : Q :=
  fold_right (fun p acc => (p_debit p + acc)%Q) 0%Q ps.
Definition sum_credit (ps : list posting) : Q :=
  fold_right (fun p acc => (p_credit p + acc)%Q) 0%Q ps.
Definition total_debits (l : ledger) : Q :=
  fold_right (fun a acc => (sum_debit (snd a) + acc)%Q) 0%Q l.
Definition total_credits (l : ledger) : Q :=
  fold_right (fun a acc => (sum_credit (snd a) + acc)%Q) 0%Q l.
Definition count_postings (l : ledger) : nat :=
  fold_right (fun a acc => length (snd a) + acc) 0 l.

(** [trial_balance_balanced] of [get_financial_summary] *)
Definition trial_balance_balanced (l : ledger) : bool :=
  negb (Qle_bool (1 # 100) (Qabs (total_debits l - total_credits l))).

(** [self.opening_balances] *)
Definition opening_balances := Dict.dict Q.

(** Set opening balance for an account *)
Definition set_opening_balance (ob : opening_balances) (account_name : text)
    (balance : Q) : opening_balances :=
  Dict.set account_name balance ob.

(** The loop of [_get_single_ledger]: every row with its running balance. *)
Fixpoint running_balance (opening_balance : Q) (entries : list posting)
  : list (posting * Q) :=
  match entries with
  | [] => []
  | row :: rest =>
      let balance_change := (p_debit row - p_credit row)%Q in
      let balance := (opening_balance + balance_change)%Q in
      (row, balance) :: running_balance balance rest
  end.

(** Get ledger for a single account: the rows with their ['balance']
    column; the empty frame for an unknown account.  The balances are
    taken as numbers: the type pandas gives the column is not modelled. *)
Definition _get_single_ledger (l : ledger) (ob : opening_balances)
    (account_name : text) : list (posting * Q) :=
  match Dict.get account_name l with
  | None => []
  | Some entries =>
      (* Calculate running balance *)
      let opening_balance :=
        match Dict.get account_name ob with
        | Some b => b
        | None => 0%Q
        end in
      running_balance opening_balance entries
  end.

(** Get consolidated ledger for all accounts: the rows of every account,
    with its name in the ['account'] column. *)
Definition _get_all_ledgers (l : ledger) (ob : opening_balances)
  : list (text * (posting * Q)) :=
  flat_map
    (fun a => map (fun r => (fst a, r)) (_get_single_ledger l ob (fst a)))
    l.

(** Get ledger report for specific account or all accounts: a missing or
    empty account name asks for all of them.  The rows of a single account
    carry no ['account'] column. *)
Definition get_ledger_report (l : ledger) (ob : opening_balances)
    (account_name : option text) : list (option text * (posting * Q)) :=
  match account_name with
  | Some (c :: n) =>
      map (fun r => (None, r)) (_get_single_ledger l ob (c :: n))
  | _ => map (fun ar => (Some (fst ar), snd ar)) (_get_all_ledgers l ob)
  end.

Record trial_balance_row := {
  tb_account : text;
  debit_total : Q;
  credit_total : Q;
  closing_balance : Q;
  balance_type : text
}.

(** Generate trial balance from ledger accounts: one row for every account
    whose ledger is not empty. *)
Definition get_trial_balance (l : ledger) (ob : opening_balances)
  : list trial_balance_row :=
  flat_map
    (fun a =>
       let account_name := fst a in
       let ledger_df := _get_single_ledger l ob account_name in
       match ledger_df with
       | [] => []
       | first :: _ =>
           let total_debit := sum_debit (map fst ledger_df) in
           let total_credit := sum_credit (map fst ledger_df) in
           let closing_balance := snd (last ledger_df first) in
           [ {| tb_account := account_name;
                debit_total := total_debit;
                credit_total := total_credit;
                closing_balance := closing_balance;
                balance_type :=
                  if negb (Qle_bool closing_balance 0)
                  then T "Debit" else T "Credit" |} ]
       end)
    l.

Record financial_summary := {
  fs_total_transactions : nat;
  fs_total_debits : Q;
  fs_total_credits : Q;
  fs_total_income : Q;
  fs_total_expenses : Q;
  fs_net_profit : Q;
  fs_accounts_count : nat;
  fs_trial_balance_balanced : bool
}.

(** [column.sum()] *)
Definition qsum (l : list Q) : Q := fold_right Qplus 0%Q l.

(** Get financial summary from ledger; [None] is the empty dict. *)
Definition get_financial_summary (l : ledger) (ob : opening_balances)
  : option financial_summary :=
  let trial_balance := get_trial_balance l ob in
  match trial_balance with
  | [] => None
  | _ :: _ =>
      let total_debits := qsum (map debit_total trial_balance) in
      let total_credits := qsum (map credit_total trial_balance) in
      (* Categorize accounts *)
      let income_accounts :=
        filter (fun acc => Str.contains (T "income") (Str.lower acc))
               (map tb_account trial_balance) in
      let expense_accounts :=
        filter (fun acc => Str.contains (T "expense") (Str.lower acc))
               (map tb_account trial_balance) in
      let isin (accounts : list text) (r : trial_balance_row) :=
        existsb (Str.eqb (tb_account r)) accounts in
      let total_income :=
        qsum (map credit_total (filter (isin income_accounts) trial_balance)) in
      let total_expenses :=
        qsum (map debit_total (filter (isin expense_accounts) trial_balance)) in
      let net_profit := (total_income - total_expenses)%Q in
      Some {| fs_total_transactions := length trial_balance;
              fs_total_debits := total_debits;
              fs_total_credits := total_credits;
              fs_total_income := total_income;
              fs_total_expenses := total_expenses;
              fs_net_profit := net_profit;
              fs_accounts_count := length l;
              fs_trial_balance_balanced :=
                negb (Qle_bool (1 # 100)
                               (Qabs (total_debits - total_credits))) |}
  end.

End LedgerManager.

(* ================================================================== *)
(** * Part XIV.  Verification                                          *)
(* ================================================================== *)

(** ** Strings and dictionaries *)

Unset Implicit Arguments.

Lemma str_eqb_refl (a : text) : Str.eqb a a = true.
Proof.
  induction a as [|c a IH]; simpl; [reflexivity|].
  now rewrite Ascii.eqb_refl.
Qed.

Lemma str_eqb_eq (a b : text) : Str.eqb a b = true <-> a = b.
Proof.
  split.
  - revert b; induction a as [|x a IH]; intros [|y b] H; simpl in H;
      try discriminate; [reflexivity|].
    apply andb_prop in H as [Hc Hr].
    apply Ascii.eqb_eq in Hc. subst. f_equal. now apply IH.
  - intros ->. apply str_eqb_refl.
Qed.

Lemma str_eqb_neq (a b : text) : Str.eqb a b = false <-> a <> b.
Proof.
  split.
  - intros H E. apply str_eqb_eq in E. congruence.
  - intros H. destruct (Str.eqb a b) eqn:E; [|reflexivity].
    apply str_eqb_eq in E. contradiction.
Qed.

Section DictFacts.
Variable V : Type.
Implicit Types (d : Dict.dict V) (k : text) (v : V).

Lemma get_set_same k v d : Dict.get k (Dict.set k v d) = Some v.
Proof.
  induction d as [|[k' v'] d IH]; simpl.
  - now rewrite str_eqb_refl.
  - destruct (Str.eqb k k') eqn:E; simpl; rewrite E; [reflexivity|exact IH].
Qed.

Lemma get_set_other k k' v d :
  k <> k' -> Dict.get k (Dict.set k' v d) = Dict.get k d.
Proof.
  intros N. induction d as [|[k2 v2] d IH]; simpl.
  - apply str_eqb_neq in N. now rewrite N.
  - destruct (Str.eqb k' k2) eqn:E; simpl.
    + apply str_eqb_eq in E. subst k2.
      apply str_eqb_neq in N. now rewrite N.
    + destruct (Str.eqb k k2); [reflexivity|exact IH].
Qed.

Lemma mem_set k v d : Dict.mem k (Dict.set k v d) = true.
Proof. unfold Dict.mem. now rewrite get_set_same. Qed.
End DictFacts.

(** ** Short lines (regex_patterns.py) *)

Lemma find_all_short_lines cp (txt bank : text) :
  Forall (fun line => length (Str.strip line) < 10) (Str.split Re.newline txt) ->
  RegexPatterns.find_all_transactions cp txt bank = [].
Proof.
  unfold RegexPatterns.find_all_transactions.
  induction (Str.split Re.newline txt) as [|line ls IH]; intros H; simpl.
  - reflexivity.
  - inversion H as [|? ? Hl Hls]; subst.
    rewrite (IH Hls), app_nil_r.
    unfold RegexPatterns.match_transaction.
    destruct (Str.strip line) as [|c s]; [reflexivity|].
    apply Nat.ltb_lt in Hl. now rewrite Hl.
Qed.

(** C10.  A line whose stripped form is empty or shorter than ten
    characters is matched by no pattern, whatever the pattern table and the
    bank type; a text made of such lines yields no transaction, whatever the
    lines contain. *)
Theorem short_line_never_matches :
  forall (cp : Dict.dict (list Re.pattern)) (line bank : text),
    length (Str.strip line) < 10 ->
    RegexPatterns.match_transaction cp line bank = None /\
    (forall dateutil pd (txt : text),
        Forall (fun l => length (Str.strip l) < 10) (Str.split Re.newline txt) ->
        fst (TransactionParser.parse_transactions cp dateutil pd txt bank) = []).
Proof.
  intros cp line bank Hlen. split.
  - unfold RegexPatterns.match_transaction.
    destruct (Str.strip line) as [|c s]; [reflexivity|].
    apply Nat.ltb_lt in Hlen. now rewrite Hlen.
  - intros du pd txt Hall.
    unfold TransactionParser.parse_transactions.
    destruct (Str.eqb bank (T "auto"));
      rewrite find_all_short_lines by exact Hall; reflexivity.
Qed.

Lemma short_line_never_matches_witness :
  length (Str.strip (T "  12/3 x CR ")) < 10 /\
  RegexPatterns.match_transaction RegexPatterns.default_compiled
    (T "  12/3 x CR ") (T "hdfc") = None.
Proof.
  assert (H : length (Str.strip (T "  12/3 x CR ")) < 10) by (vm_compute; lia).
  split; [exact H|].
  exact (proj1 (short_line_never_matches RegexPatterns.default_compiled
                  (T "  12/3 x CR ") (T "hdfc") H)).
Defined.

(** ** The double-entry law of generated entries (entry_generator.py) *)

Lemma entry_sides am ar (transaction : txn_dict) (category : text) :
  let e := JournalEntryGenerator.generate_journal_entry am ar transaction category in
  debit_amount e = credit_amount e /\
  debit_amount e =
    JournalEntryGenerator._format_amount ar
      (match t_amount transaction with Some a => a | None => 0%Q end).
Proof.
  unfold JournalEntryGenerator.generate_journal_entry.
  destruct (JournalEntryGenerator._get_account_names am category _) as [da ca].
  destruct (Str.eqb _ (T "CR")); simpl; split; reflexivity.
Qed.

(** C1.  Whatever the transaction, its type, its category, the account
    mapping and the accounting rules, the generated entry carries the same
    amount on both sides: [debit_amount] and [credit_amount] are one and the
    same string, the formatted transaction amount. *)
Theorem generated_entry_balanced :
  forall am ar (transaction : txn_dict) (category : text),
    let e := JournalEntryGenerator.generate_journal_entry am ar transaction category in
    debit_amount e = credit_amount e /\
    debit_amount e =
      JournalEntryGenerator._format_amount ar
        (match t_amount transaction with Some a => a | None => 0%Q end) /\
    credit_amount e =
      JournalEntryGenerator._format_amount ar
        (match t_amount transaction with Some a => a | None => 0%Q end).
Proof.
  intros am ar t c e.
  destruct (entry_sides am ar t c) as [E1 E2]. fold e in E1, E2.
  repeat split; try assumption.
  now rewrite <- E1.
Qed.

(** The amount [generate_journal_entry] reads from a transaction: 0 is
    the default of [transaction.get('amount', 0)]. *)
Definition amount_read (transaction : txn_dict) : Q :=
  match t_amount transaction with Some a => a | None => 0%Q end.

(** The sum of the absolute amounts of the transactions. *)
Definition total_magnitude (transactions : list txn_dict) : Q :=
  fold_right (fun t acc => (Qabs (amount_read t) + acc)%Q) 0%Q transactions.

(** A bound well inside the range of a double: below it, the totals of
    the amounts are finite numbers. *)
Definition moderate_total : Q := (Zpos (Py.pow10 300) # 1)%Q.

(** The accounting equation holds for the entries generated, under the
    default accounting rules, from transactions whose amounts are finite
    numbers of a moderate total: [validate_accounting_equation] accepts
    them.  (It does not when an amount is NaN, which no such total
    bounds.) *)
Theorem generated_entries_validate :
  forall am (transactions : list txn_dict),
    (total_magnitude transactions < moderate_total)%Q ->
    JournalEntryGenerator.validate_accounting_equation
      (JournalEntryGenerator.generate_all_entries am
         JournalEntryGenerator._get_default_accounting_rules transactions) = true.
Proof.
  intros am ts _.
  set (ar := JournalEntryGenerator._get_default_accounting_rules).
  unfold JournalEntryGenerator.validate_accounting_equation,
    JournalEntryGenerator.totals.
  assert (G : forall l acc,
             Forall (fun e => debit_amount e = credit_amount e) l ->
             (fst acc == snd acc)%Q ->
             (fst (fold_left
                     (fun acc entry =>
                        (fst acc + JournalEntryGenerator._parse_amount (debit_amount entry),
                         snd acc + JournalEntryGenerator._parse_amount (credit_amount entry))%Q)
                     l acc)
              == snd (fold_left
                        (fun acc entry =>
                           (fst acc + JournalEntryGenerator._parse_amount (debit_amount entry),
                            snd acc + JournalEntryGenerator._parse_amount (credit_amount entry))%Q)
                        l acc))%Q).
  { induction l as [|e l IH]; intros acc F H; simpl; [exact H|].
    inversion F as [|? ? Fe Fl]; subst. apply IH; [exact Fl|].
    simpl. rewrite Fe, H. reflexivity. }
  assert (F : Forall (fun e => debit_amount e = credit_amount e)
                (JournalEntryGenerator.generate_all_entries am ar ts)).
  { unfold JournalEntryGenerator.generate_all_entries.
    apply Forall_map, Forall_forall. intros t _. apply entry_sides. }
  specialize (G _ (0%Q, 0%Q) F (Qeq_refl _)).
  destruct (fold_left _ _ _) as [d c]. simpl in G.
  apply negb_true_iff. destruct (Qle_bool _ _) eqn:B; [|reflexivity].
  apply Qle_bool_iff in B.
  assert (Z : (d - c == 0)%Q) by (rewrite G; ring).
  rewrite Z in B. unfold Qle in B. simpl in B. lia.
Qed.

Lemma generated_entries_validate_witness :
  JournalEntryGenerator.validate_accounting_equation
    (JournalEntryGenerator.generate_all_entries
       JournalEntryGenerator._get_default_account_mapping
       JournalEntryGenerator._get_default_accounting_rules
       [ {| t_date := None; t_description := Some (T "NEFT from John Doe");
            t_amount := Some (500000 # 100)%Q; t_type := Some (T "CR");
            t_category := Some (T "donation_income") |};
         {| t_date := None; t_description := Some (T "ATM withdrawal");
            t_amount := Some (12050 # 100)%Q; t_type := Some (T "DR");
            t_category := None |} ]) = true.
Proof.
  apply generated_entries_validate. vm_compute. reflexivity.
Defined.

(** ** Posting into the ledger (ledger_manager.py) *)

Section SetFacts.
Variable V : Type.
Implicit Types (d : Dict.dict V) (k : text) (v : V).

Lemma set_set k v v' d : Dict.set k v (Dict.set k v' d) = Dict.set k v d.
Proof.
  induction d as [|[k2 v2] d IH]; simpl.
  - now rewrite str_eqb_refl.
  - destruct (Str.eqb k k2) eqn:E; simpl; rewrite E; [reflexivity|].
    now rewrite IH.
Qed.

Lemma mem_get k d :
  Dict.mem k d = match Dict.get k d with Some _ => true | None => false end.
Proof. reflexivity. Qed.
End SetFacts.

(** An entry that differs from [e] in its [credit_amount] only. *)
Definition with_credit_amount (ca : text) (e : journal_entry) : journal_entry :=
  {| je_date := je_date e;
     debit_account := debit_account e;
     debit_amount := debit_amount e;
     credit_account := credit_account e;
     credit_amount := ca;
     je_narration := je_narration e;
     je_type := je_type e;
     transaction_type := transaction_type e;
     je_category := je_category e;
     debit_entry := debit_entry e;
     credit_entry := credit_entry e;
     full_entry := full_entry e |}.

Module LedgerFacts.
Import LedgerManager.

Definition old (l : ledger) (k : text) : list posting :=
  match Dict.get k l with Some ps => ps | None => [] end.

Lemma append_posting_unfold k p l :
  append_posting k p l = Dict.set k (old l k ++ [p]) l.
Proof.
  unfold append_posting, old. rewrite mem_get.
  destruct (Dict.get k l) as [ps|] eqn:G.
  - now rewrite G.
  - rewrite get_set_same. simpl. apply set_set.
Qed.

Lemma get_append_same k p l :
  Dict.get k (append_posting k p l) = Some (old l k ++ [p]).
Proof. rewrite append_posting_unfold. apply get_set_same. Qed.

Lemma get_append_other k k' p l :
  k <> k' -> Dict.get k (append_posting k' p l) = Dict.get k l.
Proof. intros N. rewrite append_posting_unfold. now apply get_set_other. Qed.

Lemma count_set k v l :
  count_postings (Dict.set k v l) + length (old l k) = count_postings l + length v.
Proof.
  unfold old. induction l as [|[k2 v2] l IH]; simpl.
  - lia.
  - destruct (Str.eqb k k2) eqn:E; simpl; lia.
Qed.

Lemma count_append k p l :
  count_postings (append_posting k p l) = S (count_postings l).
Proof.
  rewrite append_posting_unfold.
  pose proof (count_set k (old l k ++ [p]) l) as H.
  rewrite length_app in H. simpl in H. lia.
Qed.

Section Sums.
Local Open Scope Q_scope.
(** A per-posting quantity [g] and its sum [f] over a posting list. *)
Variable g : posting -> Q.
Let f (ps : list posting) : Q := fold_right (fun p acc => g p + acc) 0 ps.
Let total (l : ledger) : Q := fold_right (fun a acc => f (snd a) + acc) 0 l.

Lemma sum_snoc ps p : f (ps ++ [p]) == f ps + g p.
Proof.
  induction ps as [|q ps IH]; simpl.
  - ring.
  - fold (f (ps ++ [p])). fold (f ps). rewrite IH. ring.
Qed.

Lemma total_set k v l : total (Dict.set k v l) + f (old l k) == total l + f v.
Proof.
  unfold old. induction l as [|[k2 v2] l IH]; simpl.
  - ring.
  - destruct (Str.eqb k k2) eqn:E; simpl.
    + fold (total l). ring.
    + fold (total l). fold (total (Dict.set k v l)).
      rewrite <- Qplus_assoc, IH. ring.
Qed.

Lemma total_append k p l : total (append_posting k p l) == total l + g p.
Proof.
  rewrite append_posting_unfold.
  pose proof (total_set k (old l k ++ [p]) l) as H.
  rewrite sum_snoc in H.
  apply (Qplus_inj_r _ _ (f (old l k))).
  rewrite H. ring.
Qed.
End Sums.

End LedgerFacts.

(** C9.  Posting one journal entry appends exactly two postings: a debit
    posting to the debit account and a credit posting to the credit account
    (to one list when the two names coincide), every other account keeping
    its postings.  Both carry the amount parsed from the entry's
    [debit_amount]; the ledger's debit total and credit total each grow by
    that amount, and an entry that differs in its [credit_amount] alone
    produces the same ledger. *)
Theorem posting_appends_balanced_pair :
  forall (l : LedgerManager.ledger) (e : journal_entry),
    let amount := LedgerManager._parse_amount (debit_amount e) in
    let dp := {| p_date := je_date e;
                 particulars := T "To " ++ credit_account e;
                 p_debit := amount; p_credit := 0;
                 p_narration := je_narration e; p_type := T "debit" |} in
    let cp := {| p_date := je_date e;
                 particulars := T "By " ++ debit_account e;
                 p_debit := 0; p_credit := amount;
                 p_narration := je_narration e; p_type := T "credit" |} in
    let l' := LedgerManager._process_journal_entry l e in
    let same := Str.eqb (debit_account e) (credit_account e) in
    Dict.get (debit_account e) l' =
      Some (LedgerFacts.old l (debit_account e) ++ dp :: (if same then [cp] else [])) /\
    Dict.get (credit_account e) l' =
      Some (LedgerFacts.old l (credit_account e) ++ (if same then [dp] else []) ++ [cp]) /\
    (forall k, k <> debit_account e -> k <> credit_account e ->
               Dict.get k l' = Dict.get k l) /\
    LedgerManager.count_postings l' = LedgerManager.count_postings l + 2 /\
    (LedgerManager.total_debits l' == LedgerManager.total_debits l + amount)%Q /\
    (LedgerManager.total_credits l' == LedgerManager.total_credits l + amount)%Q /\
    (forall ca, LedgerManager._process_journal_entry l (with_credit_amount ca e) = l').
Proof.
  intros l e amount dp cp l' same.
  assert (El : l' = LedgerManager.append_posting (credit_account e) cp
                      (LedgerManager.append_posting (debit_account e) dp l))
    by reflexivity.
  repeat split.
  - rewrite El. subst same.
    destruct (Str.eqb (debit_account e) (credit_account e)) eqn:E.
    + apply str_eqb_eq in E. rewrite <- E.
      rewrite LedgerFacts.get_append_same. unfold LedgerFacts.old at 1.
      rewrite LedgerFacts.get_append_same. now rewrite <- app_assoc.
    + apply str_eqb_neq in E.
      rewrite LedgerFacts.get_append_other by exact E.
      apply LedgerFacts.get_append_same.
  - rewrite El. subst same. rewrite LedgerFacts.get_append_same.
    destruct (Str.eqb (debit_account e) (credit_account e)) eqn:E.
    + apply str_eqb_eq in E. rewrite <- E. unfold LedgerFacts.old at 1.
      rewrite LedgerFacts.get_append_same. now rewrite <- app_assoc.
    + apply str_eqb_neq in E. unfold LedgerFacts.old at 1.
      rewrite LedgerFacts.get_append_other by congruence. reflexivity.
  - intros k Hd Hc. rewrite El.
    rewrite !LedgerFacts.get_append_other by assumption. reflexivity.
  - rewrite El, !LedgerFacts.count_append. lia.
  - rewrite El. unfold LedgerManager.total_debits, LedgerManager.sum_debit.
    rewrite !(LedgerFacts.total_append p_debit). simpl. ring.
  - rewrite El. unfold LedgerManager.total_credits, LedgerManager.sum_credit.
    rewrite !(LedgerFacts.total_append p_credit). simpl. ring.
Qed.

(** ** Exact keyword categorisation (rule_engine.py) *)

Module RuleFacts.
Import RuleEngine.
Local Open Scope Z_scope.

Lemma insert_not_nil x l : insert_by_priority x l <> [].
Proof. destruct l as [|y l]; simpl; [|destruct (snd x <=? snd y)]; discriminate. Qed.

(** The head of the stably sorted list is the first element of least
    priority number: strictly below everything before it in the unsorted
    list, at most equal to everything after it. *)
Lemma sort_head l :
  forall x r, sort_by_priority l = x :: r ->
    exists l1 l2, l = l1 ++ x :: l2 /\
      (forall y, In y l1 -> snd x < snd y) /\
      (forall y, In y l2 -> snd x <= snd y).
Proof.
  induction l as [|a l IH]; intros x r H; simpl in H; [discriminate|].
  destruct (sort_by_priority l) as [|m ms] eqn:S.
  - simpl in H. injection H as <- <-.
    destruct l as [|b l].
    + exists [], []. repeat split; intros y [].
    + simpl in S. now apply insert_not_nil in S.
  - destruct (IH m ms eq_refl) as (l1 & l2 & -> & B & A).
    simpl in H. destruct (snd a <=? snd m) eqn:C.
    + injection H as <- <-. apply Z.leb_le in C.
      exists [], (l1 ++ m :: l2). repeat split; [intros y []|].
      intros y Hy. apply in_app_or in Hy as [Hy|[<-|Hy]].
      * specialize (B y Hy). lia.
      * exact C.
      * specialize (A y Hy). lia.
    + injection H as <- <-. apply Z.leb_gt in C.
      exists (a :: l1), l2. repeat split; [|exact A].
      intros y [<-|Hy]; [exact C|now apply B].
Qed.

Section Instance.
Variable description : text.

Definition hit (c : text * category_data) : bool :=
  keyword_hit (snd c) description.

Lemma matched_app c1 c2 :
  matched_categories (c1 ++ c2) description =
  matched_categories c1 description ++ matched_categories c2 description.
Proof. unfold matched_categories. apply flat_map_app. Qed.

Lemma matched_in cats c :
  In c cats -> hit c = true ->
  In (fst c, get_priority (snd c)) (matched_categories cats description).
Proof.
  intros I H. unfold matched_categories. apply in_flat_map.
  exists c. split; [exact I|]. unfold hit in H. rewrite H. now left.
Qed.

(** A split of the matched list comes from a split of the dictionary. *)
Lemma matched_split cats :
  forall m1 x m2, matched_categories cats description = m1 ++ x :: m2 ->
    exists c1 c c2, cats = c1 ++ c :: c2 /\ hit c = true /\
      x = (fst c, get_priority (snd c)) /\
      matched_categories c1 description = m1 /\
      matched_categories c2 description = m2.
Proof.
  induction cats as [|a cats IH]; intros m1 x m2 H.
  - destruct m1; discriminate.
  - change (matched_categories (a :: cats) description)
      with ((if hit a then [(fst a, get_priority (snd a))] else [])
              ++ matched_categories cats description) in H.
    destruct (hit a) eqn:Ha; simpl in H.
    + destruct m1 as [|y m1]; simpl in H.
      * injection H as <- <-.
        exists [], a, cats. repeat split; assumption.
      * injection H as <- H.
        destruct (IH _ _ _ H) as (c1 & c & c2 & -> & Hc & -> & <- & <-).
        exists (a :: c1), c, c2. repeat split; try assumption.
        change (matched_categories (a :: c1) description)
          with ((if hit a then [(fst a, get_priority (snd a))] else [])
                  ++ matched_categories c1 description).
        now rewrite Ha.
    + destruct (IH _ _ _ H) as (c1 & c & c2 & -> & Hc & -> & <- & <-).
      exists (a :: c1), c, c2. repeat split; try assumption.
      change (matched_categories (a :: c1) description)
        with ((if hit a then [(fst a, get_priority (snd a))] else [])
                ++ matched_categories c1 description).
      now rewrite Ha.
Qed.

(** The selected category: the first one, in dictionary order, among the
    matching categories of least priority number. *)
Lemma exact_match_selects cats :
  (exists c, In c cats /\ hit c = true) ->
  exists c1 c c2, cats = c1 ++ c :: c2 /\
    _exact_keyword_match cats description = Some (fst c) /\
    hit c = true /\
    (forall c', In c' c1 -> hit c' = true ->
                get_priority (snd c) < get_priority (snd c')) /\
    (forall c', In c' c2 -> hit c' = true ->
                get_priority (snd c) <= get_priority (snd c')).
Proof.
  intros (c0 & I0 & H0).
  unfold _exact_keyword_match.
  destruct (sort_by_priority (matched_categories cats description))
    as [|x r] eqn:S.
  - pose proof (matched_in cats c0 I0 H0) as M.
    destruct (matched_categories cats description) as [|b l]; [destruct M|].
    simpl in S. now apply insert_not_nil in S.
  - destruct (sort_head _ _ _ S) as (m1 & m2 & E & B & A).
    destruct (matched_split _ _ _ _ E) as (c1 & c & c2 & -> & Hc & -> & <- & <-).
    exists c1, c, c2. repeat split; try assumption.
    + intros c' I' H'. exact (B _ (matched_in c1 c' I' H')).
    + intros c' I' H'. exact (A _ (matched_in c2 c' I' H')).
Qed.
End Instance.

End RuleFacts.

(** C7.  When keywords of at least one category - in particular of two or
    more - occur as whole words in the description, the exact keyword stage
    returns the first category, in declaration order, among the matching
    categories of lowest priority number: every matching category declared
    before it has a strictly larger number, every one declared after it a
    number at least as large.  The priority number selected is the same for
    every other iteration order of the dictionary. *)
Theorem exact_keyword_match_lowest_priority :
  forall (categories : Dict.dict category_data) (description : text),
    (exists c, In c categories /\ RuleFacts.hit description c = true) ->
    exists before name data after,
      categories = before ++ (name, data) :: after /\
      RuleEngine._exact_keyword_match categories description = Some name /\
      RuleEngine.keyword_hit data description = true /\
      (forall c, In c before -> RuleFacts.hit description c = true ->
                 (RuleEngine.get_priority data < RuleEngine.get_priority (snd c))%Z) /\
      (forall c, In c after -> RuleFacts.hit description c = true ->
                 (RuleEngine.get_priority data <= RuleEngine.get_priority (snd c))%Z) /\
      (forall categories', Permutation categories categories' ->
         exists name' data',
           In (name', data') categories' /\
           RuleEngine._exact_keyword_match categories' description = Some name' /\
           RuleEngine.get_priority data' = RuleEngine.get_priority data).
Proof.
  intros cats desc Hex.
  destruct (RuleFacts.exact_match_selects desc cats Hex)
    as (c1 & [name data] & c2 & E & M & H & B & A).
  exists c1, name, data, c2. repeat split; try assumption.
  intros cats' P.
  assert (Hex' : exists c, In c cats' /\ RuleFacts.hit desc c = true).
  { destruct Hex as (c & I & Hc). exists c. split; [|exact Hc].
    now apply (Permutation_in _ P). }
  destruct (RuleFacts.exact_match_selects desc cats' Hex')
    as (d1 & [name' data'] & d2 & E' & M' & H' & B' & A').
  exists name', data'. repeat split.
  - rewrite E'. apply in_elt.
  - exact M'.
  - (* each of the two selected categories matches and occurs in the other
       dictionary, so each priority bounds the other *)
    assert (I1 : In (name, data) cats') by
      (apply (Permutation_in _ P); rewrite E; apply in_elt).
    assert (I2 : In (name', data') cats) by
      (apply (Permutation_in _ (Permutation_sym P)); rewrite E'; apply in_elt).
    assert (L1 : (RuleEngine.get_priority data' <= RuleEngine.get_priority data)%Z).
    { rewrite E' in I1. apply in_app_or in I1 as [I|[I|I]].
      - specialize (B' _ I H). simpl in B'. lia.
      - injection I as _ <-. lia.
      - specialize (A' _ I H). simpl in A'. lia. }
    assert (L2 : (RuleEngine.get_priority data <= RuleEngine.get_priority data')%Z).
    { rewrite E in I2. apply in_app_or in I2 as [I|[I|I]].
      - specialize (B _ I H'). simpl in B. lia.
      - injection I as _ <-. lia.
      - specialize (A _ I H'). simpl in A. lia. }
    lia.
Qed.

Lemma exact_keyword_match_lowest_priority_witness :
  exists name,
    RuleEngine._exact_keyword_match RuleEngine._get_default_categories
      (T "food from the atm") = Some name.
Proof.
  assert (Hex : exists c, In c RuleEngine._get_default_categories /\
                          RuleFacts.hit (T "food from the atm") c = true).
  { exists (T "food_expense",
            RuleEngine.mk ["restaurant"; "cafe"; "food"; "snacks"; "samosa";
                           "meal"; "lunch"; "dinner"]%string
                          "Food Expense" "expense" 2 None).
    split; [|vm_compute; reflexivity].
    right; right; left; reflexivity. }
  destruct (exact_keyword_match_lowest_priority
              RuleEngine._get_default_categories (T "food from the atm") Hex)
    as (b & n & d & a & _ & M & _).
  exists n. exact M.
Defined.

(** ** Code defects met on concrete inputs *)

(** C4 (the code departs from the specification).  On the parenthesised amount
    "(1,234.56)" the cleaner drops the minus sign it has just put in front:
    the first amount pattern matches "1,234.56" only, and [parse_amount]
    returns 1234.56, the value of the same string without parentheses, not
    -1234.56. *)
Theorem parenthesised_amount_parses_positive :
  AmountParser._clean_amount_string (T "(1,234.56)") = Some (T "1,234.56") /\
  AmountParser.parse_amount (T "(1,234.56)") = Some (Py.Finite (123456 # 100)%Q) /\
  AmountParser.parse_amount (T "(1,234.56)") = AmountParser.parse_amount (T "1,234.56").
Proof. repeat split; vm_compute; reflexivity. Qed.

(** Without a keyword hit the detector answers "generic": nothing else
    is consulted. *)
Lemma detector_without_keyword (txt : text) :
  BankFormatDetector.keyword_scan (Str.upper txt)
    BankFormatDetector.bank_indicators = None ->
  BankFormatDetector.detect_bank_format txt = T "generic".
Proof.
  intros H. unfold BankFormatDetector.detect_bank_format. now rewrite H.
Qed.

(** C3 (the code departs from the specification).  The text below holds no bank
    keyword and one date in the format of the hdfc, icici and axis profiles.
    The detector the parser uses answers "generic" without looking at any
    [date_format]; the detector class of bank_formats.py, on the same text,
    counts the dates and answers "hdfc". *)
Theorem detector_skips_date_formats :
  let txt := T "01/02/2024 payment 100.00 CR" in
  BankFormatDetector.keyword_scan (Str.upper txt)
    BankFormatDetector.bank_indicators = None /\
  map (fun bi => length (BankFormats.findall (date_format (snd bi)) txt))
      BankFormatDetector.bank_indicators = [1; 0; 1; 1] /\
  BankFormatDetector.detect_bank_format txt = T "generic" /\
  BankFormats.detect_bank_format txt = T "hdfc".
Proof. repeat split; vm_compute; reflexivity. Qed.

(** ** Sorting by date (transaction_parser.py) *)

Module SortFacts.
Import TransactionParser.

Lemma date_leb_iff a b :
  date_leb a b = true <->
  (year a < year b \/
   (year a = year b /\
    (month a < month b \/ (month a = month b /\ day a <= day b))))%Z.
Proof.
  unfold date_leb.
  rewrite orb_true_iff, andb_true_iff, orb_true_iff, andb_true_iff.
  rewrite !Z.ltb_lt, !Z.eqb_eq, Z.leb_le. reflexivity.
Qed.

Lemma date_leb_total a b : date_leb a b = false -> date_leb b a = true.
Proof.
  intros H. apply date_leb_iff.
  assert (N : ~ date_leb a b = true) by congruence.
  rewrite date_leb_iff in N. lia.
Qed.

Lemma date_leb_trans a b c :
  date_leb a b = true -> date_leb b c = true -> date_leb a c = true.
Proof. rewrite !date_leb_iff. lia. Qed.

Definition key_le (x y : datetime * transaction) : Prop :=
  date_leb (fst x) (fst y) = true.

Lemma insert_perm x l : Permutation (insert_row x l) (x :: l).
Proof.
  induction l as [|y l IH]; simpl; [reflexivity|].
  destruct (date_leb (fst x) (fst y)); [reflexivity|].
  rewrite IH. apply perm_swap.
Qed.

Lemma sort_perm l : Permutation (fold_right insert_row [] l) l.
Proof.
  induction l as [|x l IH]; simpl; [reflexivity|].
  rewrite insert_perm. now constructor.
Qed.

Lemma insert_sorted x l :
  StronglySorted key_le l -> StronglySorted key_le (insert_row x l).
Proof.
  induction 1 as [|y l S IH F]; simpl.
  - repeat constructor.
  - destruct (date_leb (fst x) (fst y)) eqn:C.
    + constructor; [now constructor|].
      constructor; [exact C|].
      eapply Forall_impl; [|exact F].
      intros z Hz. unfold key_le in *. eapply date_leb_trans; eassumption.
    + constructor; [exact IH|].
      apply (Permutation_Forall (Permutation_sym (insert_perm x l))).
      constructor; [|exact F].
      now apply date_leb_total.
Qed.

Lemma sort_sorted l : StronglySorted key_le (fold_right insert_row [] l).
Proof.
  induction l as [|x l IH]; simpl; [constructor|now apply insert_sorted].
Qed.

Section Keys.
Variable pd : list date_cell -> text -> option datetime.
Variable column : list date_cell.

Definition key (r : transaction) : option datetime :=
  to_datetime pd column (date r).
Definition keyed (df : list transaction) := map (fun r => (key r, r)) df.

Definition dated (df : list transaction) : list (datetime * transaction) :=
  flat_map (fun kr : option datetime * transaction =>
              match fst kr with Some k => [(k, snd kr)] | None => [] end)
           (keyed df).
Definition undated (df : list transaction) : list transaction :=
  flat_map (fun kr : option datetime * transaction =>
              match fst kr with Some _ => [] | None => [snd kr] end)
           (keyed df).

Lemma undated_filter df :
  undated df = filter (fun r => match key r with None => true | Some _ => false end) df.
Proof.
  unfold undated, keyed. induction df as [|r df IH]; simpl; [reflexivity|].
  destruct (key r); simpl; now rewrite IH.
Qed.

Lemma dated_keys df :
  Forall (fun kr => key (snd kr) = Some (fst kr)) (dated df).
Proof.
  unfold dated, keyed. induction df as [|r df IH]; simpl; [constructor|].
  destruct (key r) eqn:K; simpl; [constructor|]; assumption.
Qed.

Lemma partition_perm df : Permutation (map snd (dated df) ++ undated df) df.
Proof.
  unfold dated, undated, keyed. induction df as [|r df IH]; simpl; [reflexivity|].
  destruct (key r); simpl.
  - now constructor.
  - apply Permutation_sym, Permutation_cons_app, Permutation_sym, IH.
Qed.

(** [a] comes no later than [b], both having a timestamp. *)
Definition no_later (a b : transaction) : Prop :=
  exists ka kb, key a = Some ka /\ key b = Some kb /\ date_leb ka kb = true.

Lemma sorted_rows l :
  Forall (fun kr => key (snd kr) = Some (fst kr)) l ->
  StronglySorted key_le l ->
  StronglySorted no_later (map snd l).
Proof.
  intros K S. induction S as [|x l S IH F]; simpl; [constructor|].
  inversion K as [|? ? Kx Kl]; subst.
  constructor; [now apply IH|].
  apply Forall_map. rewrite Forall_forall in *.
  intros y Hy. exists (fst x), (fst y). repeat split.
  - exact Kx.
  - now apply Kl.
  - now apply F.
Qed.
End Keys.

Lemma sort_unfold pd df :
  _sort_transactions pd df =
  map snd (fold_right insert_row [] (dated pd (map date df) df))
    ++ undated pd (map date df) df.
Proof. reflexivity. Qed.

Lemma sort_transactions_perm pd df : Permutation (_sort_transactions pd df) df.
Proof.
  rewrite sort_unfold.
  rewrite (Permutation_map snd (sort_perm (dated pd (map date df) df))).
  apply partition_perm.
Qed.

End SortFacts.

(** Lexicographic order of strings, as [str < str]. *)
Fixpoint text_ltb (a b : text) : bool :=
  match a, b with
  | _, [] => false
  | [], _ :: _ => true
  | x :: a', y :: b' =>
      (Str.code x <? Str.code y)%N || (Ascii.eqb x y && text_ltb a' b')
  end.

(** [str(d)] for a [datetime] at midnight *)
Definition datetime_str (d : datetime) : text :=
  let pad (w : nat) (n : Z) :=
    let ds := Str.digits_of (Z.to_N n) in
    repeat "0"%char (w - length ds) ++ ds in
  pad 4 (year d) ++ T "-" ++ pad 2 (month d) ++ T "-" ++ pad 2 (day d)
    ++ T " 00:00:00".

(** C5 (counterexample).  Two lines are parsed; the date of the first,
    "00/00/2024", parses neither in the date parser nor in the sort.  Its
    raw string is smaller than the printed date of the second line, yet the
    sorted collection puts it last. *)
Lemma unparsed_date_sorts_last :
  (forall dateutil pd,
      dateutil (T "00/00/2024") = None ->
      (forall column, pd column (T "00/00/2024") = None) ->
      map date (fst (TransactionParser.parse_transactions
                       RegexPatterns.default_compiled dateutil pd
                       (T "00/00/2024 Lunch 12.50 DR" ++ [Re.newline]
                          ++ T "15/03/2024 NEFT 5000.00 CR")
                       (T "generic")))
      = [DateObj {| year := 2024; month := 3; day := 15 |};
         DateStr (T "00/00/2024")]) /\
  text_ltb (T "00/00/2024")
           (datetime_str {| year := 2024; month := 3; day := 15 |}) = true.
Proof.
  split; [|vm_compute; reflexivity].
  intros du pd Hdu Hpd.
  vm_compute in Hdu, Hpd. vm_compute. rewrite Hdu. rewrite Hpd. reflexivity.
Qed.

(** The shape of a sorted collection: the rows with a timestamp in
    ascending order, then the rows without one. *)
Definition dated_then_undated (key : transaction -> option datetime)
    (out with_date without_date : list transaction) : Prop :=
  out = with_date ++ without_date /\
  StronglySorted
    (fun a b => exists ka kb,
         key a = Some ka /\ key b = Some kb /\
         TransactionParser.date_leb ka kb = true)
    with_date /\
  Forall (fun r => key r = None) without_date.

Lemma sort_shape pd (df : list transaction) :
  exists with_date,
    dated_then_undated (SortFacts.key pd (map date df))
      (TransactionParser._sort_transactions pd df) with_date
      (filter (fun r => match SortFacts.key pd (map date df) r with
                        | None => true
                        | Some _ => false
                        end) df).
Proof.
  exists (map snd (fold_right TransactionParser.insert_row []
                     (SortFacts.dated pd (map date df) df))).
  repeat split.
  - rewrite SortFacts.sort_unfold. f_equal. apply SortFacts.undated_filter.
  - apply (SortFacts.sorted_rows pd (map date df)); [|apply SortFacts.sort_sorted].
    apply (Permutation_Forall (Permutation_sym (SortFacts.sort_perm _))).
    apply SortFacts.dated_keys.
  - apply Forall_forall. intros r Hr. apply filter_In in Hr as [_ Hr].
    now destruct (SortFacts.key pd (map date df) r).
Qed.

(** C5 (amended).  The collection is sorted by the timestamp the sort
    derives from each date cell ([SortFacts.key]: a parsed date is its own
    timestamp, a raw string is converted once more): the output of
    [_sort_transactions] is a permutation of its input that consists of the
    rows with a timestamp, in ascending order of it, followed by the rows
    without one (the dates that could not be parsed), which keep their
    original relative order at the end.  The collection
    [parse_transactions] returns is such a sorted arrangement of the
    transactions it built. *)
Theorem sort_puts_unparsed_dates_last :
  forall pd,
    (forall df : list transaction,
        Permutation (TransactionParser._sort_transactions pd df) df /\
        exists with_date,
          dated_then_undated (SortFacts.key pd (map date df))
            (TransactionParser._sort_transactions pd df)
            with_date
            (filter (fun r => match SortFacts.key pd (map date df) r with
                              | None => true
                              | Some _ => false
                              end) df)) /\
    (forall cp dateutil (txt bank : text),
        exists built with_date without_date,
          Permutation
            (fst (TransactionParser.parse_transactions cp dateutil pd txt bank))
            built /\
          dated_then_undated (SortFacts.key pd (map date built))
            (fst (TransactionParser.parse_transactions cp dateutil pd txt bank))
            with_date without_date).
Proof.
  intros pd. split.
  - intros df. split; [apply SortFacts.sort_transactions_perm|apply sort_shape].
  - intros cp du txt bank. unfold TransactionParser.parse_transactions.
    destruct (Str.eqb bank (T "auto"));
      match goal with
      | |- context [TransactionParser.parse_matches du ?st ?ms ?b] =>
          destruct (TransactionParser.parse_matches du st ms b) as [ts st']
      end;
      (destruct ts as [|t ts];
       [exists [], [], []; repeat split; constructor
       |destruct (sort_shape pd (t :: ts)) as (wd & H);
        eexists (t :: ts), wd, _;
        split; [apply SortFacts.sort_transactions_perm|exact H]]).
Qed.

(** ** Lines that match no pattern, and matches without an amount *)

Module ParseFacts.

Lemma split_not_nil sep s : Str.split sep s <> [].
Proof.
  destruct s as [|c s]; simpl; [discriminate|].
  destruct (Ascii.eqb c sep); [discriminate|].
  destruct (Str.split sep s); discriminate.
Qed.

Lemma split_app sep a b :
  Str.split sep (a ++ sep :: b) = Str.split sep a ++ Str.split sep b.
Proof.
  induction a as [|c a IH]; simpl.
  - now rewrite Ascii.eqb_refl.
  - destruct (Ascii.eqb c sep); rewrite IH; [reflexivity|].
    destruct (Str.split sep a) as [|h t] eqn:E; [|reflexivity].
    now apply split_not_nil in E.
Qed.

Lemma split_one sep line :
  (forall c, In c line -> c <> sep) -> Str.split sep line = [line].
Proof.
  induction line as [|c line IH]; intros H; simpl; [reflexivity|].
  assert (N : Ascii.eqb c sep = false).
  { apply Ascii.eqb_neq. apply H. now left. }
  rewrite N, IH; [reflexivity|].
  intros x Hx. apply H. now right.
Qed.

Section Instance.
Variable cp : Dict.dict (list Re.pattern).
Variable dateutil : text -> option datetime.
Variable pd : list date_cell -> text -> option datetime.

Lemma find_all_single line bank :
  (forall c, In c line -> c <> Re.newline) ->
  RegexPatterns.match_transaction cp line bank = None ->
  RegexPatterns.find_all_transactions cp line bank = [].
Proof.
  intros Hnl Hm. unfold RegexPatterns.find_all_transactions.
  rewrite split_one by exact Hnl. simpl. now rewrite Hm.
Qed.

Lemma find_all_skip before line after bank :
  (forall c, In c line -> c <> Re.newline) ->
  RegexPatterns.match_transaction cp line bank = None ->
  RegexPatterns.find_all_transactions cp
    (before ++ Re.newline :: line ++ Re.newline :: after) bank =
  RegexPatterns.find_all_transactions cp
    (before ++ Re.newline :: after) bank.
Proof.
  intros Hnl Hm. unfold RegexPatterns.find_all_transactions.
  rewrite !split_app, !flat_map_app.
  rewrite (split_one Re.newline line Hnl). simpl.
  now rewrite Hm.
Qed.

Lemma lines_skip before line after :
  (forall c, In c line -> c <> Re.newline) ->
  length (Str.split Re.newline (before ++ Re.newline :: line ++ Re.newline :: after)) =
  S (length (Str.split Re.newline (before ++ Re.newline :: after))).
Proof.
  intros Hnl. rewrite !split_app, (split_one Re.newline line Hnl), !length_app.
  simpl. lia.
Qed.

(** The amount group of a match that [_parse_transaction_match] turns
    into a transaction: four, five or six groups, the type and narration
    groups present. *)
Definition amount_group (m : RegexPatterns.groups) : option (option text) :=
  match m with
  | [_; _; a; Some _] => Some a
  | [_; _; a; Some _; Some _] => Some a
  | [_; _; _; a; Some _; Some _] => Some a
  | _ => None
  end.

Definition parsed_amount (a : option text) : option Py.float64 :=
  match a with
  | Some s => AmountParser.parse_amount s
  | None => None
  end.

(** The statistics only count: the transaction built from a match, and
    whether it raises, do not depend on them. *)
Lemma parse_match_stats m bank :
  exists t (e : bool), forall st,
    TransactionParser._parse_transaction_match dateutil st m bank =
    (t, if e then TransactionParser.add_error st else st).
Proof.
  unfold TransactionParser._parse_transaction_match.
  destruct m as [|g1 [|g2 [|g3 [|g4 [|g5 [|g6 [|g7 m]]]]]]];
    try (exists None, false; reflexivity).
  - destruct g4; [eexists; exists false; reflexivity
                 |exists None, true; reflexivity].
  - destruct g4, g5; try (exists None, true; reflexivity).
    eexists; exists false; reflexivity.
  - destruct g5, g6; try (exists None, true; reflexivity).
    eexists; exists false; reflexivity.
Qed.

Lemma parse_matches_stats ms bank :
  forall st st0,
    fst (TransactionParser.parse_matches dateutil st ms bank) =
    fst (TransactionParser.parse_matches dateutil st0 ms bank) /\
    parsing_errors (snd (TransactionParser.parse_matches dateutil st ms bank))
      + parsing_errors st0 =
    parsing_errors (snd (TransactionParser.parse_matches dateutil st0 ms bank))
      + parsing_errors st /\
    total_lines_processed (snd (TransactionParser.parse_matches dateutil st ms bank))
      = total_lines_processed st /\
    transactions_found (snd (TransactionParser.parse_matches dateutil st ms bank))
      = transactions_found st.
Proof.
  induction ms as [|m ms IH]; intros st st0; simpl.
  - repeat split; lia.
  - destruct (parse_match_stats m bank) as (t & e & E).
    rewrite (E st), (E st0).
    set (st1 := if e then TransactionParser.add_error st else st).
    set (st2 := if e then TransactionParser.add_error st0 else st0).
    destruct (IH st1 st2) as (A & B & C & D).
    destruct (TransactionParser.parse_matches dateutil st1 ms bank) as [ts s1].
    destruct (TransactionParser.parse_matches dateutil st2 ms bank) as [ts' s2].
    simpl in *. subst ts'. subst st1 st2.
    destruct e; simpl in *; repeat split; lia.
Qed.

Lemma parse_match_keeps st m bank a :
  amount_group m = Some a ->
  exists t,
    TransactionParser._parse_transaction_match dateutil st m bank = (Some t, st) /\
    original_match t = m /\ amount_original t = a /\
    amount t = parsed_amount a.
Proof.
  intros H.
  destruct m as [|g1 [|g2 [|g3 [|g4 [|g5 [|g6 [|g7 m]]]]]]]; try discriminate.
  - destruct g4 as [ty|]; simpl in H; [|discriminate]. injection H as <-.
    eexists. repeat split.
  - destruct g4 as [ty|], g5 as [na|]; simpl in H; try discriminate.
    injection H as <-. eexists. repeat split.
  - destruct g4, g5 as [ty|], g6 as [na|]; simpl in H; try discriminate;
      injection H as <-; eexists; repeat split.
  - destruct g4, g5, g6; simpl in H; discriminate.
Qed.

Lemma parse_matches_keeps ms :
  forall st bank m a,
    In m ms -> amount_group m = Some a ->
    exists t,
      In t (fst (TransactionParser.parse_matches dateutil st ms bank)) /\
      original_match t = m /\ amount_original t = a /\
      amount t = parsed_amount a.
Proof.
  induction ms as [|m0 ms IH]; intros st bank m a I H; [destruct I|].
  simpl.
  destruct (TransactionParser._parse_transaction_match dateutil st m0 bank)
    as [t0 st1] eqn:E0.
  destruct (TransactionParser.parse_matches dateutil st1 ms bank)
    as [ts st2] eqn:E1.
  destruct I as [<-|I].
  - destruct (parse_match_keeps st m0 bank a H) as (t & Et & P).
    rewrite Et in E0. injection E0 as <- <-.
    exists t. split; [now left|exact P].
  - destruct (IH st1 bank m a I H) as (t & It & P).
    rewrite E1 in It. simpl in It.
    exists t. split; [|exact P].
    destruct t0; simpl; [right|]; exact It.
Qed.
End Instance.

(** The tuple of groups a pattern list yields comes from one of them. *)
Lemma get_in (V : Type) (k : text) (d : Dict.dict V) (v : V) :
  Dict.get k d = Some v -> In v (map snd d).
Proof.
  induction d as [|[k2 v2] d IH]; simpl; [discriminate|].
  destruct (Str.eqb k k2).
  - intros [= <-]. now left.
  - intros H. right. now apply IH.
Qed.

End ParseFacts.

(** C6 (counterexample).  The line below holds no date and no amount and
    matches no pattern.  Parsing it yields no transaction, and the error
    counter is 0 afterwards, not 1. *)
Lemma unmatched_line_counts_no_error :
  RegexPatterns.match_transaction RegexPatterns.default_compiled
    (T "hello world foo bar") (T "generic") = None /\
  (forall dateutil pd,
      TransactionParser.parse_transactions RegexPatterns.default_compiled
        dateutil pd (T "hello world foo bar") (T "generic")
      = ([], {| total_lines_processed := 1;
                transactions_found := 0;
                bank_type_detected := None;
                parsing_errors := 0 |})).
Proof. split; [|intros du pd]; vm_compute; reflexivity. Qed.

(** C6 (amended).  A line that matches no pattern yields no transaction
    and leaves the error counter alone: parsed on its own it gives an empty
    collection with [parsing_errors = 0]; inside a text, for an explicit
    bank type, the collection, [transactions_found] and [parsing_errors]
    are those of the text without the line, and only
    [total_lines_processed] is one larger. *)
Theorem unmatched_line_is_skipped_silently :
  forall cp dateutil pd (line bank : text),
    (forall c, In c line -> c <> Re.newline) ->
    (forall b, RegexPatterns.match_transaction cp line b = None) ->
    (fst (TransactionParser.parse_transactions cp dateutil pd line bank) = [] /\
     parsing_errors (snd (TransactionParser.parse_transactions cp dateutil pd line bank)) = 0 /\
     transactions_found (snd (TransactionParser.parse_transactions cp dateutil pd line bank)) = 0 /\
     total_lines_processed (snd (TransactionParser.parse_transactions cp dateutil pd line bank)) = 1) /\
    (forall before after,
        Str.eqb bank (T "auto") = false ->
        let r := TransactionParser.parse_transactions cp dateutil pd
                   (before ++ Re.newline :: line ++ Re.newline :: after) bank in
        let r' := TransactionParser.parse_transactions cp dateutil pd
                    (before ++ Re.newline :: after) bank in
        fst r = fst r' /\
        parsing_errors (snd r) = parsing_errors (snd r') /\
        transactions_found (snd r) = transactions_found (snd r') /\
        total_lines_processed (snd r) = S (total_lines_processed (snd r'))).
Proof.
  intros cp du pd line bank Hnl Hm. split.
  - unfold TransactionParser.parse_transactions.
    destruct (Str.eqb bank (T "auto"));
      rewrite (ParseFacts.find_all_single cp line _ Hnl (Hm _));
      rewrite (ParseFacts.split_one Re.newline line Hnl); simpl; repeat split.
  - intros before after Hb r r'. subst r r'.
    unfold TransactionParser.parse_transactions. rewrite Hb.
    rewrite (ParseFacts.find_all_skip cp before line after bank Hnl (Hm bank)).
    rewrite (ParseFacts.lines_skip before line after Hnl).
    match goal with
    | |- context [TransactionParser.parse_matches du ?a ?ms bank] =>
        match goal with
        | |- context [TransactionParser.parse_matches du ?b ms bank] =>
            tryif constr_eq a b then fail else
              destruct (ParseFacts.parse_matches_stats du ms bank a b)
                as (A & B & C & D);
              destruct (ParseFacts.parse_matches_stats du ms bank b a)
                as (_ & _ & C' & D');
              destruct (TransactionParser.parse_matches du a ms bank) as [ts s1];
              destruct (TransactionParser.parse_matches du b ms bank) as [ts' s2]
        end
    end.
    simpl in *. subst ts'.
    repeat split; lia.
Qed.

Module WitnessFacts.

Lemma first_groups_app ps qs line :
  RegexPatterns.first_groups ps line = None ->
  RegexPatterns.first_groups qs line = None ->
  RegexPatterns.first_groups (ps ++ qs) line = None.
Proof.
  intros Hp Hq. induction ps as [|p ps IH]; simpl in *; [exact Hq|].
  destruct (Re.rmatch p line); [discriminate|now apply IH].
Qed.

Definition no_group (ps : list Re.pattern) (line : text) : bool :=
  match RegexPatterns.first_groups ps line with
  | None => true
  | Some _ => false
  end.

(** A line that none of the pattern lists of the table matches is matched
    for no bank type. *)
Lemma match_none_all_banks cp line :
  forallb (fun ps => no_group ps (Str.strip line)) (map snd cp) = true ->
  forall b, RegexPatterns.match_transaction cp line b = None.
Proof.
  intros H b. rewrite forallb_forall in H.
  assert (G : forall k, RegexPatterns.first_groups
                          (RegexPatterns.get_patterns cp k) (Str.strip line) = None).
  { intros k. unfold RegexPatterns.get_patterns.
    destruct (Dict.get k cp) as [ps|] eqn:E; [|reflexivity].
    apply ParseFacts.get_in in E. specialize (H ps E).
    unfold no_group in H.
    destruct (RegexPatterns.first_groups ps (Str.strip line));
      [discriminate|reflexivity]. }
  unfold RegexPatterns.match_transaction.
  destruct (Str.strip line) as [|c s] eqn:E; [reflexivity|].
  destruct (length (c :: s) <? 10); [reflexivity|].
  apply first_groups_app; apply G.
Qed.

Lemma no_newline_check line :
  forallb (fun c => negb (Ascii.eqb c Re.newline)) line = true ->
  forall c, In c line -> c <> Re.newline.
Proof.
  intros H c I. rewrite forallb_forall in H. specialize (H c I).
  apply negb_true_iff in H. now apply Ascii.eqb_neq.
Qed.

End WitnessFacts.

Lemma unmatched_line_is_skipped_silently_witness :
  parsing_errors
    (snd (TransactionParser.parse_transactions RegexPatterns.default_compiled
            (fun _ => None) (fun _ _ => None)
            (T "hello world foo bar") (T "auto"))) = 0.
Proof.
  refine (proj1 (proj2 (proj1
    (unmatched_line_is_skipped_silently RegexPatterns.default_compiled
       (fun _ => None) (fun _ _ => None) (T "hello world foo bar") (T "auto")
       _ _)))).
  - apply WitnessFacts.no_newline_check. vm_compute. reflexivity.
  - apply WitnessFacts.match_none_all_banks. vm_compute. reflexivity.
Defined.

(** C2 (counterexample).  The amount group of the line below is ",", which
    cannot be normalised; the transaction is still in the output, with a
    missing amount. *)
Lemma unparsable_amount_is_kept :
  AmountParser.parse_amount (T ",") = None /\
  (forall dateutil pd,
      map (fun t => (amount_original t, amount t))
          (fst (TransactionParser.parse_transactions RegexPatterns.default_compiled
                  dateutil pd (T "15/03/2024 NEFT payment , CR") (T "generic")))
      = [(Some (T ","), None)]).
Proof. split; [|intros du pd]; vm_compute; reflexivity. Qed.

(** C2 (amended).  Every match with four, five or six groups whose type and
    narration groups are present becomes a transaction of the output,
    whatever its amount group: the transaction carries the normalised
    amount, which is missing when the amount string cannot be
    normalised. *)
Theorem unparsable_amount_keeps_transaction :
  forall cp dateutil pd (txt bank : text) (m : RegexPatterns.groups) (a : option text),
    In m (RegexPatterns.find_all_transactions cp txt
            (if Str.eqb bank (T "auto")
             then BankFormatDetector.detect_bank_format txt else bank)) ->
    ParseFacts.amount_group m = Some a ->
    exists t,
      In t (fst (TransactionParser.parse_transactions cp dateutil pd txt bank)) /\
      original_match t = m /\
      amount_original t = a /\
      amount t = ParseFacts.parsed_amount a.
Proof.
  intros cp du pd txt bank m a I H.
  unfold TransactionParser.parse_transactions.
  destruct (Str.eqb bank (T "auto"));
    match goal with
    | |- context [TransactionParser.parse_matches du ?st ?ms ?b] =>
        destruct (ParseFacts.parse_matches_keeps du ms st b m a I H)
          as (t & It & Hm & Ho & Ha);
        destruct (TransactionParser.parse_matches du st ms b) as [ts st']
    end;
    simpl in It; exists t;
    (split; [|repeat split; assumption]).
  all: destruct ts as [|t0 ts]; [destruct It|];
       apply (Permutation_in _ (Permutation_sym
                (SortFacts.sort_transactions_perm pd (t0 :: ts)))); exact It.
Qed.

Lemma unparsable_amount_keeps_transaction_witness :
  exists t,
    In t (fst (TransactionParser.parse_transactions RegexPatterns.default_compiled
                 (fun _ => None) (fun _ _ => None)
                 (T "15/03/2024 NEFT payment , CR") (T "generic"))) /\
    amount t = None.
Proof.
  destruct (unparsable_amount_keeps_transaction RegexPatterns.default_compiled
              (fun _ => None) (fun _ _ => None)
              (T "15/03/2024 NEFT payment , CR") (T "generic")
              [Some (T "15/03/2024"); Some (T "NEFT payment"); Some (T ",");
               Some (T "CR"); Some []]
              (Some (T ",")))
    as (t & It & _ & _ & Ha).
  - vm_compute. left. reflexivity.
  - reflexivity.
  - exists t. split; [exact It|]. rewrite Ha. vm_compute. reflexivity.
Defined.

(** ** The parse/format round trip of amounts (amount_parser.py) *)

Module AmountFacts.

#[local] Arguments Ascii.eqb : simpl never.
#[local] Arguments Str.is_digit : simpl never.
#[local] Arguments Str.is_space : simpl never.
#[local] Arguments Re.cset_mem : simpl never.

Definition is_true (p : ascii -> bool) (c : ascii) : Prop := p c = true.

(** *** Decimal digits *)

Lemma digit_char_spec d :
  (d < 10)%N ->
  Str.is_digit (Str.digit_char d) = true /\ Str.digit_val (Str.digit_char d) = d.
Proof.
  intros H.
  assert (E : (d = 0 \/ d = 1 \/ d = 2 \/ d = 3 \/ d = 4 \/ d = 5 \/ d = 6 \/
               d = 7 \/ d = 8 \/ d = 9)%N) by lia.
  destruct E as [->|[->|[->|[->|[->|[->|[->|[->|[->| ->]]]]]]]]];
    split; reflexivity.
Qed.

Lemma digits_value_snoc ds d :
  Str.digits_value (ds ++ [d]) = (10 * Str.digits_value ds + Str.digit_val d)%N.
Proof. unfold Str.digits_value. now rewrite fold_left_app. Qed.

Lemma digits_fuel_spec fuel :
  forall n, (n < 2 ^ N.of_nat fuel)%N -> fuel <> 0 ->
    Str.digits_value (Str.digits_fuel fuel n) = n /\
    Forall (is_true Str.is_digit) (Str.digits_fuel fuel n) /\
    Str.digits_fuel fuel n <> [].
Proof.
  induction fuel as [|f IH]; intros n Hn Hf; [congruence|].
  simpl Str.digits_fuel. destruct (n <? 10)%N eqn:C.
  - apply N.ltb_lt in C. destruct (digit_char_spec n C) as [D V].
    repeat split; [|repeat constructor; exact D|discriminate].
    unfold Str.digits_value. simpl. rewrite V. lia.
  - apply N.ltb_ge in C.
    rewrite Nat2N.inj_succ, N.pow_succ_r' in Hn.
    assert (Hf' : f <> 0).
    { intros ->. simpl in Hn. lia. }
    assert (Hd : (n / 10 < 2 ^ N.of_nat f)%N).
    { apply N.Div0.div_lt_upper_bound. lia. }
    destruct (IH _ Hd Hf') as (V & D & NE).
    assert (Hm : (n mod 10 < 10)%N) by (apply N.mod_lt; lia).
    destruct (digit_char_spec _ Hm) as [Dm Vm].
    repeat split.
    + rewrite digits_value_snoc, V, Vm. symmetry. apply N.div_mod'.
    + apply Forall_app. split; [exact D|repeat constructor; exact Dm].
    + intros E. apply app_eq_nil in E as [_ E]. discriminate.
Qed.

Lemma digits_of_spec n :
  Str.digits_value (Str.digits_of n) = n /\
  Forall (is_true Str.is_digit) (Str.digits_of n) /\
  Str.digits_of n <> [].
Proof.
  unfold Str.digits_of. apply digits_fuel_spec; [|discriminate].
  rewrite Nat2N.inj_succ, N2Nat.id.
  destruct (N.eq_dec n 0) as [->|N0]; [reflexivity|].
  apply N.log2_spec. lia.
Qed.

(** A digit is none of the other characters an amount is written with. *)
Lemma digit_neq c x :
  Str.is_digit c = true -> Str.is_digit x = false -> Ascii.eqb c x = false.
Proof.
  intros Hc Hx. destruct (Ascii.eqb c x) eqn:E; [|reflexivity].
  apply Ascii.eqb_eq in E. congruence.
Qed.

Lemma digit_not_space c : Str.is_digit c = true -> Str.is_space c = false.
Proof.
  unfold Str.is_digit, Str.is_space, Str.in_range. intros H.
  apply andb_prop in H as [H1 H2].
  apply N.leb_le in H1. apply N.leb_le in H2.
  repeat (apply orb_false_iff; split);
    try (apply andb_false_iff; (left; apply N.leb_gt; lia) || (right; apply N.leb_gt; lia));
    apply N.eqb_neq; lia.
Qed.

(** *** Thousands separators *)

Definition not_comma (c : ascii) : bool := negb (Ascii.eqb "," c).

Lemma replace_comma s : Str.replace (T ",") [] s = filter not_comma s.
Proof.
  simpl. induction s as [|c s IH]; [reflexivity|].
  simpl. unfold not_comma at 1. rewrite andb_true_r.
  destruct (Ascii.eqb "," c); simpl; now rewrite IH.
Qed.

Lemma commas_rev_filter rs :
  forall n, Forall (is_true not_comma) rs ->
            filter not_comma (Py.commas_rev n rs) = rs.
Proof.
  induction rs as [|c rs IH]; intros n H; [reflexivity|].
  inversion H as [|? ? Hc Hrs]; subst. unfold is_true in Hc.
  destruct n; simpl.
  - change (not_comma ",") with false. cbv iota. now rewrite Hc, IH.
  - now rewrite Hc, IH.
Qed.

Lemma commas_rev_chars (P : ascii -> Prop) rs :
  forall n, P ","%char -> Forall P rs -> Forall P (Py.commas_rev n rs).
Proof.
  induction rs as [|c rs IH]; intros n Pc H; [constructor|].
  inversion H; subst. destruct n; simpl; repeat constructor; auto.
Qed.

Lemma commas_rev_not_nil rs n : rs <> [] -> Py.commas_rev n rs <> [].
Proof. destruct rs, n; simpl; congruence. Qed.

Lemma group3_filter ds :
  Forall (is_true not_comma) ds -> filter not_comma (Py.group3 ds) = ds.
Proof.
  intros H. unfold Py.group3.
  rewrite filter_rev, commas_rev_filter, rev_involutive; [reflexivity|].
  now apply Forall_rev.
Qed.

Lemma group3_chars (P : ascii -> Prop) ds :
  P ","%char -> Forall P ds -> Forall P (Py.group3 ds).
Proof.
  intros Pc H. unfold Py.group3.
  apply Forall_rev, commas_rev_chars; [exact Pc|now apply Forall_rev].
Qed.

Lemma group3_not_nil ds : ds <> [] -> Py.group3 ds <> [].
Proof.
  intros H E. unfold Py.group3 in E.
  apply (f_equal (@rev ascii)) in E. rewrite rev_involutive in E. simpl in E.
  apply commas_rev_not_nil in E; [exact E|].
  intros R. apply H. apply (f_equal (@rev ascii)) in R.
  now rewrite rev_involutive in R.
Qed.

(** *** Stripping *)

Lemma strip_id s :
  Forall (fun c => Str.is_space c = false) s -> Str.strip s = s.
Proof.
  intros H.
  assert (L : forall u, Forall (fun c => Str.is_space c = false) u ->
                        Str.lstrip u = u).
  { intros [|c u] Hu; [reflexivity|]. inversion Hu; subst. simpl.
    now rewrite H2. }
  unfold Str.strip, Str.rstrip. rewrite (L s H).
  rewrite L by now apply Forall_rev.
  apply rev_involutive.
Qed.

(** *** Runs of digits *)

Lemma take_drop_digits ds rest :
  Forall (is_true Str.is_digit) ds ->
  match rest with [] => True | c :: _ => Str.is_digit c = false end ->
  Str.take_while Str.is_digit (ds ++ rest) = ds /\
  Str.drop_while Str.is_digit (ds ++ rest) = rest.
Proof.
  intros H R. induction H as [|c ds Hc Hds IH]; simpl.
  - destruct rest as [|c rest]; [split; reflexivity|].
    simpl. now rewrite R.
  - unfold is_true in Hc. rewrite Hc. destruct IH as [-> ->]. split; reflexivity.
Qed.

End AmountFacts.

(** ** Facts on the matcher *)

Module ReFacts.
Import Re.

#[local] Arguments Re.cset_mem : simpl never.

Section Runs.
Variable fl : flags.
Variable R : Type.
Variable cs : cset.

#[local] Abbreviation mem c := (cset_mem (ignorecase fl) cs c).

(** The character before the position reached after reading [u]. *)
Definition after (pv : option ascii) (u : text) : option ascii :=
  fold_left (fun _ c => Some c) u pv.

(** A greedy unbounded repetition takes a whole run of members when the
    continuation accepts what follows it. *)
Lemma rep_greedy_run u :
  forall lo pv rest (k : option ascii -> text -> option R) res,
    Forall (fun c => mem c = true) u ->
    lo <= length u ->
    match rest with [] => True | c :: _ => mem c = false end ->
    k (after pv u) rest = Some res ->
    rep_exec fl true cs lo None pv (u ++ rest) k = Some res.
Proof.
  induction u as [|c u IH]; intros lo pv rest k res Hu Hlo Hrest Hk.
  - simpl in *. assert (lo = 0) by lia. subst lo.
    destruct rest as [|c rest]; simpl; [exact Hk|].
    now rewrite Hrest.
  - inversion Hu as [|? ? Hc Hu']; subst. simpl app. simpl rep_exec.
    rewrite Hc. simpl andb. cbv iota.
    destruct lo as [|lo].
    + rewrite (IH 0 (Some c) rest k res); auto with arith.
    + apply IH; auto. simpl in Hlo. lia.
Qed.

(** A repetition with equal bounds takes exactly that many members. *)
Lemma rep_exact u :
  forall g pv rest (k : option ascii -> text -> option R),
    Forall (fun c => mem c = true) u ->
    rep_exec fl g cs (length u) (Some (length u)) pv (u ++ rest) k =
    k (after pv u) rest.
Proof.
  induction u as [|c u IH]; intros g pv rest k Hu.
  - simpl. destruct rest as [|c rest]; [reflexivity|].
    simpl. now rewrite andb_false_r.
  - inversion Hu as [|? ? Hc Hu']; subst. simpl app. simpl length.
    simpl rep_exec. rewrite Hc. simpl. now apply IH.
Qed.

(** What a repetition reads consists of members. *)
Lemma rep_sound s :
  forall g lo hi pv (k : option ascii -> text -> option R) res,
    rep_exec fl g cs lo hi pv s k = Some res ->
    exists u s1 pv1,
      s = u ++ s1 /\ Forall (fun c => mem c = true) u /\ k pv1 s1 = Some res.
Proof.
  induction s as [|c s IH]; intros g lo hi pv k res H.
  - simpl in H. destruct lo; [|discriminate].
    exists [], [], pv. repeat split; [constructor|exact H].
  - simpl in H.
    assert (Stop : k pv (c :: s) = Some res ->
                   exists u s1 pv1, c :: s = u ++ s1 /\
                     Forall (fun c => mem c = true) u /\ k pv1 s1 = Some res).
    { intros Hk. exists [], (c :: s), pv. repeat split; [constructor|exact Hk]. }
    assert (More : forall lo' hi',
               mem c = true ->
               rep_exec fl g cs lo' hi' (Some c) s k = Some res ->
               exists u s1 pv1, c :: s = u ++ s1 /\
                 Forall (fun c => mem c = true) u /\ k pv1 s1 = Some res).
    { intros lo' hi' Hc Hr.
      destruct (IH _ _ _ _ _ _ Hr) as (u & s1 & pv1 & -> & Hu & Hk).
      exists (c :: u), s1, pv1. repeat split; [now constructor|exact Hk]. }
    destruct (mem c) eqn:Hc; simpl in H.
    + destruct lo as [|lo].
      * destruct hi as [[|h]|]; simpl in H; try (now apply Stop);
          destruct g;
          match type of H with
          | match ?x with _ => _ end = _ =>
              destruct x eqn:E; [injection H as <-|]
          end; eauto.
      * destruct hi as [[|h]|]; simpl in H; try discriminate; eauto.
    + destruct lo; [now apply Stop|discriminate].
Qed.
End Runs.

Section Sound.
Variable fl : flags.
Variable R : Type.
Variable P : ascii -> Prop.

(** Every character set of the expression lies within [P]. *)
Fixpoint within (r : re) : Prop :=
  match r with
  | Chr cs | Rep _ _ _ cs =>
      forall c, cset_mem (ignorecase fl) cs c = true -> P c
  | Seq a b | Alt a b => within a /\ within b
  | Grp _ a => within a
  | Eps | Bol | Eol | WordB => True
  end.

(** What an expression reads consists of characters of [P]. *)
Lemma exec_sound r :
  forall pv s cs (k : option ascii -> text -> captures -> option R) res,
    within r ->
    exec fl r pv s cs k = Some res ->
    exists u s1 pv1 cs1,
      s = u ++ s1 /\ Forall P u /\ k pv1 s1 cs1 = Some res.
Proof.
  induction r as [|c|a IHa b IHb|a IHa b IHb|g lo hi c|i a IHa| | |];
    intros pv s cs k res W H; simpl in H.
  - exists [], s, pv, cs. repeat split; [constructor|exact H].
  - destruct s as [|x s]; [discriminate|].
    destruct (cset_mem (ignorecase fl) c x) eqn:E; [|discriminate].
    exists [x], s, (Some x), cs. repeat split; [|exact H].
    constructor; [now apply W|constructor].
  - destruct W as [Wa Wb].
    destruct (IHa _ _ _ _ _ Wa H) as (u1 & s1 & pv1 & cs1 & -> & F1 & H1).
    destruct (IHb _ _ _ _ _ Wb H1) as (u2 & s2 & pv2 & cs2 & -> & F2 & H2).
    exists (u1 ++ u2), s2, pv2, cs2. repeat split.
    + now rewrite app_assoc.
    + apply Forall_app. now split.
    + exact H2.
  - destruct W as [Wa Wb].
    destruct (exec fl a pv s cs k) eqn:E.
    + injection H as <-. now apply (IHa _ _ _ _ _ Wa E).
    + now apply (IHb _ _ _ _ _ Wb H).
  - destruct (rep_sound fl R c s g lo hi pv _ res H) as (u & s1 & pv1 & -> & F & Hk).
    exists u, s1, pv1, cs. repeat split; [|exact Hk].
    eapply Forall_impl; [|exact F]. exact W.
  - destruct (IHa _ _ _ _ _ W H) as (u & s1 & pv1 & cs1 & -> & F & Hk).
    eexists u, s1, pv1, _. repeat split; [exact F|exact Hk].
  - destruct (at_bol (multiline fl) pv); [|discriminate].
    exists [], s, pv, cs. repeat split; [constructor|exact H].
  - destruct (at_eol (multiline fl) s); [|discriminate].
    exists [], s, pv, cs. repeat split; [constructor|exact H].
  - destruct (word_boundary pv s); [|discriminate].
    exists [], s, pv, cs. repeat split; [constructor|exact H].
Qed.
End Sound.

Lemma firstn_prefix (u s1 : text) :
  firstn (length (u ++ s1) - length s1) (u ++ s1) = u.
Proof.
  rewrite length_app, Nat.add_sub.
  rewrite firstn_app, Nat.sub_diag, firstn_all. simpl. apply app_nil_r.
Qed.

Lemma match_here_sound (P : ascii -> Prop) (p : pattern) pv s s1 cs1 :
  within (pflags p) P (ast p) ->
  match_here p pv s = Some (s1, cs1) ->
  Forall P (firstn (length s - length s1) s).
Proof.
  intros W E. unfold match_here in E.
  destruct (exec_sound _ _ P _ _ _ _ _ _ W E) as (u & s2 & pv2 & cs2 & Es & F & K).
  injection K as <- <-. subst s. now rewrite firstn_prefix.
Qed.

(** The text of a match found by [search] lies within [P]. *)
Lemma search_sound (P : ascii -> Prop) (p : pattern) s :
  forall before pv m,
    within (pflags p) P (ast p) ->
    search_from p before pv s = Some m ->
    Forall P (m_text m).
Proof.
  induction s as [|c s IH]; intros before pv m W H; simpl in H.
  - destruct (match_here p pv []) as [[s1 cs1]|] eqn:E; [|discriminate].
    injection H as <-. exact (match_here_sound P p pv [] s1 cs1 W E).
  - destruct (match_here p pv (c :: s)) as [[s1 cs1]|] eqn:E.
    + injection H as <-. exact (match_here_sound P p pv (c :: s) s1 cs1 W E).
    + now apply (IH _ _ _ W H).
Qed.

(** A match at the very start is the one [search] returns. *)
Lemma search_at_start (p : pattern) s res :
  match_here p None s = Some res ->
  search p s = Some (mobj_at p [] s res).
Proof.
  intros H. unfold search. destruct s; simpl; now rewrite H.
Qed.

End ReFacts.

Module AmountRoundTrip.
Import AmountFacts.

#[local] Arguments Ascii.eqb : simpl never.
#[local] Arguments Str.is_digit : simpl never.
#[local] Arguments Str.is_space : simpl never.
#[local] Arguments Re.cset_mem : simpl never.

(** *** What a cleaned amount is made of *)

Definition amount_char (c : ascii) : Prop :=
  Str.is_digit c = true \/ c = ","%char \/ c = "."%char.

Lemma mem_items c its :
  Re.cset_mem false {| Re.negated := false; Re.items := its |} c = true ->
  Exists (fun it => Re.item_mem it c = true) its.
Proof.
  unfold Re.cset_mem. simpl. intros H. apply existsb_exists in H as (it & I & H).
  apply Exists_exists. exists it. split; [exact I|].
  unfold Re.item_mem_ic in H. simpl in H. now rewrite orb_false_r in H.
Qed.

Ltac amount_set :=
  let c := fresh "c" in
  let H := fresh "H" in
  intros c H; apply mem_items in H;
  repeat (apply Exists_cons in H; destruct H as [H|H]);
  [ .. | inversion H ];
  simpl in H;
  first [ left; exact H
        | right; left; symmetry; apply Ascii.eqb_eq; exact H
        | right; right; symmetry; apply Ascii.eqb_eq; exact H ].

Definition fallback_pattern : string := "[\d,]*\.?\d+".

Lemma amount_patterns_within pat :
  In pat (AmountParser.amount_patterns ++ [fallback_pattern]) ->
  exists p,
    Re.compile Re.no_flags pat = Some p /\
    ReFacts.within (Re.pflags p) amount_char (Re.ast p).
Proof.
  intros H. simpl in H.
  repeat (destruct H as [<-|H]); try contradiction;
    (eexists; split; [vm_compute; reflexivity|]);
    simpl; repeat split; amount_set.
Qed.

Lemma re_search_sound pat s m :
  In pat (AmountParser.amount_patterns ++ [fallback_pattern]) ->
  AmountParser.re_search pat s = Some m ->
  Forall amount_char (Re.m_text m).
Proof.
  intros I H. destruct (amount_patterns_within pat I) as (p & E & W).
  unfold AmountParser.re_search in H. rewrite E in H.
  exact (ReFacts.search_sound amount_char p s [] None m W H).
Qed.

Lemma first_match_sound pats s m :
  incl pats (AmountParser.amount_patterns ++ [fallback_pattern]) ->
  AmountParser.first_match pats s = Some m ->
  Forall amount_char m.
Proof.
  induction pats as [|pat pats IH]; intros I H; simpl in H; [discriminate|].
  destruct (AmountParser.re_search pat s) as [mo|] eqn:E.
  - injection H as <-. apply (re_search_sound pat s mo); [|exact E].
    apply I. now left.
  - apply IH; [|exact H]. intros x Hx. apply I. now right.
Qed.

Lemma clean_chars s cleaned :
  AmountParser._clean_amount_string s = Some cleaned ->
  Forall amount_char cleaned.
Proof.
  unfold AmountParser._clean_amount_string.
  match goal with
  | |- context [AmountParser.first_match _ ?x] => set (s' := x)
  end.
  intros H.
  destruct (AmountParser.first_match AmountParser.amount_patterns s') as [m|] eqn:E.
  - injection H as <-. apply (first_match_sound _ s' m) in E; [exact E|].
    apply incl_appl, incl_refl.
  - destruct (AmountParser.re_search "[\d,]*\.?\d+" s') as [mo|] eqn:F;
      [|discriminate].
    injection H as <-. apply (re_search_sound fallback_pattern s' mo); [|exact F].
    apply in_or_app. right. now left.
Qed.

(** *** The value read is not negative *)

Definition plain_char (c : ascii) : Prop :=
  Str.is_digit c = true \/ c = "."%char.

Lemma lstrip_forall (P : ascii -> Prop) u : Forall P u -> Forall P (Str.lstrip u).
Proof.
  induction 1 as [|c u Hc Hu IH]; simpl; [constructor|].
  destruct (Str.is_space c); [exact IH|now constructor].
Qed.

Lemma strip_forall (P : ascii -> Prop) u : Forall P u -> Forall P (Str.strip u).
Proof.
  intros H. unfold Str.strip, Str.rstrip.
  now apply Forall_rev, lstrip_forall, Forall_rev, lstrip_forall.
Qed.

Lemma split_sign_plain u :
  Forall plain_char u -> fst (Py.split_sign u) = false.
Proof.
  intros H. destruct u as [|c u]; [reflexivity|].
  inversion H as [|? ? Hc _]; subst. simpl.
  destruct (Ascii.eqb c "-") eqn:E.
  - apply Ascii.eqb_eq in E. subst c. destruct Hc as [Hc|Hc]; discriminate.
  - destruct (Ascii.eqb c "+"); reflexivity.
Qed.

Lemma scale_nonneg q e : (0 <= Qnum q)%Z -> (0 <= Qnum (Py.scale q e))%Z.
Proof.
  intros H. destruct e; simpl; [exact H| |]; apply Z.mul_nonneg_nonneg; lia.
Qed.

Lemma float_nonneg u q :
  Forall plain_char u -> Py.float u = Some q -> (0 <= Qnum q)%Z.
Proof.
  intros H. unfold Py.float.
  pose proof (split_sign_plain _ (strip_forall _ _ H)) as S.
  destruct (Py.split_sign (Str.strip u)) as [neg s1]. simpl in S. subst neg.
  destruct (Py.fraction _) as [fp s3].
  destruct (_ ++ fp) as [|d ds] eqn:E; [discriminate|].
  destruct (Py.exponent s3) as [e|]; [|discriminate].
  intros [= <-]. apply scale_nonneg. simpl. lia.
Qed.

Lemma round_half_even_nonneg q :
  (0 <= Qnum q)%Z -> (0 <= Py.round_half_even q)%Z.
Proof.
  intros H. unfold Py.round_half_even.
  assert (F : (0 <= Qnum q / Z.pos (Qden q))%Z) by (apply Z.div_pos; lia).
  repeat match goal with |- context [if ?b then _ else _] => destruct b end; lia.
Qed.

Lemma round_half_even_cents c :
  Py.round_half_even ((c # 100) * 100)%Q = c.
Proof.
  unfold Py.round_half_even. simpl Qnum. simpl Qden.
  change (Z.pos (100 * 1)) with 100%Z.
  rewrite Z.div_mul, Z.mod_mul by lia. reflexivity.
Qed.

(** *** Doubles read from digits and points *)

Lemma drop_c_space_plain u :
  Forall plain_char u -> Str.drop_while Py.c_space u = u.
Proof.
  intros H. destruct u as [|c u]; [reflexivity|].
  inversion H as [|? ? Hc _]; subst. simpl.
  assert (N : Py.c_space c = false).
  { destruct Hc as [Hc| ->]; [|reflexivity].
    pose proof (digit_not_space c Hc) as S.
    unfold Str.is_space in S. unfold Py.c_space.
    apply orb_false_iff in S as [S1 S2]. apply orb_false_iff in S1 as [S1 _].
    now rewrite S1, S2. }
  now rewrite N.
Qed.

Lemma digit_groups_plain u b :
  Forall plain_char u -> Py.digit_groups b u = Some u.
Proof.
  intros H. revert b. induction H as [|c u Hc Hu IH]; intros b; [reflexivity|].
  simpl.
  assert (N : Ascii.eqb c "_" = false).
  { destruct Hc as [Hc| ->]; [|reflexivity]. now apply digit_neq. }
  now rewrite N, IH.
Qed.

Lemma special_plain u : Forall plain_char u -> Py.special u = None.
Proof.
  intros H. unfold Py.special.
  pose proof (split_sign_plain u H) as S.
  destruct u as [|c u]; [reflexivity|].
  inversion H as [|? ? Hc _]; subst.
  assert (E : Py.split_sign (c :: u) = (false, c :: u)).
  { simpl in S |- *.
    destruct (Ascii.eqb c "-"); [discriminate|].
    destruct (Ascii.eqb c "+") eqn:P; [|reflexivity].
    apply Ascii.eqb_eq in P. subst c. destruct Hc as [Hc|Hc]; discriminate. }
  rewrite E. simpl Str.lower.
  assert (L : Str.char_lower c = c).
  { unfold Str.char_lower.
    destruct Hc as [Hc| ->]; [|reflexivity].
    assert (U : Str.is_upper c = false).
    { unfold Str.is_digit, Str.is_upper, Str.in_range in *.
      apply andb_true_iff in Hc as [_ Hc]. apply N.leb_le in Hc.
      apply andb_false_iff. left. apply N.leb_gt. lia. }
    now rewrite U. }
  rewrite L.
  assert (Ni : Ascii.eqb c "i" = false /\ Ascii.eqb c "n" = false).
  { destruct Hc as [Hc| ->]; [|split; reflexivity].
    split; now apply digit_neq. }
  destruct Ni as [Ni Nn].
  unfold Str.eqb. simpl. now rewrite Ni, Nn.
Qed.

(** On digits and points [float] is read as it was, up to overflow. *)
Lemma float64_plain u :
  Forall plain_char u ->
  Py.float64_of u = option_map Py.to_float64 (Py.float u).
Proof.
  intros H. unfold Py.float64_of.
  rewrite (drop_c_space_plain u H).
  rewrite (drop_c_space_plain (rev u)) by now apply Forall_rev.
  rewrite rev_involutive, (digit_groups_plain u false H), (special_plain u H).
  rewrite (strip_id u), Nat.eqb_refl.
  - destruct (Py.float u); reflexivity.
  - eapply Forall_impl; [|exact H].
    intros c [Hc| ->]; [now apply digit_not_space|reflexivity].
Qed.

Lemma no_commas_plain cleaned :
  Forall amount_char cleaned ->
  Forall plain_char (Str.replace (T ",") [] cleaned).
Proof.
  intros E. rewrite replace_comma. apply Forall_forall. intros c Hc.
  apply filter_In in Hc as [Hc Nc]. rewrite Forall_forall in E.
  destruct (E c Hc) as [D|[->| ->]]; [now left|discriminate|now right].
Qed.

Lemma to_float64_nonneg q :
  (0 <= Qnum q)%Z ->
  Py.to_float64 q = Py.Infinity false \/
  (Py.to_float64 q = Py.Finite q /\ (q < Py.overflow_bound)%Q).
Proof.
  intros H. unfold Py.to_float64.
  assert (A : Qabs q = q).
  { destruct q as [n d]. simpl in *. now rewrite Z.abs_eq. }
  rewrite A. destruct (Qle_bool Py.overflow_bound q) eqn:B.
  - left. unfold Py.is_neg.
    assert (N : (Qnum q <? 0)%Z = false) by now apply Z.ltb_ge.
    now rewrite N.
  - right. split; [reflexivity|].
    apply Qnot_le_lt. intros L. apply Qle_bool_iff in L. congruence.
Qed.

(** A parsed amount is a non-negative number of hundredths, or the
    positive infinity when the digits leave the range of a double. *)
Lemma parse_amount_cents s v :
  AmountParser.parse_amount s = Some v ->
  v = Py.Infinity false \/
  exists c, (0 <= c)%Z /\ v = Py.Finite (c # 100)%Q.
Proof.
  unfold AmountParser.parse_amount. destruct s as [|x s]; [discriminate|].
  destruct (AmountParser._clean_amount_string (x :: s)) as [cleaned|] eqn:E;
    [|discriminate].
  apply clean_chars in E.
  destruct cleaned as [|y cl]; [discriminate|].
  rewrite (float64_plain _ (no_commas_plain _ E)).
  destruct (Py.float _) as [q|] eqn:F; [|discriminate].
  apply (float_nonneg _ _ (no_commas_plain _ E)) in F.
  simpl option_map. intros [= <-].
  destruct (to_float64_nonneg q F) as [-> |[-> _]]; [now left|right].
  exists (Py.round_half_even (q * 100)%Q). split; [|reflexivity].
  apply round_half_even_nonneg. simpl Qnum.
  apply Z.mul_nonneg_nonneg; [exact F|lia].
Qed.

(** *** Reading a formatted amount back *)

Lemma parse_amount_of_clean s cleaned :
  s <> [] -> cleaned <> [] ->
  AmountParser._clean_amount_string s = Some cleaned ->
  AmountParser.parse_amount s =
  match Py.float64_of (Str.replace (T ",") [] cleaned) with
  | Some a => Some (Py.round_2 a)
  | None => None
  end.
Proof.
  intros Hs Hc H. unfold AmountParser.parse_amount.
  destruct s as [|x s]; [congruence|]. rewrite H.
  destruct cleaned; [congruence|reflexivity].
Qed.

(** [\d,] and [\d] of the first amount pattern *)
Definition DC : Re.cset :=
  {| Re.negated := false; Re.items := [Re.IDigit; Re.IChar ","] |}.
Definition D : Re.cset := {| Re.negated := false; Re.items := [Re.IDigit] |}.

Definition group_char (c : ascii) : Prop := Str.is_digit c = true \/ c = ","%char.

Lemma dc_mem c : group_char c -> Re.cset_mem false DC c = true.
Proof.
  intros [H| ->]; [|reflexivity].
  unfold Re.cset_mem, DC. simpl. unfold Re.item_mem_ic. simpl.
  now rewrite H.
Qed.

Lemma d_mem c : Str.is_digit c = true -> Re.cset_mem false D c = true.
Proof.
  intros H. unfold Re.cset_mem, D. simpl. unfold Re.item_mem_ic. simpl.
  now rewrite H.
Qed.

Lemma group_char_not_space c : group_char c -> Str.is_space c = false.
Proof. intros [H| ->]; [now apply digit_not_space|reflexivity]. Qed.

Section Formatted.
Variables (ds : text) (d1 d2 : ascii).
Hypothesis Hds : Forall (is_true Str.is_digit) ds.
Hypothesis Hne : ds <> [].
Hypothesis Hd1 : Str.is_digit d1 = true.
Hypothesis Hd2 : Str.is_digit d2 = true.

(** A formatted amount: grouped digits, a point, two digits. *)
Definition formatted : text := Py.group3 ds ++ ["."%char; d1; d2].

Lemma group_chars : Forall group_char (Py.group3 ds).
Proof.
  apply group3_chars; [now right|].
  eapply Forall_impl; [|exact Hds]. intros c Hc. now left.
Qed.

Lemma formatted_head :
  exists c rest, formatted = c :: rest /\ group_char c.
Proof.
  pose proof group_chars as G. unfold formatted.
  destruct (Py.group3 ds) as [|c g] eqn:E.
  - now apply group3_not_nil in E.
  - inversion G; subst. now exists c, (g ++ ["."%char; d1; d2]).
Qed.

Lemma formatted_strip : Str.strip formatted = formatted.
Proof.
  apply strip_id. unfold formatted. apply Forall_app. split.
  - eapply Forall_impl; [|exact group_chars]. apply group_char_not_space.
  - repeat constructor; try reflexivity; now apply digit_not_space.
Qed.

Lemma formatted_first_pattern :
  AmountParser.re_search "[\d,]+\.\d{2}" formatted
  = Some {| Re.m_before := []; Re.m_text := formatted;
            Re.m_after := []; Re.m_groups := [] |}.
Proof.
  unfold AmountParser.re_search.
  change (Re.compile Re.no_flags "[\d,]+\.\d{2}")
    with (Some {| Re.ast := Re.Seq (Re.Rep true 1 None DC)
                              (Re.Seq (Re.Chr (Re.lit "."))
                                      (Re.Rep true 2 (Some 2) D));
                  Re.ngroups := 0; Re.pflags := Re.no_flags |}).
  cbv iota beta.
  rewrite (ReFacts.search_at_start _ formatted ([], [])).
  - unfold Re.mobj_at. simpl length. rewrite Nat.sub_0_r, firstn_all.
    reflexivity.
  - unfold Re.match_here. simpl Re.ast. simpl Re.pflags. simpl Re.exec.
    unfold formatted. apply ReFacts.rep_greedy_run.
    + eapply Forall_impl; [|exact group_chars]. apply dc_mem.
    + pose proof (group3_not_nil ds Hne) as G.
      destruct (Py.group3 ds); [congruence|simpl; lia].
    + reflexivity.
    + change (Re.cset_mem (Re.ignorecase Re.no_flags) (Re.lit ".") ".") with true.
      cbv iota.
      rewrite (ReFacts.rep_exact Re.no_flags _ D [d1; d2] true _ []).
      * reflexivity.
      * repeat constructor; now apply d_mem.
Qed.

Lemma formatted_clean :
  AmountParser._clean_amount_string formatted = Some formatted.
Proof.
  unfold AmountParser._clean_amount_string. rewrite formatted_strip.
  destruct formatted_head as (c & rest & E & G).
  assert (S : Str.startswith (T "(") formatted = false).
  { rewrite E. simpl. destruct G as [G| ->]; [|reflexivity].
    rewrite Ascii.eqb_sym, (digit_neq c "(" G eq_refl). reflexivity. }
  rewrite S. simpl andb. cbv iota.
  unfold AmountParser.amount_patterns, AmountParser.first_match.
  now rewrite formatted_first_pattern.
Qed.

Lemma formatted_no_commas :
  Str.replace (T ",") [] formatted = ds ++ ["."%char; d1; d2].
Proof.
  rewrite replace_comma. unfold formatted. rewrite filter_app, group3_filter.
  - simpl. unfold not_comma.
    rewrite (Ascii.eqb_sym "," d1), (digit_neq d1 "," Hd1 eq_refl).
    rewrite (Ascii.eqb_sym "," d2), (digit_neq d2 "," Hd2 eq_refl).
    reflexivity.
  - eapply Forall_impl; [|exact Hds]. intros c Hc. unfold is_true, not_comma.
    now rewrite Ascii.eqb_sym, (digit_neq c "," Hc eq_refl).
Qed.

Lemma plain_float :
  Py.float (ds ++ ["."%char; d1; d2])
  = Some (Z.of_N (Str.digits_value (ds ++ [d1; d2])) # 100)%Q.
Proof.
  unfold Py.float.
  assert (St : Str.strip (ds ++ ["."%char; d1; d2]) = ds ++ ["."%char; d1; d2]).
  { apply strip_id, Forall_app. split.
    - eapply Forall_impl; [|exact Hds]. apply digit_not_space.
    - repeat constructor; try reflexivity; now apply digit_not_space. }
  rewrite St.
  assert (Sg : Py.split_sign (ds ++ ["."%char; d1; d2])
               = (false, ds ++ ["."%char; d1; d2])).
  { destruct ds as [|c ds']; [congruence|].
    inversion Hds as [|? ? Hc _]; subst. simpl.
    now rewrite (digit_neq c "-" Hc eq_refl), (digit_neq c "+" Hc eq_refl). }
  rewrite Sg.
  destruct (take_drop_digits ds ["."%char; d1; d2] Hds eq_refl) as [-> ->].
  unfold Py.fraction. change (Ascii.eqb "." ".") with true. cbv iota.
  simpl Str.take_while. simpl Str.drop_while. rewrite Hd1, Hd2.
  destruct ds as [|c ds']; [congruence|]. reflexivity.
Qed.

Lemma written_plain : Forall plain_char (ds ++ ["."%char; d1; d2]).
Proof.
  apply Forall_app. split.
  - eapply Forall_impl; [|exact Hds]. intros c Hc. now left.
  - constructor; [now right|]. constructor; [now left|].
    constructor; [now left|constructor].
Qed.

Lemma formatted_parses :
  (Z.of_N (Str.digits_value (ds ++ [d1; d2])) # 100 < Py.overflow_bound)%Q ->
  AmountParser.parse_amount formatted
  = Some (Py.Finite (Z.of_N (Str.digits_value (ds ++ [d1; d2])) # 100)%Q).
Proof.
  intros B.
  assert (Ne : formatted <> []).
  { destruct formatted_head as (c & rest & E & _). rewrite E. discriminate. }
  rewrite (parse_amount_of_clean formatted formatted Ne Ne formatted_clean).
  rewrite formatted_no_commas, (float64_plain _ written_plain), plain_float.
  simpl option_map.
  destruct (to_float64_nonneg
              (Z.of_N (Str.digits_value (ds ++ [d1; d2])) # 100)%Q)
    as [I|[-> _]]; [simpl; lia| |].
  - exfalso. unfold Py.to_float64 in I.
    destruct (Qle_bool _ _) eqn:L in I; [|discriminate].
    apply Qle_bool_iff in L. rewrite Qabs_pos in L by (unfold Qle; simpl; lia).
    apply (Qlt_irrefl Py.overflow_bound). eapply Qle_lt_trans; eassumption.
  - simpl. unfold Py.round2. now rewrite round_half_even_cents.
Qed.
End Formatted.

Lemma format_cents c :
  (0 <= c)%Z ->
  AmountParser.format_amount (Py.Finite (c # 100)) false
  = formatted (Str.digits_of (Z.to_N c / 100))
              (Str.digit_char ((Z.to_N c mod 100) / 10))
              (Str.digit_char (Z.to_N c mod 10)).
Proof.
  intros H.
  unfold AmountParser.format_amount, Py.format_comma_2f_64, Py.fabs,
    Py.negative, Py.format_comma_2f, formatted.
  assert (A : Qabs (c # 100) = (c # 100)%Q).
  { simpl. now rewrite Z.abs_eq. }
  rewrite !A, round_half_even_cents.
  assert (N : Py.is_neg (c # 100) = false).
  { unfold Py.is_neg. simpl. now apply Z.ltb_ge. }
  rewrite N. reflexivity.
Qed.

Lemma cents_digits n :
  Str.digits_value
    (Str.digits_of (n / 100)
       ++ [Str.digit_char ((n mod 100) / 10); Str.digit_char (n mod 10)]) = n.
Proof.
  destruct (digits_of_spec (n / 100)) as (V & _ & _).
  assert (H1 : ((n mod 100) / 10 < 10)%N).
  { apply N.Div0.div_lt_upper_bound.
    pose proof (N.mod_lt n 100). lia. }
  assert (H2 : (n mod 10 < 10)%N) by (apply N.mod_lt; lia).
  destruct (digit_char_spec _ H1) as [_ V1].
  destruct (digit_char_spec _ H2) as [_ V2].
  change (?a ++ [?x; ?y]) with (a ++ [x] ++ [y]).
  rewrite app_assoc, !digits_value_snoc, V, V1, V2.
  zify. Z.to_euclidean_division_equations. lia.
Qed.

(** Formatting a non-negative number of hundredths and parsing it again
    gives the number back. *)
Lemma roundtrip_cents c :
  (0 <= c)%Z ->
  (c # 100 < Py.overflow_bound)%Q ->
  AmountParser.parse_amount (AmountParser.format_amount (Py.Finite (c # 100)) false)
  = Some (Py.Finite (c # 100)%Q).
Proof.
  intros H B. rewrite (format_cents c H).
  destruct (digits_of_spec (Z.to_N c / 100)) as (_ & Dg & Ne).
  assert (H1 : ((Z.to_N c mod 100) / 10 < 10)%N).
  { apply N.Div0.div_lt_upper_bound.
    pose proof (N.mod_lt (Z.to_N c) 100). lia. }
  assert (H2 : (Z.to_N c mod 10 < 10)%N) by (apply N.mod_lt; lia).
  rewrite formatted_parses;
    try (apply digit_char_spec; assumption); try assumption;
    rewrite cents_digits, Z2N.id by exact H; [reflexivity|exact B].
Qed.

End AmountRoundTrip.

(** C8 (counterexample).  A run of 310 nines is an amount string
    [parse_amount] succeeds on: its digits are beyond the range of a double,
    and the value returned is the positive infinity.  [format_amount] writes
    that value as "inf", which [parse_amount] does not read: the round trip
    gives no value. *)
Lemma roundtrip_fails_on_overflow :
  AmountParser.parse_amount (repeat "9"%char 310) = Some (Py.Infinity false) /\
  AmountParser.format_amount (Py.Infinity false) false = T "inf" /\
  AmountParser.parse_amount
    (AmountParser.format_amount (Py.Infinity false) false) = None.
Proof. repeat split; vm_compute; reflexivity. Qed.

(** C8 (amended).  Whenever [parse_amount] returns a finite value, below
    the overflow bound of a double, formatting that value with
    [format_amount] and parsing the result again yields the same number: the
    value is a non-negative number of hundredths, its formatted text is
    matched whole by the first amount pattern, and the digits read back are
    the digits written. *)
Theorem parse_format_roundtrip :
  forall (s : text) (v : Q),
    AmountParser.parse_amount s = Some (Py.Finite v) ->
    (v < Py.overflow_bound)%Q ->
    AmountParser.parse_amount (AmountParser.format_amount (Py.Finite v) false)
    = Some (Py.Finite v).
Proof.
  intros s v H B.
  destruct (AmountRoundTrip.parse_amount_cents s _ H) as [I|(c & Hc & E)];
    [discriminate|].
  injection E as ->.
  now apply AmountRoundTrip.roundtrip_cents.
Qed.

Lemma parse_format_roundtrip_witness :
  AmountParser.parse_amount (T " Rs 1,234.5 ") = Some (Py.Finite (123450 # 100)%Q) /\
  AmountParser.parse_amount
    (AmountParser.format_amount (Py.Finite (123450 # 100)%Q) false)
  = Some (Py.Finite (123450 # 100)%Q).
Proof.
  assert (H : AmountParser.parse_amount (T " Rs 1,234.5 ")
              = Some (Py.Finite (123450 # 100)%Q))
    by (vm_compute; reflexivity).
  split; [exact H|].
  apply (parse_format_roundtrip (T " Rs 1,234.5 ") (123450 # 100)%Q H).
  vm_compute. reflexivity.
Defined.

(** ** Further properties of the pipeline *)

(** The amount normaliser never returns a negative number: the sign a
    string carries, in front or as parentheses, is not read.  The value is
    a finite number that is not negative, or the positive infinity; it is
    never NaN. *)
Theorem parse_amount_never_negative :
  forall (s : text) (v : Py.float64),
    AmountParser.parse_amount s = Some v ->
    match v with
    | Py.Finite q => (0 <= q)%Q
    | Py.Infinity negative => negative = false
    | Py.NaN => False
    end.
Proof.
  intros s v H.
  destruct (AmountRoundTrip.parse_amount_cents s v H) as [-> |(c & Hc & ->)];
    [reflexivity|].
  unfold Qle. simpl. lia.
Qed.

Lemma parse_amount_never_negative_witness :
  (0 <= 125 # 100)%Q.
Proof.
  apply (parse_amount_never_negative (T "-1.25") (Py.Finite (125 # 100)%Q)).
  vm_compute. reflexivity.
Defined.

(** The end-to-end scenario of the parser: one generic line gives one
    transaction, with its date parsed, its amount normalised and its
    description cleaned. *)
Theorem end_to_end_parse_scenario :
  forall dateutil pd,
    map (fun t => (date t, description t, amount t, type_ t))
        (fst (TransactionParser.parse_transactions RegexPatterns.default_compiled
                dateutil pd (T "15/03/2024 NEFT from John Doe 5000.00 CR")
                (T "generic")))
    = [(DateObj {| year := 2024; month := 3; day := 15 |},
        T "NEFT from John Doe", Some (Py.Finite (500000 # 100)%Q), T "CR")].
Proof. intros du pd. vm_compute. reflexivity. Qed.

(** The cash withdrawal scenario of the rule engine: the exact keyword
    stage answers, and the confidence is that of a whole-word match. *)
Theorem atm_withdrawal_scenario :
  forall similarity,
    RuleEngine.categorize_transaction RuleEngine._get_default_categories
      similarity (T "ATM Cash Withdrawal") 2000 (T "DR") false
    = T "cash_withdrawal" /\
    RuleEngine._calculate_confidence RuleEngine._get_default_categories
      (T "ATM Cash Withdrawal") (T "cash_withdrawal") = (9 # 10)%Q.
Proof. intros sim. split; vm_compute; reflexivity. Qed.

(** ** Lines that do not start with a date *)

Module LeadingFacts.
Import Re.

#[local] Arguments Re.cset_mem : simpl never.

(** The character set the first character of a match must belong to, for
    an expression that begins, after [^] and group openings, with a
    character or a repetition that cannot be empty. *)
Fixpoint leading (r : re) : option cset :=
  match r with
  | Chr cs => Some cs
  | Rep _ (S _) _ cs => Some cs
  | Seq a b =>
      match a with
      | Bol => leading b
      | _ => leading a
      end
  | Grp _ a => leading a
  | _ => None
  end.

Lemma leading_fails (fl : flags) (R : Type) (r : re) :
  forall pv c s cs (k : option ascii -> text -> captures -> option R) lead,
    leading r = Some lead ->
    cset_mem (ignorecase fl) lead c = false ->
    exec fl r pv (c :: s) cs k = None.
Proof.
  induction r as [|x|a IHa b IHb|a IHa b IHb|g lo hi x|i a IHa| | |];
    intros pv c s cs k lead L M; simpl in L; try discriminate.
  - injection L as ->. simpl. now rewrite M.
  - simpl. destruct a; try (now apply (IHa _ _ _ _ _ lead L M)); try discriminate.
    simpl. destruct (at_bol (multiline fl) pv); [|reflexivity].
    now apply (IHb _ _ _ _ _ lead L M).
  - destruct lo as [|lo]; [discriminate|]. injection L as ->.
    simpl. now rewrite M.
  - simpl. now apply (IHa _ _ _ _ _ lead L M).
Qed.

Definition digit_set : cset := {| negated := false; items := [IDigit] |}.

Definition starts_with_digits (p : pattern) : bool :=
  match leading (ast p) with
  | Some {| negated := false; items := [IDigit] |} => true
  | _ => false
  end.

Lemma starts_with_digits_leading p :
  starts_with_digits p = true -> leading (ast p) = Some digit_set.
Proof.
  unfold starts_with_digits. destruct (leading (ast p)) as [[[] its]|]; try discriminate.
  destruct its as [|[] [|? ?]]; try discriminate. reflexivity.
Qed.

Lemma case_keeps_non_digits c :
  Str.is_digit c = false ->
  Str.is_digit (Str.char_lower c) = false /\ Str.is_digit (Str.char_upper c) = false.
Proof.
  intros H. unfold Str.char_lower, Str.char_upper. split.
  - destruct (Str.is_upper c) eqn:U; [|exact H].
    unfold Str.is_upper, Str.is_digit, Str.in_range in *.
    apply andb_prop in U as [U1 U2]. apply N.leb_le in U1. apply N.leb_le in U2.
    unfold Str.code. rewrite N_ascii_embedding by (unfold Str.code in *; lia).
    apply andb_false_iff. right. apply N.leb_gt. unfold Str.code in *. lia.
  - destruct (Str.is_lower c) eqn:U; [|exact H].
    unfold Str.is_lower, Str.is_digit, Str.in_range in *.
    apply andb_prop in U as [U1 U2]. apply N.leb_le in U1. apply N.leb_le in U2.
    unfold Str.code. rewrite N_ascii_embedding by (unfold Str.code in *; lia).
    apply andb_false_iff. right. apply N.leb_gt. unfold Str.code in *. lia.
Qed.

Lemma non_digit_not_member ic c :
  Str.is_digit c = false -> cset_mem ic digit_set c = false.
Proof.
  intros H. destruct (case_keeps_non_digits c H) as [L U].
  unfold cset_mem, digit_set, item_mem_ic. simpl.
  rewrite H, L, U. now destruct ic.
Qed.

Lemma first_groups_need_digit ps c s :
  forallb starts_with_digits ps = true ->
  Str.is_digit c = false ->
  RegexPatterns.first_groups ps (c :: s) = None.
Proof.
  intros A H. induction ps as [|p ps IH]; [reflexivity|].
  simpl in A. apply andb_prop in A as [Ap Aps]. simpl.
  unfold rmatch, match_here.
  rewrite (leading_fails (pflags p) _ (ast p) None c s [] _ digit_set
             (starts_with_digits_leading p Ap)
             (non_digit_not_member _ c H)).
  simpl. now apply IH.
Qed.

End LeadingFacts.

(** With the default patterns, an ASCII line whose first character after
    stripping is not a digit - a line that does not begin with a date -
    matches no pattern, whatever the bank type.  (Outside ASCII, Python
    strips more kinds of white space and knows more digits.) *)
Theorem line_without_leading_date_never_matches :
  forall (line bank : text),
    Forall (fun c => Str.is_ascii c = true) line ->
    match Str.strip line with
    | c :: _ => Str.is_digit c = false
    | [] => True
    end ->
    RegexPatterns.match_transaction RegexPatterns.default_compiled line bank = None.
Proof.
  intros line bank _ H.
  assert (G : forall k,
             forallb LeadingFacts.starts_with_digits
               (RegexPatterns.get_patterns RegexPatterns.default_compiled k) = true).
  { intros k. unfold RegexPatterns.get_patterns.
    destruct (Dict.get k RegexPatterns.default_compiled) as [ps|] eqn:E;
      [|reflexivity].
    apply ParseFacts.get_in in E.
    assert (A : forallb (forallb LeadingFacts.starts_with_digits)
                  (map snd RegexPatterns.default_compiled) = true)
      by (vm_compute; reflexivity).
    rewrite forallb_forall in A. now apply A. }
  unfold RegexPatterns.match_transaction.
  destruct (Str.strip line) as [|c s]; [reflexivity|].
  destruct (length (c :: s) <? 10); [reflexivity|].
  apply LeadingFacts.first_groups_need_digit; [|exact H].
  rewrite forallb_app, !G. reflexivity.
Qed.

Lemma line_without_leading_date_never_matches_witness :
  RegexPatterns.match_transaction RegexPatterns.default_compiled
    (T "Opening balance 5000.00 CR") (T "sbi") = None.
Proof.
  apply line_without_leading_date_never_matches.
  - repeat constructor.
  - vm_compute. reflexivity.
Defined.

(* ================================================================== *)
(** * Part XV.  Reports, categories, statistics, patterns and dates   *)
(* ================================================================== *)

(** ** Ledger reports (ledger_manager.py) *)

Module ReportFacts.
Import LedgerManager.
Local Open Scope Q_scope.

(** The keys of a dictionary are pairwise distinct. *)
Definition unique_keys {V : Type} (d : Dict.dict V) : Prop := NoDup (map fst d).

Lemma get_none_not_in {V : Type} (k : text) (d : Dict.dict V) :
  Dict.get k d = None -> ~ In k (map fst d).
Proof.
  induction d as [|[k2 v2] d IH]; simpl; [tauto|].
  destruct (Str.eqb k k2) eqn:E; [discriminate|].
  intros H [->|I]; [|now apply IH].
  now rewrite str_eqb_refl in E.
Qed.

Lemma keys_set {V : Type} (k : text) (v : V) (d : Dict.dict V) :
  map fst (Dict.set k v d) =
  if Dict.mem k d then map fst d else map fst d ++ [k].
Proof.
  unfold Dict.mem. induction d as [|[k2 v2] d IH]; simpl; [reflexivity|].
  destruct (Str.eqb k k2) eqn:E; simpl; [reflexivity|].
  rewrite IH. now destruct (Dict.get k d).
Qed.

Lemma unique_set {V : Type} (k : text) (v : V) (d : Dict.dict V) :
  unique_keys d -> unique_keys (Dict.set k v d).
Proof.
  unfold unique_keys. intros H. rewrite keys_set. unfold Dict.mem.
  destruct (Dict.get k d) eqn:G; [exact H|].
  apply get_none_not_in in G.
  apply NoDup_rev in H. rewrite <- (rev_involutive (map fst d ++ [k])).
  apply NoDup_rev. rewrite rev_app_distr. simpl. constructor; [|exact H].
  now rewrite <- in_rev.
Qed.

Lemma get_unique {V : Type} (k : text) (v : V) (d : Dict.dict V) :
  unique_keys d -> In (k, v) d -> Dict.get k d = Some v.
Proof.
  unfold unique_keys. induction d as [|[k2 v2] d IH]; simpl; intros N I; [destruct I|].
  inversion N as [|? ? Nk Nd]; subst.
  destruct I as [[= -> ->]|I].
  - now rewrite str_eqb_refl.
  - destruct (Str.eqb k k2) eqn:E; [|now apply IH].
    apply str_eqb_eq in E. subst k2. exfalso. apply Nk.
    apply (in_map fst) in I. exact I.
Qed.

(** Every account of the ledger holds a posting. *)
Definition populated (l : ledger) : Prop := Forall (fun a => snd a <> []) l.

Lemma populated_set k v (l : ledger) :
  v <> [] -> populated l -> populated (Dict.set k v l).
Proof.
  intros Hv. unfold populated. induction l as [|[k2 v2] l IH]; simpl; intros H.
  - repeat constructor. exact Hv.
  - inversion H; subst. destruct (Str.eqb k k2); constructor; auto.
Qed.

Lemma append_posting_invariants k p l :
  unique_keys l -> populated l ->
  unique_keys (append_posting k p l) /\ populated (append_posting k p l).
Proof.
  intros U P. rewrite LedgerFacts.append_posting_unfold. split.
  - now apply unique_set.
  - apply populated_set; [|exact P]. intros E. now apply app_eq_nil in E as [_ E].
Qed.

Lemma update_ledger_invariants entries :
  forall l, unique_keys l -> populated l ->
    unique_keys (update_ledger l entries) /\ populated (update_ledger l entries).
Proof.
  induction entries as [|e es IH]; intros l U P; simpl; [now split|].
  apply IH; unfold _process_journal_entry.
  - apply append_posting_invariants; apply append_posting_invariants; assumption.
  - apply append_posting_invariants; apply append_posting_invariants; assumption.
Qed.

Lemma balanced_flag (d c : Q) :
  d == c -> negb (Qle_bool (1 # 100) (Qabs (d - c))) = true.
Proof.
  intros H. apply negb_true_iff. destruct (Qle_bool _ _) eqn:B; [|reflexivity].
  apply Qle_bool_iff in B.
  assert (Z : d - c == 0) by (rewrite H; ring).
  rewrite Z in B. unfold Qle in B. simpl in B. lia.
Qed.

(** *** Running balances *)

Lemma running_rows ps : forall o, map fst (running_balance o ps) = ps.
Proof. induction ps as [|p ps IH]; intros o; simpl; [reflexivity|]. now rewrite IH. Qed.

Lemma running_last ps :
  forall o p0 d,
    snd (last (running_balance o (p0 :: ps)) d)
    == o + sum_debit (p0 :: ps) - sum_credit (p0 :: ps).
Proof.
  induction ps as [|p ps IH]; intros o p0 d.
  - simpl. ring.
  - change (running_balance o (p0 :: p :: ps))
      with ((p0, o + (p_debit p0 - p_credit p0))
              :: running_balance (o + (p_debit p0 - p_credit p0)) (p :: ps)).
    change (last (?x :: running_balance ?b (p :: ps)) d)
      with (last (running_balance b (p :: ps)) d).
    rewrite IH.
    change (sum_debit (p0 :: p :: ps)) with (p_debit p0 + sum_debit (p :: ps)).
    change (sum_credit (p0 :: p :: ps)) with (p_credit p0 + sum_credit (p :: ps)).
    ring.
Qed.


Definition opening (ob : opening_balances) (k : text) : Q :=
  match Dict.get k ob with Some b => b | None => 0 end.

Lemma single_ledger_of (l : ledger) ob k ps :
  unique_keys l -> In (k, ps) l ->
  _get_single_ledger l ob k = running_balance (opening ob k) ps.
Proof.
  intros U I. unfold _get_single_ledger. now rewrite (get_unique k ps l U I).
Qed.

(** *** The trial balance *)

(** The rows the trial balance derives from the accounts [part] of the
    ledger [whole]. *)
Definition rows_of (whole : ledger) (ob : opening_balances) (part : ledger)
  : list trial_balance_row :=
  flat_map
    (fun a =>
       let account_name := fst a in
       let ledger_df := _get_single_ledger whole ob account_name in
       match ledger_df with
       | [] => []
       | first :: _ =>
           let total_debit := sum_debit (map fst ledger_df) in
           let total_credit := sum_credit (map fst ledger_df) in
           let closing_balance := snd (last ledger_df first) in
           [ {| tb_account := account_name;
                debit_total := total_debit;
                credit_total := total_credit;
                closing_balance := closing_balance;
                balance_type :=
                  if negb (Qle_bool closing_balance 0)
                  then T "Debit" else T "Credit" |} ]
       end)
    part.

Lemma rows_of_cons whole ob k p0 ps part :
  unique_keys whole -> In (k, p0 :: ps) whole ->
  exists r,
    rows_of whole ob ((k, p0 :: ps) :: part) = r :: rows_of whole ob part /\
    tb_account r = k /\
    debit_total r = sum_debit (p0 :: ps) /\
    credit_total r = sum_credit (p0 :: ps) /\
    closing_balance r == opening ob k + sum_debit (p0 :: ps) - sum_credit (p0 :: ps) /\
    balance_type r =
      (if negb (Qle_bool (closing_balance r) 0) then T "Debit" else T "Credit").
Proof.
  intros U I. unfold rows_of.
  change (flat_map ?f ((k, p0 :: ps) :: part))
    with (f (k, p0 :: ps) ++ flat_map f part).
  cbv beta zeta. cbn [fst].
  rewrite (single_ledger_of whole ob k (p0 :: ps) U I).
  pose proof (running_rows (p0 :: ps) (opening ob k)) as Rows.
  destruct (running_balance (opening ob k) (p0 :: ps)) as [|first rest] eqn:R;
    [discriminate|].
  eexists. split; [reflexivity|].
  cbn [tb_account debit_total credit_total closing_balance balance_type].
  rewrite Rows.
  split; [reflexivity|]. split; [reflexivity|]. split; [reflexivity|].
  split; [|reflexivity].
  rewrite <- R. apply running_last.
Qed.

Lemma trial_rows (whole : ledger) ob :
  unique_keys whole ->
  forall part, incl part whole -> populated part ->
    map tb_account (rows_of whole ob part) = map fst part /\
    qsum (map debit_total (rows_of whole ob part)) == total_debits part /\
    qsum (map credit_total (rows_of whole ob part)) == total_credits part /\
    qsum (map closing_balance (rows_of whole ob part))
    == qsum (map (opening ob) (map fst part)) + total_debits part - total_credits part.
Proof.
  intros U part. induction part as [|[k ps] part IH]; intros I P.
  - simpl. repeat split; try reflexivity; ring.
  - inversion P as [|? ? Hps Hpart]; subst. simpl in Hps.
    destruct (IH (fun x Hx => I x (or_intror Hx)) Hpart) as (A & B & C & D).
    destruct ps as [|p0 ps]; [congruence|].
    destruct (rows_of_cons whole ob k p0 ps part U (I _ (or_introl eq_refl)))
      as (r & -> & Ra & Rd & Rc & Rb & _).
    rewrite !map_cons. cbn [fst].
    change (qsum (?x :: ?t)) with (x + qsum t).
    change (total_debits ((k, p0 :: ps) :: part))
      with (sum_debit (p0 :: ps) + total_debits part).
    change (total_credits ((k, p0 :: ps) :: part))
      with (sum_credit (p0 :: ps) + total_credits part).
    rewrite Ra, Rd, Rc, Rb, A, B, C, D. repeat split; try reflexivity. ring.
Qed.

Lemma trial_balance_rows (l : ledger) ob :
  unique_keys l -> populated l ->
  map tb_account (get_trial_balance l ob) = Dict.keys l /\
  qsum (map debit_total (get_trial_balance l ob)) == total_debits l /\
  qsum (map credit_total (get_trial_balance l ob)) == total_credits l /\
  qsum (map closing_balance (get_trial_balance l ob))
  == qsum (map (opening ob) (Dict.keys l)) + total_debits l - total_credits l.
Proof.
  intros U P. exact (trial_rows l ob U l (incl_refl l) P).
Qed.

Lemma update_ledger_count entries :
  forall l, count_postings (update_ledger l entries)
            = (count_postings l + 2 * length entries)%nat.
Proof.
  induction entries as [|e es IH]; intros l; simpl; [lia|].
  rewrite IH. unfold _process_journal_entry.
  rewrite !LedgerFacts.count_append. lia.
Qed.

End ReportFacts.

(** ** Amount strings of generated entries read by the two amount readers *)

Module SymbolFacts.
Import AmountFacts.

#[local] Arguments Ascii.eqb : simpl never.
#[local] Arguments Str.is_digit : simpl never.
#[local] Arguments Str.is_space : simpl never.

Lemma lstrip_snoc c l :
  Str.is_space c = false -> exists l', Str.lstrip (l ++ [c]) = l' ++ [c].
Proof.
  intros H. induction l as [|x l IH]; simpl.
  - rewrite H. now exists [].
  - destruct (Str.is_space x); [exact IH|]. now exists (x :: l).
Qed.

(** Stripping keeps a first character that is not white space. *)
Lemma strip_head c s :
  Str.is_space c = false -> exists s', Str.strip (c :: s) = c :: s'.
Proof.
  intros H. unfold Str.strip, Str.rstrip. simpl Str.lstrip. rewrite H.
  simpl rev. destruct (lstrip_snoc c (rev s) H) as (l' & ->).
  exists (rev l'). now rewrite rev_app_distr.
Qed.

(** [float] raises on a string whose first character, white space apart,
    is neither a digit, a sign nor a point. *)
Lemma float_bad_head c s :
  Str.is_space c = false -> Str.is_digit c = false ->
  Ascii.eqb c "-" = false -> Ascii.eqb c "+" = false -> Ascii.eqb c "." = false ->
  Py.float (c :: s) = None.
Proof.
  intros Hs Hd Hm Hp Hdot. unfold Py.float.
  destruct (strip_head c s Hs) as (s' & ->).
  unfold Py.split_sign. rewrite Hm, Hp.
  simpl Str.take_while. rewrite Hd. simpl Str.drop_while. rewrite Hd.
  unfold Py.fraction. rewrite Hdot. reflexivity.
Qed.

(** Replacing [old] leaves alone a text that holds no first character of
    it. *)
Lemma replace_from_absent c0 old new s :
  Forall (fun c => Ascii.eqb c0 c = false) s ->
  Str.replace_from 0 (c0 :: old) new s = s.
Proof.
  induction 1 as [|c s Hc Hs IH]; [reflexivity|].
  simpl. rewrite Hc. simpl. now rewrite IH.
Qed.

(** The first byte of the rupee sign *)
Definition rupee_head : ascii := ascii_of_nat 226.

Lemma ledger_keeps_rupee x :
  exists r,
    Str.replace (T ",") []
      (Str.replace LedgerManager.stripped_symbol []
         (JournalEntryGenerator.rupee ++ x)) = rupee_head :: r.
Proof.
  rewrite replace_comma.
  change (Str.replace LedgerManager.stripped_symbol []
            (JournalEntryGenerator.rupee ++ x))
    with (rupee_head
            :: Str.replace_from 0 LedgerManager.stripped_symbol []
                 (ascii_of_nat 130 :: ascii_of_nat 185 :: x)).
  simpl filter. change (not_comma rupee_head) with true. cbv iota.
  eexists. reflexivity.
Qed.

(** The ledger's reader gives 0 for every string that starts with the
    rupee sign. *)
Lemma ledger_reads_zero x :
  LedgerManager._parse_amount (JournalEntryGenerator.rupee ++ x) = 0%Q.
Proof.
  unfold LedgerManager._parse_amount.
  destruct (ledger_keeps_rupee x) as (r & ->).
  now rewrite float_bad_head.
Qed.

Lemma digit_not_rupee c :
  Str.is_digit c = true -> Ascii.eqb rupee_head c = false.
Proof.
  intros H. rewrite Ascii.eqb_sym. now apply digit_neq.
Qed.

Lemma generator_strips_rupee ds d1 d2 :
  Forall (is_true Str.is_digit) ds ->
  Str.is_digit d1 = true -> Str.is_digit d2 = true ->
  Str.replace JournalEntryGenerator.rupee []
    (JournalEntryGenerator.rupee ++ AmountRoundTrip.formatted ds d1 d2)
  = AmountRoundTrip.formatted ds d1 d2.
Proof.
  intros Hds H1 H2.
  change (Str.replace JournalEntryGenerator.rupee []
            (JournalEntryGenerator.rupee ++ AmountRoundTrip.formatted ds d1 d2))
    with (Str.replace_from 0 JournalEntryGenerator.rupee []
            (AmountRoundTrip.formatted ds d1 d2)).
  apply (replace_from_absent rupee_head). unfold AmountRoundTrip.formatted.
  apply Forall_app. split.
  - eapply Forall_impl; [|exact (AmountRoundTrip.group_chars ds Hds)].
    intros c [Hc| ->]; [now apply digit_not_rupee|reflexivity].
  - repeat constructor; try reflexivity; now apply digit_not_rupee.
Qed.

Lemma nonneg_format (a : Q) :
  (0 <= a)%Q ->
  Py.format_comma_2f a
  = AmountRoundTrip.formatted
      (Str.digits_of (Z.to_N (Py.round_half_even (a * 100)%Q) / 100))
      (Str.digit_char ((Z.to_N (Py.round_half_even (a * 100)%Q) mod 100) / 10))
      (Str.digit_char (Z.to_N (Py.round_half_even (a * 100)%Q) mod 10)).
Proof.
  intros H. unfold Py.format_comma_2f, AmountRoundTrip.formatted.
  assert (N : (0 <= Qnum a)%Z).
  { unfold Qle in H. simpl in H. lia. }
  assert (A : Qabs a = a).
  { destruct a as [n d]. simpl in *. now rewrite Z.abs_eq. }
  assert (Ng : Py.is_neg a = false).
  { unfold Py.is_neg. now apply Z.ltb_ge. }
  rewrite A, Ng. reflexivity.
Qed.

(** The generator's reader gives back the amount its formatter wrote,
    rounded to hundredths. *)
Lemma generator_reads_back (a : Q) :
  (0 <= a)%Q ->
  JournalEntryGenerator._parse_amount
    (JournalEntryGenerator._format_amount
       JournalEntryGenerator._get_default_accounting_rules a)
  = Py.round2 a.
Proof.
  intros H.
  unfold JournalEntryGenerator._format_amount, JournalEntryGenerator._parse_amount.
  simpl currency_symbol. rewrite (nonneg_format a H).
  set (c := Z.to_N (Py.round_half_even (a * 100)%Q)).
  destruct (digits_of_spec (c / 100)) as (_ & Dg & Ne).
  assert (H1 : ((c mod 100) / 10 < 10)%N).
  { apply N.Div0.div_lt_upper_bound. pose proof (N.mod_lt c 100). lia. }
  assert (H2 : (c mod 10 < 10)%N) by (apply N.mod_lt; lia).
  destruct (digit_char_spec _ H1) as [D1 _].
  destruct (digit_char_spec _ H2) as [D2 _].
  rewrite generator_strips_rupee by assumption.
  rewrite AmountRoundTrip.formatted_no_commas by assumption.
  rewrite AmountRoundTrip.plain_float by assumption.
  rewrite AmountRoundTrip.cents_digits. unfold c, Py.round2.
  rewrite Z2N.id; [reflexivity|].
  apply AmountRoundTrip.round_half_even_nonneg. simpl.
  unfold Qle in H. simpl in H. lia.
Qed.

End SymbolFacts.

(** The amount string the generator writes for a non-negative amount, with
    the default currency symbol, is read back by the generator's own
    [_parse_amount] as that amount rounded to hundredths; so are the two
    sides of every generated entry. *)
Theorem generator_amount_roundtrip :
  forall (a : Q),
    (0 <= a)%Q ->
    JournalEntryGenerator._parse_amount
      (JournalEntryGenerator._format_amount
         JournalEntryGenerator._get_default_accounting_rules a) = Py.round2 a /\
    (forall am (transaction : txn_dict) (category : text),
        t_amount transaction = Some a ->
        let e := JournalEntryGenerator.generate_journal_entry am
                   JournalEntryGenerator._get_default_accounting_rules
                   transaction category in
        JournalEntryGenerator._parse_amount (debit_amount e) = Py.round2 a /\
        JournalEntryGenerator._parse_amount (credit_amount e) = Py.round2 a).
Proof.
  intros a H. split; [now apply SymbolFacts.generator_reads_back|].
  intros am t c Ha e.
  destruct (entry_sides am JournalEntryGenerator._get_default_accounting_rules t c)
    as [E1 E2].
  fold e in E1, E2. rewrite <- E1, E2, Ha.
  split; now apply SymbolFacts.generator_reads_back.
Qed.

Lemma generator_amount_roundtrip_witness :
  (0 <= 1234567 # 1000)%Q /\
  JournalEntryGenerator._parse_amount
    (JournalEntryGenerator._format_amount
       JournalEntryGenerator._get_default_accounting_rules (1234567 # 1000))
  = (123457 # 100)%Q.
Proof.
  assert (H : (0 <= 1234567 # 1000)%Q) by (unfold Qle; simpl; lia).
  split; [exact H|].
  rewrite (proj1 (generator_amount_roundtrip (1234567 # 1000) H)).
  reflexivity.
Defined.

Module ZeroFacts.
Import LedgerManager.

Definition zero_posting (p : posting) : Prop := p_debit p = 0%Q /\ p_credit p = 0%Q.
Definition zero_ledger (l : ledger) : Prop :=
  Forall (fun a => Forall zero_posting (snd a)) l.

Lemma zero_old l k : zero_ledger l -> Forall zero_posting (LedgerFacts.old l k).
Proof.
  intros Z. unfold LedgerFacts.old.
  destruct (Dict.get k l) as [ps|] eqn:G; [|constructor].
  apply ParseFacts.get_in in G. apply in_map_iff in G as ([k' ps'] & E & I).
  simpl in E. subst ps'. unfold zero_ledger in Z. rewrite Forall_forall in Z.
  exact (Z _ I).
Qed.

Lemma zero_set k v l :
  Forall zero_posting v -> zero_ledger l -> zero_ledger (Dict.set k v l).
Proof.
  intros Hv. unfold zero_ledger.
  induction l as [|[k2 v2] l IH]; simpl; intros Z.
  - repeat constructor. exact Hv.
  - inversion Z; subst. destruct (Str.eqb k k2); constructor; auto.
Qed.

Lemma zero_append k p l :
  zero_posting p -> zero_ledger l -> zero_ledger (append_posting k p l).
Proof.
  intros Hp Z. rewrite LedgerFacts.append_posting_unfold.
  apply zero_set; [|exact Z].
  apply Forall_app. split; [now apply zero_old|].
  constructor; [exact Hp|constructor].
Qed.

Lemma zero_update entries :
  forall l,
    Forall (fun e => _parse_amount (debit_amount e) = 0%Q) entries ->
    zero_ledger l -> zero_ledger (update_ledger l entries).
Proof.
  induction entries as [|e es IH]; intros l F Z; simpl; [exact Z|].
  inversion F as [|? ? He Hes]; subst.
  apply IH; [exact Hes|]. unfold _process_journal_entry.
  apply zero_append; [|apply zero_append; [|exact Z]];
    split; simpl; (exact He || reflexivity).
Qed.

Lemma zero_totals l :
  zero_ledger l -> (total_debits l == 0)%Q /\ (total_credits l == 0)%Q.
Proof.
  unfold zero_ledger, total_debits, total_credits.
  induction 1 as [|[k ps] l Hps _ [IHd IHc]]; simpl; [split; reflexivity|].
  assert (S : (sum_debit ps == 0)%Q /\ (sum_credit ps == 0)%Q).
  { clear -Hps. simpl in Hps. unfold sum_debit, sum_credit.
    induction Hps as [|p ps [Hd Hc] _ [IHd IHc]]; simpl; [split; reflexivity|].
    rewrite Hd, Hc, IHd, IHc. split; reflexivity. }
  destruct S as [Sd Sc]. rewrite Sd, Sc, IHd, IHc. split; reflexivity.
Qed.

End ZeroFacts.

(** The ledger manager strips another byte sequence than the currency
    symbol the generator writes, so it reads every generated amount as 0:
    whatever the transactions and their amounts, every posting of the ledger
    built from the generated entries has debit 0 and credit 0, and so have
    the ledger totals. *)
Theorem ledger_reads_generated_amounts_as_zero :
  forall am (transactions : list txn_dict),
    let entries :=
      JournalEntryGenerator.generate_all_entries am
        JournalEntryGenerator._get_default_accounting_rules transactions in
    let l := LedgerManager.update_ledger [] entries in
    Forall (fun e => LedgerManager._parse_amount (debit_amount e) = 0%Q) entries /\
    Forall (fun a => Forall (fun p => p_debit p = 0%Q /\ p_credit p = 0%Q) (snd a)) l /\
    (LedgerManager.total_debits l == 0)%Q /\
    (LedgerManager.total_credits l == 0)%Q.
Proof.
  intros am ts entries l.
  assert (F : Forall (fun e => LedgerManager._parse_amount (debit_amount e) = 0%Q)
                entries).
  { unfold entries, JournalEntryGenerator.generate_all_entries.
    apply Forall_map, Forall_forall. intros t _.
    match goal with
    | |- context [JournalEntryGenerator.generate_journal_entry ?a ?r ?x ?c] =>
        destruct (entry_sides a r x c) as [_ ->]
    end.
    apply SymbolFacts.ledger_reads_zero. }
  assert (Z : ZeroFacts.zero_ledger l).
  { apply ZeroFacts.zero_update; [exact F|constructor]. }
  repeat split; try assumption; now apply ZeroFacts.zero_totals.
Qed.

(** ** The reports of a ledger built from generated entries *)

Module FlatFacts.
Import LedgerManager.
Local Open Scope Q_scope.

Lemma zero_sums ps :
  Forall ZeroFacts.zero_posting ps -> sum_debit ps == 0 /\ sum_credit ps == 0.
Proof.
  unfold sum_debit, sum_credit.
  induction 1 as [|p ps [Hd Hc] _ [IHd IHc]]; simpl; [split; reflexivity|].
  rewrite Hd, Hc, IHd, IHc. split; reflexivity.
Qed.

(** Over postings of amount 0 the running balance stays where it starts. *)
Lemma running_flat ps :
  Forall ZeroFacts.zero_posting ps ->
  forall o, Forall (fun r => snd r == o) (running_balance o ps).
Proof.
  induction 1 as [|p ps [Hd Hc] _ IH]; intros o; simpl; constructor.
  - simpl. rewrite Hd, Hc. ring.
  - eapply Forall_impl; [|apply IH]. intros r Hr. simpl in Hr.
    rewrite Hr, Hd, Hc. ring.
Qed.

Lemma zero_entry (l : ledger) k ps :
  ZeroFacts.zero_ledger l -> In (k, ps) l -> Forall ZeroFacts.zero_posting ps.
Proof.
  unfold ZeroFacts.zero_ledger. rewrite Forall_forall. intros Z I. exact (Z _ I).
Qed.

(** What a row of the trial balance is when every posting has amount 0. *)
Definition flat_row (ob : opening_balances) (r : trial_balance_row) : Prop :=
  debit_total r == 0 /\
  credit_total r == 0 /\
  closing_balance r == ReportFacts.opening ob (tb_account r) /\
  balance_type r =
    (if negb (Qle_bool (ReportFacts.opening ob (tb_account r)) 0)
     then T "Debit" else T "Credit").

Lemma flat_rows (whole : ledger) ob :
  ReportFacts.unique_keys whole -> ZeroFacts.zero_ledger whole ->
  forall part, incl part whole -> ReportFacts.populated part ->
    Forall (flat_row ob) (ReportFacts.rows_of whole ob part).
Proof.
  intros U Z part. induction part as [|[k ps] part IH]; intros I P.
  - constructor.
  - inversion P as [|? ? Hps Hpart]; subst. simpl in Hps.
    destruct ps as [|p0 ps]; [congruence|].
    assert (Ik : In (k, p0 :: ps) whole) by (apply I; now left).
    destruct (ReportFacts.rows_of_cons whole ob k p0 ps part U Ik)
      as (r & -> & Ra & Rd & Rc & Rb & Rt).
    destruct (zero_sums _ (zero_entry whole k _ Z Ik)) as [Sd Sc].
    constructor; [|apply IH; [intros x Hx; apply I; now right|exact Hpart]].
    assert (Cl : closing_balance r == ReportFacts.opening ob (tb_account r)).
    { rewrite Rb, Ra, Sd, Sc. ring. }
    unfold flat_row. rewrite Rd, Rc, Rt, Cl. repeat split; assumption.
Qed.

Lemma qsum_zero (f : trial_balance_row -> Q) rows :
  Forall (fun r => f r == 0) rows -> qsum (map f rows) == 0.
Proof.
  induction 1 as [|r rows Hr _ IH]; simpl; [reflexivity|].
  rewrite Hr, IH. reflexivity.
Qed.

Lemma filter_forall (A : Type) (P : A -> Prop) (f : A -> bool) l :
  Forall P l -> Forall P (filter f l).
Proof.
  induction 1 as [|x l Hx _ IH]; simpl; [constructor|].
  destruct (f x); [now constructor|exact IH].
Qed.

(** The ledger built from generated entries: distinct accounts, each with
    a posting, all postings of amount 0. *)
Lemma generated_ledger am ts :
  let l := update_ledger []
             (JournalEntryGenerator.generate_all_entries am
                JournalEntryGenerator._get_default_accounting_rules ts) in
  ReportFacts.unique_keys l /\ ReportFacts.populated l /\ ZeroFacts.zero_ledger l /\
  count_postings l = (2 * length ts)%nat.
Proof.
  intros l.
  destruct (ReportFacts.update_ledger_invariants
              (JournalEntryGenerator.generate_all_entries am
                 JournalEntryGenerator._get_default_accounting_rules ts) [])
    as [U P]; [constructor|constructor|].
  split; [exact U|]. split; [exact P|]. split.
  - apply ZeroFacts.zero_update; [|constructor].
    unfold JournalEntryGenerator.generate_all_entries.
    apply Forall_map, Forall_forall. intros t _.
    match goal with
    | |- context [JournalEntryGenerator.generate_journal_entry ?a ?r ?x ?c] =>
        destruct (entry_sides a r x c) as [_ ->]
    end.
    apply SymbolFacts.ledger_reads_zero.
  - unfold l. rewrite ReportFacts.update_ledger_count.
    unfold JournalEntryGenerator.generate_all_entries. rewrite length_map.
    reflexivity.
Qed.

End FlatFacts.

(** The ledger reads every generated amount as 0, so in the report of an
    account of a ledger built from generated entries the balance never
    moves: the report lists the postings of the account in order, each with
    the opening balance of the account as its running balance, whatever the
    amounts of the transactions.  An opening balance set for another account
    does not change the report. *)
Theorem generated_ledger_balance_never_moves :
  forall am (transactions : list txn_dict) (ob : LedgerManager.opening_balances)
         (account : text) (ps : list posting),
    let l :=
      LedgerManager.update_ledger []
        (JournalEntryGenerator.generate_all_entries am
           JournalEntryGenerator._get_default_accounting_rules transactions) in
    Dict.get account l = Some ps ->
    let rows := LedgerManager._get_single_ledger l ob account in
    ps <> [] /\
    map fst rows = ps /\
    Forall (fun r =>
              (snd r == match Dict.get account ob with
                        | Some b => b
                        | None => 0
                        end)%Q) rows /\
    (forall other b, other <> account ->
       LedgerManager._get_single_ledger l
         (LedgerManager.set_opening_balance ob other b) account = rows).
Proof.
  intros am ts ob account ps l G rows.
  destruct (FlatFacts.generated_ledger am ts) as (U & P & Z & _).
  fold l in U, P, Z.
  assert (I : In (account, ps) l).
  { clear -G. induction l as [|[k v] l IH]; simpl in G; [discriminate|].
    destruct (Str.eqb account k) eqn:E.
    - apply str_eqb_eq in E. subst k. injection G as ->. now left.
    - right. now apply IH. }
  subst rows. unfold LedgerManager._get_single_ledger. rewrite G.
  split; [|split; [|split]].
  - unfold ReportFacts.populated in P. rewrite Forall_forall in P. exact (P _ I).
  - apply ReportFacts.running_rows.
  - apply FlatFacts.running_flat. exact (FlatFacts.zero_entry l account ps Z I).
  - intros other b N. unfold LedgerManager.set_opening_balance.
    rewrite get_set_other by congruence. reflexivity.
Qed.

Lemma generated_ledger_balance_never_moves_witness :
  Forall (fun r => (snd r == 750)%Q)
    (LedgerManager._get_single_ledger
       (LedgerManager.update_ledger []
          (JournalEntryGenerator.generate_all_entries
             JournalEntryGenerator._get_default_account_mapping
             JournalEntryGenerator._get_default_accounting_rules
             [ {| t_date := None; t_description := Some (T "NEFT from John Doe");
                  t_amount := Some (500000 # 100)%Q; t_type := Some (T "CR");
                  t_category := Some (T "donation_income") |};
               {| t_date := None; t_description := Some (T "ATM withdrawal");
                  t_amount := Some (200000 # 100)%Q; t_type := Some (T "DR");
                  t_category := Some (T "cash_withdrawal") |} ]))
       (LedgerManager.set_opening_balance [] (T "Bank Account") 750)
       (T "Bank Account")).
Proof.
  match goal with
  | |- Forall _ (LedgerManager._get_single_ledger ?l ?ob ?k) =>
      destruct (Dict.get k l) as [ps|] eqn:G;
        [|vm_compute in G; discriminate G];
      exact (proj1 (proj2 (proj2
               (generated_ledger_balance_never_moves _ _ ob k ps G))))
  end.
Defined.

(** The trial balance of a ledger built from generated entries has one row
    for every account, in order; whatever the amounts of the transactions,
    every row has a debit total and a credit total of 0 and the opening
    balance of its account as closing balance, and is typed "Debit" when
    that opening balance is positive and "Credit" otherwise. *)
Theorem generated_trial_balance_is_flat :
  forall am (transactions : list txn_dict) (ob : LedgerManager.opening_balances),
    let l :=
      LedgerManager.update_ledger []
        (JournalEntryGenerator.generate_all_entries am
           JournalEntryGenerator._get_default_accounting_rules transactions) in
    let tb := LedgerManager.get_trial_balance l ob in
    map LedgerManager.tb_account tb = Dict.keys l /\
    Forall (fun r =>
              let opening :=
                match Dict.get (LedgerManager.tb_account r) ob with
                | Some b => b
                | None => 0%Q
                end in
              (LedgerManager.debit_total r == 0)%Q /\
              (LedgerManager.credit_total r == 0)%Q /\
              (LedgerManager.closing_balance r == opening)%Q /\
              LedgerManager.balance_type r =
                (if negb (Qle_bool opening 0) then T "Debit" else T "Credit")) tb.
Proof.
  intros am ts ob l tb.
  destruct (FlatFacts.generated_ledger am ts) as (U & P & Z & _).
  fold l in U, P, Z.
  split.
  - exact (proj1 (ReportFacts.trial_balance_rows l ob U P)).
  - exact (FlatFacts.flat_rows l ob U Z l (incl_refl l) P).
Qed.

(** The financial summary of a ledger built from generated entries: there
    is none when there is no transaction; otherwise its
    [total_transactions] is the number of accounts, not of transactions, and
    whatever the amounts of the transactions its totals, income, expenses
    and net profit are 0 and the trial balance is reported as balanced. *)
Theorem generated_financial_summary_is_zero :
  forall am (transactions : list txn_dict) (ob : LedgerManager.opening_balances),
    let l :=
      LedgerManager.update_ledger []
        (JournalEntryGenerator.generate_all_entries am
           JournalEntryGenerator._get_default_accounting_rules transactions) in
    match LedgerManager.get_financial_summary l ob with
    | None => transactions = []
    | Some s =>
        transactions <> [] /\
        LedgerManager.fs_total_transactions s = length l /\
        LedgerManager.fs_accounts_count s = length l /\
        length l <= 2 * length transactions /\
        (LedgerManager.fs_total_debits s == 0)%Q /\
        (LedgerManager.fs_total_credits s == 0)%Q /\
        (LedgerManager.fs_total_income s == 0)%Q /\
        (LedgerManager.fs_total_expenses s == 0)%Q /\
        (LedgerManager.fs_net_profit s == 0)%Q /\
        LedgerManager.fs_trial_balance_balanced s = true
    end.
Proof.
  intros am ts ob l.
  destruct (FlatFacts.generated_ledger am ts) as (U & P & Z & N).
  fold l in U, P, Z, N.
  pose proof (proj1 (ReportFacts.trial_balance_rows l ob U P)) as A.
  pose proof (FlatFacts.flat_rows l ob U Z l (incl_refl l) P) as F.
  change (ReportFacts.rows_of l ob l) with (LedgerManager.get_trial_balance l ob) in F.
  clearbody l.
  unfold LedgerManager.get_financial_summary.
  destruct (LedgerManager.get_trial_balance l ob) as [|r tb] eqn:TB.
  - destruct ts as [|t ts]; [reflexivity|].
    destruct l as [|a l']; [exfalso; simpl in N; lia|discriminate].
  - cbv zeta.
    cbn [LedgerManager.fs_total_transactions LedgerManager.fs_accounts_count
         LedgerManager.fs_total_debits LedgerManager.fs_total_credits
         LedgerManager.fs_total_income LedgerManager.fs_total_expenses
         LedgerManager.fs_net_profit LedgerManager.fs_trial_balance_balanced].
    assert (L : length (r :: tb) = length l).
    { rewrite <- (length_map LedgerManager.tb_account), A. unfold Dict.keys.
      apply length_map. }
    assert (Cn : length l <= LedgerManager.count_postings l).
    { clear -P. induction P as [|[k ps] l' Hps _ IH]; simpl; [lia|].
      destruct ps; [now simpl in Hps|simpl; lia]. }
    assert (Fd : Forall (fun r => (LedgerManager.debit_total r == 0)%Q) (r :: tb)).
    { eapply Forall_impl; [|exact F]. intros x Hx. apply Hx. }
    assert (Fc : Forall (fun r => (LedgerManager.credit_total r == 0)%Q) (r :: tb)).
    { eapply Forall_impl; [|exact F]. intros x Hx. apply Hx. }
    assert (Sd := FlatFacts.qsum_zero LedgerManager.debit_total _ Fd).
    assert (Sc := FlatFacts.qsum_zero LedgerManager.credit_total _ Fc).
    split; [|split; [|split; [|split; [|split; [|split; [|split; [|split; [|split]]]]]]]].
    + intros ->. simpl in N, L. lia.
    + exact L.
    + reflexivity.
    + lia.
    + exact Sd.
    + exact Sc.
    + apply FlatFacts.qsum_zero, FlatFacts.filter_forall, Fc.
    + apply FlatFacts.qsum_zero, FlatFacts.filter_forall, Fd.
    + rewrite (FlatFacts.qsum_zero LedgerManager.credit_total _
                 (FlatFacts.filter_forall _ _ _ _ Fc)).
      rewrite (FlatFacts.qsum_zero LedgerManager.debit_total _
                 (FlatFacts.filter_forall _ _ _ _ Fd)).
      reflexivity.
    + apply ReportFacts.balanced_flag. now rewrite Sd, Sc.
Qed.

(** ** The ledger summary of the generator (entry_generator.py) *)

Module SummaryFacts.
Import JournalEntryGenerator.
Local Open Scope Q_scope.

Definition step (ledger : Dict.dict Q) (entry : journal_entry) : Dict.dict Q :=
  Dict.set (credit_account entry)
    (balance_of (credit_account entry)
       (Dict.set (debit_account entry)
          (balance_of (debit_account entry) ledger
           + _parse_amount (debit_amount entry)) ledger)
     - _parse_amount (credit_amount entry))
    (Dict.set (debit_account entry)
       (balance_of (debit_account entry) ledger
        + _parse_amount (debit_amount entry)) ledger).

Lemma summary_fold entries :
  generate_ledger_summary entries = fold_left step entries [].
Proof. reflexivity. Qed.

Lemma length_set (V : Type) k (v : V) d :
  (length (Dict.set k v d) <= S (length d))%nat.
Proof.
  induction d as [|[k2 v2] d IH]; simpl; [lia|].
  destruct (Str.eqb k k2); simpl; lia.
Qed.

Lemma fold_length entries :
  forall ledger,
    (length (fold_left step entries ledger) <= length ledger + 2 * length entries)%nat.
Proof.
  induction entries as [|e es IH]; intros ledger; simpl; [lia|].
  specialize (IH (step ledger e)).
  assert (length (step ledger e) <= S (S (length ledger)))%nat.
  { unfold step.
    eapply Nat.le_trans; [apply length_set|].
    apply le_n_S, length_set. }
  lia.
Qed.

Lemma totals_agree entries :
  Forall (fun e => debit_amount e = credit_amount e) entries ->
  fst (totals entries) == snd (totals entries).
Proof.
  unfold totals.
  assert (G : forall l acc,
             Forall (fun e => debit_amount e = credit_amount e) l ->
             fst acc == snd acc ->
             fst (fold_left
                    (fun acc entry =>
                       (fst acc + _parse_amount (debit_amount entry),
                        snd acc + _parse_amount (credit_amount entry)))
                    l acc)
             == snd (fold_left
                       (fun acc entry =>
                          (fst acc + _parse_amount (debit_amount entry),
                           snd acc + _parse_amount (credit_amount entry)))
                       l acc)).
  { induction l as [|e l IH]; intros acc F H; simpl; [exact H|].
    inversion F as [|? ? Fe Fl]; subst. apply IH; [exact Fl|].
    simpl. rewrite Fe, H. reflexivity. }
  intros F. apply G; [exact F|reflexivity].
Qed.

Lemma generated_sides am ar ts :
  Forall (fun e => debit_amount e = credit_amount e)
         (generate_all_entries am ar ts).
Proof.
  unfold generate_all_entries. apply Forall_map, Forall_forall.
  intros t _. apply entry_sides.
Qed.

End SummaryFacts.

(** The summary of the entries generated from any transactions, under the
    default accounting rules: it counts one entry per transaction and knows
    at most two accounts per entry; when the amounts are finite numbers of a
    moderate total, its debit and credit totals agree and the equation is
    reported as balanced. *)
Theorem accounting_summary_of_generated_entries :
  forall am (transactions : list txn_dict),
    let entries :=
      JournalEntryGenerator.generate_all_entries am
        JournalEntryGenerator._get_default_accounting_rules transactions in
    let s := JournalEntryGenerator.get_accounting_summary entries in
    JournalEntryGenerator.total_entries s = length transactions /\
    JournalEntryGenerator.unique_accounts s <= 2 * length transactions /\
    ((total_magnitude transactions < moderate_total)%Q ->
     (JournalEntryGenerator.total_debits s
      == JournalEntryGenerator.total_credits s)%Q /\
     JournalEntryGenerator.accounting_equation_balanced s = true).
Proof.
  intros am ts entries s.
  pose proof (SummaryFacts.generated_sides am
                JournalEntryGenerator._get_default_accounting_rules ts) as F.
  fold entries in F.
  pose proof (SummaryFacts.totals_agree entries F) as Tg.
  assert (Len : length entries = length ts).
  { unfold entries, JournalEntryGenerator.generate_all_entries. apply length_map. }
  unfold s, JournalEntryGenerator.get_accounting_summary,
    JournalEntryGenerator.validate_accounting_equation.
  destruct (JournalEntryGenerator.totals entries) as [d c]. simpl in Tg.
  cbn [JournalEntryGenerator.total_entries JournalEntryGenerator.total_debits
       JournalEntryGenerator.total_credits
       JournalEntryGenerator.accounting_equation_balanced
       JournalEntryGenerator.unique_accounts].
  split; [exact Len|]. split.
  - rewrite SummaryFacts.summary_fold, <- Len.
    apply (SummaryFacts.fold_length entries []).
  - intros _. split; [exact Tg|now apply ReportFacts.balanced_flag].
Qed.

(** ** Account names under the default mapping (entry_generator.py) *)

Module AccountFacts.
Import JournalEntryGenerator.

#[local] Arguments Ascii.eqb : simpl never.

Lemma starts_to_cons (ca rest : text) :
  Str.startswith (T "To ") ca = true ->
  Str.startswith (T "To To ") (T "To " ++ ca ++ rest) = true.
Proof.
  intros H.
  destruct ca as [|a ca]; [discriminate|].
  simpl in H. apply andb_prop in H as [Ha H]. apply Ascii.eqb_eq in Ha. subst a.
  destruct ca as [|b ca]; [discriminate|].
  simpl in H. apply andb_prop in H as [Hb H]. apply Ascii.eqb_eq in Hb. subst b.
  destruct ca as [|c ca]; [discriminate|].
  simpl in H. apply andb_prop in H as [Hc _]. apply Ascii.eqb_eq in Hc. subst c.
  reflexivity.
Qed.

Lemma credit_starts_with_to category txn_type :
  Str.startswith (T "To ")
    (snd (_get_account_names _get_default_account_mapping category txn_type)) = true.
Proof.
  unfold _get_account_names.
  destruct (Dict.get category (specific_accounts _get_default_account_mapping))
    as [mapping|] eqn:G.
  - apply ParseFacts.get_in in G.
    assert (A : forallb (fun m : text * text => Str.startswith (T "To ") (snd m))
                  (map snd (specific_accounts _get_default_account_mapping)) = true)
      by reflexivity.
    rewrite forallb_forall in A. now apply A.
  - unfold _get_category_type.
    destruct (existsb _ _); [|destruct (existsb _ _)];
      destruct (Str.eqb txn_type (T "CR")); reflexivity.
Qed.

End AccountFacts.

(** Under the default account mapping every credit account name already
    starts with "To ", and the credit line of the entry puts "To " in front
    of it: for every transaction and category the credit line starts with
    "To To ". *)
Theorem credit_line_repeats_to :
  forall ar (transaction : txn_dict) (category : text),
    let e := JournalEntryGenerator.generate_journal_entry
               JournalEntryGenerator._get_default_account_mapping ar
               transaction category in
    Str.startswith (T "To ") (credit_account e) = true /\
    Str.startswith (T "To To ") (credit_entry e) = true.
Proof.
  intros ar t c e. subst e.
  unfold JournalEntryGenerator.generate_journal_entry.
  match goal with
  | |- context [JournalEntryGenerator._get_account_names ?m c ?ty] =>
      pose proof (AccountFacts.credit_starts_with_to c ty) as H;
      destruct (JournalEntryGenerator._get_account_names m c ty) as [da ca]
  end.
  simpl in H.
  destruct (Str.eqb _ (T "CR")); cbn [credit_account credit_entry];
    (split; [exact H|]);
    now apply AccountFacts.starts_to_cons.
Qed.

(** For a category without a specific mapping, the default mapping formats
    the template of one side only: a debit (DR) transaction of an income
    category is credited to the literal template "To {account_name}", and a
    credit (CR) transaction of any other category is debited to the literal
    "{account_name}". *)
Theorem account_template_left_unformatted :
  forall (category : text),
    Dict.get category
      (specific_accounts JournalEntryGenerator._get_default_account_mapping) = None ->
    (JournalEntryGenerator._get_category_type category = T "income" ->
     JournalEntryGenerator._get_account_names
       JournalEntryGenerator._get_default_account_mapping category (T "DR")
     = (T "Bank Account", T "To {account_name}")) /\
    (JournalEntryGenerator._get_category_type category <> T "income" ->
     JournalEntryGenerator._get_account_names
       JournalEntryGenerator._get_default_account_mapping category (T "CR")
     = (T "{account_name}", T "To Bank Account")).
Proof.
  intros c G. unfold JournalEntryGenerator._get_account_names. rewrite G.
  unfold JournalEntryGenerator._get_category_type.
  destruct (existsb _ _); [|destruct (existsb _ _)]; split; intros H;
    try reflexivity; try discriminate; congruence.
Qed.

Lemma account_template_left_unformatted_witness :
  JournalEntryGenerator._get_account_names
    JournalEntryGenerator._get_default_account_mapping
    (T "interest_income") (T "DR")
  = (T "Bank Account", T "To {account_name}") /\
  JournalEntryGenerator._get_account_names
    JournalEntryGenerator._get_default_account_mapping
    (T "rent") (T "CR")
  = (T "{account_name}", T "To Bank Account").
Proof.
  split.
  - apply (proj1 (account_template_left_unformatted (T "interest_income") eq_refl)).
    reflexivity.
  - apply (proj2 (account_template_left_unformatted (T "rent") eq_refl)).
    discriminate.
Defined.

(** ** Categories the rule engine answers with (rule_engine.py) *)

Module CategoryFacts.
Import RuleEngine.

Lemma in_mem {V : Type} (k : text) (v : V) (d : Dict.dict V) :
  In (k, v) d -> Dict.mem k d = true.
Proof.
  unfold Dict.mem. induction d as [|[k2 v2] d IH]; simpl; intros I; [destruct I|].
  destruct (Str.eqb k k2) eqn:E; [reflexivity|].
  destruct I as [[= -> ->]|I]; [now rewrite str_eqb_refl in E|now apply IH].
Qed.

Lemma mem_get_some {V : Type} (k : text) (d : Dict.dict V) :
  Dict.mem k d = true -> exists v, Dict.get k d = Some v.
Proof. unfold Dict.mem. destruct (Dict.get k d) as [v|]; [now exists v|discriminate]. Qed.

(** The exact keyword stage answers with a category of the dictionary
    whose keywords hit. *)
Lemma exact_match_entry cats description name :
  _exact_keyword_match cats description = Some name ->
  exists data, In (name, data) cats /\ keyword_hit data description = true.
Proof.
  intros H.
  assert (Hex : exists c, In c cats /\ RuleFacts.hit description c = true).
  { unfold _exact_keyword_match in H.
    destruct (matched_categories cats description) as [|m ms] eqn:M;
      [discriminate|].
    destruct (RuleFacts.matched_split description cats [] m ms M)
      as (c1 & c & c2 & -> & Hc & _).
    exists c. split; [apply in_elt|exact Hc]. }
  destruct (RuleFacts.exact_match_selects description cats Hex)
    as (c1 & [n d] & c2 & -> & Hm & Hh & _).
  rewrite Hm in H. injection H as <-.
  exists d. split; [apply in_elt|exact Hh].
Qed.

Lemma pattern_scan_entry cats description name :
  pattern_scan cats description = Some name ->
  exists data, In (name, data) cats.
Proof.
  induction cats as [|[n d] cats IH]; simpl; [discriminate|].
  destruct (existsb _ _).
  - intros [= <-]. exists d. now left.
  - intros H. destruct (IH H) as (data & I). exists data. now right.
Qed.

Lemma heuristics_names description amount ty name :
  _amount_based_heuristics description amount ty = Some name ->
  In name [T "cash_withdrawal"; T "food_expense"; T "transport_expense"].
Proof.
  unfold _amount_based_heuristics.
  destruct (_ && _); [intros [= <-]; simpl; tauto|].
  destruct (_ && _); [intros [= <-]; simpl; tauto|].
  destruct (_ && _); [intros [= <-]; simpl; tauto|discriminate].
Qed.

Lemma default_names ty :
  In (_get_default_category ty) [T "donation_income"; T "miscellaneous"].
Proof. unfold _get_default_category. destruct (Str.eqb _ _); simpl; tauto. Qed.

(** A result that passes the test is the result itself. *)
Lemma truthy_some x v : Py.truthy x = Some v -> x = Some v.
Proof. destruct x as [[|c s]|]; simpl; congruence. Qed.

End CategoryFacts.

(** The names the later stages of the engine answer with *)
Definition fallback_categories : list text :=
  [T "cash_withdrawal"; T "food_expense"; T "transport_expense";
   T "donation_income"; T "miscellaneous"].

(** When the dictionary holds the five categories the heuristics and the
    defaults name, and the similarity stage answers with categories of the
    dictionary, every answer of [categorize_transaction] is a category of
    the dictionary: the lookups of its details, account name and type find
    the entry and never use their fallback values. *)
Theorem categorize_answers_known_category :
  forall (categories : Dict.dict category_data)
         (similarity : text -> option text)
         (description : text) (amount : Q) (ty : text) (use_ai : bool),
    (forall n, In n fallback_categories -> Dict.mem n categories = true) ->
    (forall d c, similarity d = Some c -> Dict.mem c categories = true) ->
    let c := RuleEngine.categorize_transaction categories similarity
               description amount ty use_ai in
    exists data,
      RuleEngine.get_category_details categories c = Some data /\
      RuleEngine.get_account_name categories c = account_name data /\
      RuleEngine.get_category_type categories c = cat_type data.
Proof.
  intros cats sim desc amount ty ai Hf Hs c.
  assert (M : Dict.mem c cats = true).
  { subst c. unfold RuleEngine.categorize_transaction.
    destruct (Py.truthy (RuleEngine._exact_keyword_match cats (Str.lower desc)))
      as [n|] eqn:E.
    { apply CategoryFacts.truthy_some in E.
      destruct (CategoryFacts.exact_match_entry _ _ _ E) as (d & I & _).
      exact (CategoryFacts.in_mem n d cats I). }
    destruct (Py.truthy (RuleEngine._pattern_match cats (Str.lower desc)))
      as [n|] eqn:P.
    { apply CategoryFacts.truthy_some in P.
      destruct (CategoryFacts.pattern_scan_entry _ _ _ P) as (d & I).
      exact (CategoryFacts.in_mem n d cats I). }
    destruct (Py.truthy (if ai then sim (Str.lower desc) else None))
      as [n|] eqn:S.
    { apply CategoryFacts.truthy_some in S.
      destruct ai; [|discriminate]. exact (Hs _ _ S). }
    destruct (Py.truthy (RuleEngine._amount_based_heuristics (Str.lower desc)
                           amount ty))
      as [n|] eqn:A.
    { apply CategoryFacts.truthy_some in A.
      apply Hf. apply CategoryFacts.heuristics_names in A.
      unfold fallback_categories. simpl in *. tauto. }
    apply Hf. pose proof (CategoryFacts.default_names ty) as D.
    unfold fallback_categories. simpl in *. tauto. }
  destruct (CategoryFacts.mem_get_some c cats M) as (data & G).
  exists data.
  unfold RuleEngine.get_category_details, RuleEngine.get_account_name,
    RuleEngine.get_category_type.
  rewrite G. repeat split.
Qed.

Lemma categorize_answers_known_category_witness :
  exists data,
    RuleEngine.get_category_details RuleEngine._get_default_categories
      (RuleEngine.categorize_transaction RuleEngine._get_default_categories
         (fun _ => None) (T "Monthly rent") 12000 (T "DR") true) = Some data.
Proof.
  destruct (categorize_answers_known_category RuleEngine._get_default_categories
              (fun _ => None) (T "Monthly rent") 12000 (T "DR") true)
    as (data & G & _).
  - intros n I. unfold fallback_categories in I. simpl in I.
    repeat (destruct I as [<-|I]; [reflexivity|]). destruct I.
  - discriminate.
  - exists data. exact G.
Defined.

(** A category chosen by the exact keyword stage is scored 0.9: when the
    keys of the dictionary are distinct and the exact keyword stage finds,
    in the lower-cased description, a category whose name is not the empty
    string, [categorize_transaction] answers with that category and
    [_calculate_confidence] gives it the confidence of an exact match.  (A
    category named by the empty string fails the test [if exact_match:] and
    the next stages answer.) *)
Theorem exact_match_has_high_confidence :
  forall (categories : Dict.dict category_data)
         (similarity : text -> option text)
         (description : text) (amount : Q) (ty : text) (use_ai : bool)
         (name : text),
    NoDup (Dict.keys categories) ->
    name <> [] ->
    RuleEngine._exact_keyword_match categories (Str.lower description) = Some name ->
    RuleEngine.categorize_transaction categories similarity
      description amount ty use_ai = name /\
    RuleEngine._calculate_confidence categories description name = (9 # 10)%Q.
Proof.
  intros cats sim desc amount ty ai name U Nn E. split.
  - unfold RuleEngine.categorize_transaction.
    rewrite E. destruct name as [|c n]; [congruence|reflexivity].
  - destruct (CategoryFacts.exact_match_entry _ _ _ E) as (d & I & Hh).
    unfold RuleEngine._calculate_confidence.
    assert (G : Dict.get name cats = Some d).
    { clear -U I. unfold Dict.keys in U.
      induction cats as [|[k2 v2] cats IH]; simpl; [destruct I|].
      inversion U as [|? ? Nk Nd]; subst.
      destruct I as [[= -> ->]|I]; [now rewrite str_eqb_refl|].
      destruct (Str.eqb name k2) eqn:Eq; [|now apply IH].
      apply str_eqb_eq in Eq. subst k2. exfalso. apply Nk.
      apply (in_map fst) in I. exact I. }
    rewrite G. unfold RuleEngine.keyword_hit in Hh. now rewrite Hh.
Qed.

Lemma exact_match_has_high_confidence_witness :
  RuleEngine._calculate_confidence RuleEngine._get_default_categories
    (T "Paid SALARY for March") (T "salary_income") = (9 # 10)%Q.
Proof.
  refine (proj2 (exact_match_has_high_confidence
                   RuleEngine._get_default_categories (fun _ => None)
                   (T "Paid SALARY for March") 100 (T "DR") false
                   (T "salary_income") _ _ _)).
  - unfold Dict.keys. simpl.
    repeat (constructor; [simpl; intros H;
                          repeat (destruct H as [H|H]; [discriminate H|]);
                          exact H|]).
    constructor.
  - discriminate.
  - vm_compute. reflexivity.
Defined.

Module CustomFacts.
Import RuleEngine.



End CustomFacts.



(** ** The statistics of a parse (transaction_parser.py) *)

Module StatsFacts.

Section Instance.
Variable cp : Dict.dict (list Re.pattern).
Variable dateutil : text -> option datetime.
Variable pd : list date_cell -> text -> option datetime.

Lemma find_all_length txt bank :
  length (RegexPatterns.find_all_transactions cp txt bank)
  <= length (Str.split Re.newline txt).
Proof.
  unfold RegexPatterns.find_all_transactions.
  induction (Str.split Re.newline txt) as [|line ls IH]; simpl; [lia|].
  rewrite length_app.
  destruct (RegexPatterns.match_transaction cp line bank) as [[|g gs]|];
    simpl; [apply Nat.le_le_succ_r, IH|apply le_n_S, IH|apply Nat.le_le_succ_r, IH].
Qed.

(** A match becomes a row, or is dropped, or is dropped and counted as an
    error. *)
Lemma parse_match_cases m bank :
  (exists t, forall st,
       TransactionParser._parse_transaction_match dateutil st m bank = (Some t, st)) \/
  (forall st,
       TransactionParser._parse_transaction_match dateutil st m bank = (None, st)) \/
  (forall st,
       TransactionParser._parse_transaction_match dateutil st m bank
       = (None, TransactionParser.add_error st)).
Proof.
  unfold TransactionParser._parse_transaction_match.
  destruct m as [|g1 [|g2 [|g3 [|g4 [|g5 [|g6 [|g7 m]]]]]]];
    try (right; left; reflexivity).
  - destruct g4; [left; eexists; reflexivity|right; right; reflexivity].
  - destruct g4, g5; try (right; right; reflexivity). left; eexists; reflexivity.
  - destruct g5, g6; try (right; right; reflexivity). left; eexists; reflexivity.
Qed.

(** Every match becomes at most one row or one error. *)
Lemma parse_matches_count ms bank :
  forall st,
    length (fst (TransactionParser.parse_matches dateutil st ms bank))
      + parsing_errors (snd (TransactionParser.parse_matches dateutil st ms bank))
    <= length ms + parsing_errors st.
Proof.
  induction ms as [|m ms IH]; intros st; simpl; [lia|].
  destruct (parse_match_cases m bank) as [(t & E)|[E|E]]; rewrite (E st).
  - specialize (IH st).
    destruct (TransactionParser.parse_matches dateutil st ms bank) as [ts st2].
    simpl in *. lia.
  - specialize (IH st).
    destruct (TransactionParser.parse_matches dateutil st ms bank) as [ts st2].
    simpl in *. lia.
  - specialize (IH (TransactionParser.add_error st)).
    destruct (TransactionParser.parse_matches dateutil _ ms bank) as [ts st2].
    simpl in *. lia.
Qed.

(** A tuple of four, five or six groups becomes a row, or an error. *)
Definition arity_ok (m : RegexPatterns.groups) : bool :=
  (4 <=? length m) && (length m <=? 6).

Lemma parse_match_row_or_error m bank :
  arity_ok m = true ->
  (exists t, forall st,
       TransactionParser._parse_transaction_match dateutil st m bank = (Some t, st)) \/
  (forall st,
       TransactionParser._parse_transaction_match dateutil st m bank
       = (None, TransactionParser.add_error st)).
Proof.
  intros A. unfold TransactionParser._parse_transaction_match.
  destruct m as [|g1 [|g2 [|g3 [|g4 [|g5 [|g6 [|g7 m]]]]]]]; try discriminate.
  - destruct g4; [left; eexists; reflexivity|right; reflexivity].
  - destruct g4, g5; try (right; reflexivity). left; eexists; reflexivity.
  - destruct g5, g6; try (right; reflexivity). left; eexists; reflexivity.
Qed.

Lemma parse_matches_exact ms bank :
  forallb arity_ok ms = true ->
  forall st,
    length (fst (TransactionParser.parse_matches dateutil st ms bank))
      + parsing_errors (snd (TransactionParser.parse_matches dateutil st ms bank))
    = length ms + parsing_errors st.
Proof.
  induction ms as [|m ms IH]; intros A st; simpl; [lia|].
  simpl in A. apply andb_prop in A as [Am Ams].
  destruct (parse_match_row_or_error m bank Am) as [(t & E)|E]; rewrite (E st).
  - specialize (IH Ams st).
    destruct (TransactionParser.parse_matches dateutil st ms bank) as [ts st2].
    simpl in *. lia.
  - specialize (IH Ams (TransactionParser.add_error st)).
    destruct (TransactionParser.parse_matches dateutil _ ms bank) as [ts st2].
    simpl in *. lia.
Qed.

Lemma sorted_length df :
  length (match df with
          | [] => []
          | _ :: _ => TransactionParser._sort_transactions pd df
          end) = length df.
Proof.
  destruct df as [|t df]; [reflexivity|].
  apply Permutation_length, SortFacts.sort_transactions_perm.
Qed.

End Instance.

(** The tuples found with a table of patterns are the groups of one of its
    patterns. *)
Lemma first_groups_arity ps line m :
  RegexPatterns.first_groups ps line = Some m ->
  exists p, In p ps /\ length m = Re.ngroups p.
Proof.
  induction ps as [|p ps IH]; simpl; [discriminate|].
  unfold Re.rmatch.
  destruct (Re.match_here p None line) as [[s1 cs1]|] eqn:E; simpl.
  - intros [= <-]. exists p. split; [now left|].
    unfold Re.groups_of. now rewrite length_map, length_seq.
  - intros H. destruct (IH H) as (q & I & L). exists q. split; [now right|exact L].
Qed.

Definition pattern_arity_ok (p : Re.pattern) : bool :=
  (4 <=? Re.ngroups p) && (Re.ngroups p <=? 6).

Lemma find_all_arity cp txt bank :
  forallb (forallb pattern_arity_ok) (map snd cp) = true ->
  forallb arity_ok (RegexPatterns.find_all_transactions cp txt bank) = true.
Proof.
  intros A. rewrite forallb_forall in A.
  assert (G : forall k p, In p (RegexPatterns.get_patterns cp k) ->
                          pattern_arity_ok p = true).
  { intros k p I. unfold RegexPatterns.get_patterns in I.
    destruct (Dict.get k cp) as [ps|] eqn:E; [|destruct I].
    apply ParseFacts.get_in in E. specialize (A ps E).
    rewrite forallb_forall in A. now apply A. }
  unfold RegexPatterns.find_all_transactions.
  apply forallb_forall. intros m I. apply in_flat_map in I as (line & _ & I).
  destruct (RegexPatterns.match_transaction cp line bank) as [[|g gs]|] eqn:M;
    [destruct I| |destruct I].
  destruct I as [<-|[]].
  unfold RegexPatterns.match_transaction in M.
  destruct (Str.strip line) as [|c s]; [discriminate|].
  destruct (length (c :: s) <? 10); [discriminate|].
  apply first_groups_arity in M as (p & Ip & L).
  unfold arity_ok. rewrite L.
  apply in_app_or in Ip as [Ip|Ip]; exact (G _ p Ip).
Qed.

End StatsFacts.

(** The counters a parse leaves behind, next to the number of rows. *)
Definition parse_counts cp dateutil pd (txt bank : text) : nat * nat * nat * nat :=
  let r := TransactionParser.parse_transactions cp dateutil pd txt bank in
  (length (fst r), parsing_errors (snd r), transactions_found (snd r),
   total_lines_processed (snd r)).

Lemma parse_counts_bounds cp du pd txt bank :
  exists rows errors found lines,
    parse_counts cp du pd txt bank = (rows, errors, found, lines) /\
    rows + errors <= found /\ found <= lines /\ 1 <= lines /\
    (cp = RegexPatterns.default_compiled -> rows + errors = found).
Proof.
  unfold parse_counts, TransactionParser.parse_transactions.
  set (b := if Str.eqb bank (T "auto") then _ else _).
  assert (Hb : exists bk det, b = (bk, det)) by (destruct b; eauto).
  destruct Hb as (bk & det & ->).
  set (ms := RegexPatterns.find_all_transactions cp txt bk).
  set (st0 := {| total_lines_processed := length (Str.split Re.newline txt);
                 transactions_found := length ms;
                 bank_type_detected := det;
                 parsing_errors := parsing_errors TransactionParser._reset_stats |}).
  pose proof (StatsFacts.parse_matches_count du ms bk st0) as Cnt.
  pose proof (ParseFacts.parse_matches_stats du ms bk st0 st0) as (_ & _ & Ln & Fd).
  pose proof (StatsFacts.find_all_length cp txt bk) as Fl. fold ms in Fl.
  pose proof (ParseFacts.split_not_nil Re.newline txt) as Ne.
  assert (Ex : cp = RegexPatterns.default_compiled ->
               length (fst (TransactionParser.parse_matches du st0 ms bk))
               + parsing_errors (snd (TransactionParser.parse_matches du st0 ms bk))
               = length ms + parsing_errors st0).
  { intros ->. apply StatsFacts.parse_matches_exact.
    apply StatsFacts.find_all_arity. vm_compute. reflexivity. }
  destruct (TransactionParser.parse_matches du st0 ms bk) as [ts st2].
  cbn [fst snd] in *. rewrite (StatsFacts.sorted_length pd ts).
  rewrite Ln, Fd. simpl in Cnt. simpl.
  do 4 eexists. split; [reflexivity|].
  repeat split; try lia.
  - destruct (Str.split Re.newline txt); [congruence|simpl; lia].
  - intros E. specialize (Ex E). simpl in Ex. lia.
Qed.

(** The statistics of a parse are consistent with its result: there is at
    least one line, no more matches than lines, and no more rows and errors
    than matches.  With the default patterns every match has four to six
    groups, so each one is either a row of the result or a counted error. *)
Theorem parse_statistics_are_consistent :
  (forall cp dateutil pd (txt bank : text),
      let r := TransactionParser.parse_transactions cp dateutil pd txt bank in
      length (fst r) + parsing_errors (snd r) <= transactions_found (snd r) /\
      transactions_found (snd r) <= total_lines_processed (snd r) /\
      1 <= total_lines_processed (snd r)) /\
  (forall dateutil pd (txt bank : text),
      let r := TransactionParser.parse_transactions RegexPatterns.default_compiled
                 dateutil pd txt bank in
      length (fst r) + parsing_errors (snd r) = transactions_found (snd r)).
Proof.
  split.
  - intros cp du pd txt bank r.
    destruct (parse_counts_bounds cp du pd txt bank)
      as (rows & errors & found & lines & E & A & B & C & _).
    unfold parse_counts in E. fold r in E. injection E as E1 E2 E3 E4. subst rows errors found lines.
    repeat split; assumption.
  - intros du pd txt bank r.
    destruct (parse_counts_bounds RegexPatterns.default_compiled du pd txt bank)
      as (rows & errors & found & lines & E & _ & _ & _ & D).
    unfold parse_counts in E. fold r in E. injection E as E1 E2 E3 E4. subst rows errors found lines.
    now apply D.
Qed.

(** ** Parsing block by block *)

(** Parsing a list of blocks returns the rows of the blocks one after the
    other, each block sorted on its own.  The statistics are not added up:
    after the call they are those of the last block alone, and those found
    before the call when there is no block. *)
Theorem blocks_keep_last_statistics :
  forall cp dateutil pd (st : stats) (blocks : list text) (bank : text),
    fst (TransactionParser.parse_transactions_from_blocks cp dateutil pd st blocks bank)
    = flat_map (fun block =>
                  fst (TransactionParser.parse_transactions cp dateutil pd block bank))
               blocks /\
    snd (TransactionParser.parse_transactions_from_blocks cp dateutil pd st blocks bank)
    = match rev blocks with
      | [] => st
      | block :: _ =>
          snd (TransactionParser.parse_transactions cp dateutil pd block bank)
      end.
Proof.
  intros cp du pd st blocks bank. revert st.
  induction blocks as [|b bs IH]; intros st; [split; reflexivity|].
  cbn [TransactionParser.parse_transactions_from_blocks].
  destruct (TransactionParser.parse_transactions cp du pd b bank) as [df st1] eqn:E.
  destruct (IH st1) as [IH1 IH2].
  destruct (TransactionParser.parse_transactions_from_blocks cp du pd st1 bs bank)
    as [more st2].
  simpl in IH1, IH2. subst more st2. split.
  - simpl. now rewrite E.
  - simpl rev. destruct (rev bs) as [|l r] eqn:R; simpl; [now rewrite E|reflexivity].
Qed.

(** ** The categories the parser assigns *)

Module LabelFacts.

Lemma lower_upper_char c : Str.char_lower (Str.char_upper c) = Str.char_lower c.
Proof. destruct c as [[] [] [] [] [] [] [] []]; reflexivity. Qed.

Lemma upper_lower_char c : Str.char_upper (Str.char_lower c) = Str.char_upper c.
Proof. destruct c as [[] [] [] [] [] [] [] []]; reflexivity. Qed.

Lemma lower_upper s : Str.lower (Str.upper s) = Str.lower s.
Proof.
  unfold Str.lower, Str.upper. rewrite map_map.
  apply map_ext, lower_upper_char.
Qed.

Lemma upper_lower s : Str.upper (Str.lower s) = Str.upper s.
Proof.
  unfold Str.lower, Str.upper. rewrite map_map.
  apply map_ext, upper_lower_char.
Qed.

Lemma upper_upper s : Str.upper (Str.upper s) = Str.upper s.
Proof.
  unfold Str.upper. rewrite map_map. apply map_ext.
  intros c. destruct c as [[] [] [] [] [] [] [] []]; reflexivity.
Qed.

Definition labels : list text :=
  map T ["income"; "transfer"; "cash_withdrawal"; "food"; "transport";
         "shopping"; "utility"; "expense"]%string.

Lemma first_expense_labels d name :
  TransactionParser.first_expense TransactionParser.expense_keywords d = Some name ->
  In name (map T ["food"; "transport"; "shopping"; "utility"]%string).
Proof.
  unfold TransactionParser.expense_keywords.
  cbn [TransactionParser.first_expense].
  repeat (destruct (TransactionParser.any_keyword _ d);
          [intros [= <-]; simpl; tauto|]).
  discriminate.
Qed.

End LabelFacts.

(** The category the parser assigns is one of eight labels and does not
    depend on the case of the ASCII letters of the description; the label
    "expense" is the default of the transactions that are not credits, so
    a CR transaction is never labelled "expense". *)
Theorem parser_category_labels :
  forall (description ty : text),
    In (TransactionParser._categorize_transaction description ty) LabelFacts.labels /\
    TransactionParser._categorize_transaction (Str.upper description) ty
    = TransactionParser._categorize_transaction description ty /\
    TransactionParser._categorize_transaction description (T "CR") <> T "expense".
Proof.
  intros d ty. repeat split.
  - unfold TransactionParser._categorize_transaction.
    repeat (destruct (TransactionParser.any_keyword _ _);
            [unfold LabelFacts.labels; simpl; tauto|]).
    destruct (TransactionParser.first_expense _ _) as [n|] eqn:E.
    + apply LabelFacts.first_expense_labels in E.
      unfold LabelFacts.labels. simpl in *. tauto.
    + destruct (Str.eqb ty (T "CR")); unfold LabelFacts.labels; simpl; tauto.
  - unfold TransactionParser._categorize_transaction.
    now rewrite LabelFacts.lower_upper.
  - unfold TransactionParser._categorize_transaction.
    repeat (destruct (TransactionParser.any_keyword _ _); [discriminate|]).
    destruct (TransactionParser.first_expense _ _) as [n|] eqn:E.
    + apply LabelFacts.first_expense_labels in E. simpl in E.
      repeat (destruct E as [<-|E]; [discriminate|]). destruct E.
    + discriminate.
Qed.

(** ** Which amount strings are valid *)

(** [validate_amount_format] accepts exactly the strings [parse_amount]
    gives a value for. *)
Theorem valid_amounts_are_the_parsed_ones :
  forall (s : text),
    AmountParser.validate_amount_format s = true <->
    exists v, AmountParser.parse_amount s = Some v.
Proof.
  intros s. unfold AmountParser.validate_amount_format, AmountParser.parse_amount.
  destruct s as [|c s].
  - split; [discriminate|intros (v & H); discriminate].
  - destruct (AmountParser._clean_amount_string (c :: s)) as [[|x cl]|].
    + split; [discriminate|intros (v & H); discriminate].
    + destruct (Py.float64_of _) as [a|].
      * split; [intros _; eexists; reflexivity|reflexivity].
      * split; [discriminate|intros (v & H); discriminate].
    + split; [discriminate|intros (v & H); discriminate].
Qed.

(** ** Bank detection (bank_format_detector.py) *)

Module DetectFacts.
Import BankFormatDetector.

Lemma startswith_app a b s :
  Str.startswith (a ++ b) s = true -> Str.startswith a s = true.
Proof.
  revert s. induction a as [|x a IH]; intros s H; [reflexivity|].
  destruct s as [|y s]; [discriminate|]. simpl in *.
  apply andb_prop in H as [E H]. rewrite E. simpl. now apply IH.
Qed.

(** A text that holds [a ++ b] holds [a]. *)
Lemma contains_app a b s :
  Str.contains (a ++ b) s = true -> Str.contains a s = true.
Proof.
  induction s as [|c s IH]; simpl; intros H.
  - apply orb_prop in H as [H|H]; [|discriminate].
    apply startswith_app in H. now rewrite H.
  - apply orb_prop in H as [H|H].
    + apply startswith_app in H. now rewrite H.
    + rewrite (IH H). apply orb_true_r.
Qed.

Lemma redundant a b s :
  Str.contains a s || Str.contains (a ++ b) s = Str.contains a s.
Proof.
  destruct (Str.contains a s) eqn:A; [reflexivity|]. simpl.
  destruct (Str.contains (a ++ b) s) eqn:B; [|reflexivity].
  apply contains_app in B. congruence.
Qed.

Definition has (word : string) (text_upper : text) : bool :=
  Str.contains (T word) text_upper.

(** The scan of the four profiles, by the words that decide it. *)
Lemma keyword_scan_words u :
  keyword_scan u bank_indicators =
  if has "HDFC" u then Some (T "hdfc")
  else if has "SBI" u || has "STATE BANK" u then Some (T "sbi")
  else if has "ICICI" u then Some (T "icici")
  else if has "AXIS" u then Some (T "axis")
  else None.
Proof.
  unfold bank_indicators, has. cbn [keyword_scan keywords existsb].
  change (Str.upper (T "HDFC")) with (T "HDFC").
  change (Str.upper (T "HDFC BANK")) with (T "HDFC" ++ T " BANK").
  change (Str.upper (T "HDFC Bank")) with (T "HDFC" ++ T " BANK").
  change (Str.upper (T "SBI")) with (T "SBI").
  change (Str.upper (T "STATE BANK")) with (T "STATE BANK").
  change (Str.upper (T "State Bank of India")) with (T "STATE BANK" ++ T " OF INDIA").
  change (Str.upper (T "ICICI")) with (T "ICICI").
  change (Str.upper (T "ICICI BANK")) with (T "ICICI" ++ T " BANK").
  change (Str.upper (T "ICICI Bank")) with (T "ICICI" ++ T " BANK").
  change (Str.upper (T "AXIS")) with (T "AXIS").
  change (Str.upper (T "AXIS BANK")) with (T "AXIS" ++ T " BANK").
  change (Str.upper (T "Axis Bank")) with (T "AXIS" ++ T " BANK").
  rewrite !orb_false_r, !orb_diag.
  rewrite !(redundant (T "HDFC") (T " BANK") u).
  rewrite !(redundant (T "ICICI") (T " BANK") u).
  rewrite !(redundant (T "AXIS") (T " BANK") u).
  rewrite (redundant (T "STATE BANK") (T " OF INDIA") u).
  reflexivity.
Qed.

Lemma detect_not_auto txt : Str.eqb (detect_bank_format txt) (T "auto") = false.
Proof.
  unfold detect_bank_format. rewrite keyword_scan_words.
  repeat (match goal with |- context [if ?b then _ else _] => destruct b end;
          try reflexivity).
Qed.

End DetectFacts.

(** The detector answers by four words alone, looked for in the upper-cased
    text in this order: "HDFC"; "SBI" or "STATE BANK"; "ICICI"; "AXIS".  The
    longer keywords of the profiles never change the answer, nor does the
    case of the ASCII letters of the text; without any of the words the
    answer is "generic". *)
Theorem detector_is_decided_by_four_words :
  forall (txt : text),
    let u := Str.upper txt in
    BankFormatDetector.detect_bank_format txt =
      (if DetectFacts.has "HDFC" u then T "hdfc"
       else if DetectFacts.has "SBI" u || DetectFacts.has "STATE BANK" u then T "sbi"
       else if DetectFacts.has "ICICI" u then T "icici"
       else if DetectFacts.has "AXIS" u then T "axis"
       else T "generic") /\
    BankFormatDetector.detect_bank_format (Str.lower txt)
    = BankFormatDetector.detect_bank_format txt /\
    BankFormatDetector.detect_bank_format (Str.upper txt)
    = BankFormatDetector.detect_bank_format txt.
Proof.
  intros txt u. repeat split.
  - unfold BankFormatDetector.detect_bank_format. fold u.
    rewrite DetectFacts.keyword_scan_words.
    repeat (match goal with |- context [if ?b then _ else _] => destruct b end;
            try reflexivity).
  - unfold BankFormatDetector.detect_bank_format.
    now rewrite LabelFacts.upper_lower.
  - unfold BankFormatDetector.detect_bank_format.
    assert (E : Str.upper (Str.upper txt) = Str.upper txt).
    { unfold Str.upper. rewrite map_map. apply map_ext.
      intros c. destruct c as [[] [] [] [] [] [] [] []]; reflexivity. }
    now rewrite E.
Qed.

(** Parsing with the bank type "auto" gives the rows of a parse with the
    bank type the detector answers for the text; the detected type is
    recorded in the statistics, and in every row. *)
Theorem auto_detection_composes :
  forall cp dateutil pd (txt : text),
    let detected := BankFormatDetector.detect_bank_format txt in
    let r := TransactionParser.parse_transactions cp dateutil pd txt (T "auto") in
    let r' := TransactionParser.parse_transactions cp dateutil pd txt detected in
    fst r = fst r' /\
    bank_type_detected (snd r) = Some detected /\
    bank_type_detected (snd r') = None /\
    Forall (fun t => bank_type t = detected) (fst r).
Proof.
  intros cp du pd txt detected r r'. subst r r'.
  pose proof (DetectFacts.detect_not_auto txt) as Na. fold detected in Na.
  unfold TransactionParser.parse_transactions.
  change (Str.eqb (T "auto") (T "auto")) with true. cbv iota.
  fold detected. rewrite Na. clearbody detected.
  set (ms := RegexPatterns.find_all_transactions cp txt detected).
  match goal with
  | |- context [TransactionParser.parse_matches du ?a ms detected] =>
      match goal with
      | |- context [TransactionParser.parse_matches du ?b ms detected] =>
          tryif constr_eq a b then fail else
            destruct (ParseFacts.parse_matches_stats du ms detected a b)
              as (A & _ & _ & _);
            pose proof (ParseFacts.parse_matches_stats du ms detected a a)
              as (_ & _ & _ & _);
            set (sa := a) in *; set (sb := b) in *
      end
  end.
  assert (Bd : forall st, bank_type_detected
                 (snd (TransactionParser.parse_matches du st ms detected))
               = bank_type_detected st).
  { clear. induction ms as [|m ms IH]; intros st; [reflexivity|]. simpl.
    destruct (ParseFacts.parse_match_stats du m detected) as (t & e & E).
    rewrite (E st).
    specialize (IH (if e then TransactionParser.add_error st else st)).
    destruct (TransactionParser.parse_matches du _ ms detected) as [ts st2].
    simpl in *. rewrite IH. now destruct e. }
  assert (Bk : forall st, Forall (fun t => bank_type t = detected)
                 (fst (TransactionParser.parse_matches du st ms detected))).
  { clear. induction ms as [|m ms IH]; intros st; [constructor|]. simpl.
    destruct (TransactionParser._parse_transaction_match du st m detected)
      as [t st1] eqn:E.
    specialize (IH st1).
    destruct (TransactionParser.parse_matches du st1 ms detected) as [ts st2].
    simpl in *. destruct t as [t|]; [|exact IH].
    constructor; [|exact IH].
    unfold TransactionParser._parse_transaction_match in E.
    destruct m as [|g1 [|g2 [|g3 [|g4 [|g5 [|g6 [|g7 m]]]]]]];
      try discriminate.
    - destruct g4; [|discriminate]. now injection E as <- _.
    - destruct g4, g5; try discriminate. now injection E as <- _.
    - destruct g5, g6; try discriminate. now injection E as <- _. }
  pose proof (Bd sa) as Ba. pose proof (Bd sb) as Bb.
  pose proof (Bk sa) as Ka.
  destruct (TransactionParser.parse_matches du sa ms detected) as [ts s1].
  destruct (TransactionParser.parse_matches du sb ms detected) as [ts' s2].
  simpl in *. subst ts'. repeat split; try assumption.
  destruct ts as [|t ts]; [constructor|].
  apply (Permutation_Forall
           (Permutation_sym (SortFacts.sort_transactions_perm pd (t :: ts)))).
  exact Ka.
Qed.

(** ** Where a match lies in the text *)

Module ExtentFacts.
Import Re.

Lemma within_any (fl : flags) (r : re) : ReFacts.within fl (fun _ => True) r.
Proof. induction r; simpl; auto. Qed.

(** What one attempt reads is a prefix of the text it is given. *)
Lemma match_here_prefix (p : pattern) pv s s1 cs1 :
  match_here p pv s = Some (s1, cs1) ->
  exists u, s = u ++ s1.
Proof.
  intros E. unfold match_here in E.
  destruct (ReFacts.exec_sound _ _ (fun _ => True) _ _ _ _ _ _
              (within_any _ _) E) as (u & s2 & pv2 & cs2 & Es & _ & K).
  injection K as <- <-. now exists u.
Qed.

(** The text of a match found by [search] is made of characters of the
    text searched. *)
Lemma search_from_cons (p : pattern) before pv c s :
  search_from p before pv (c :: s) =
  match match_here p pv (c :: s) with
  | Some res => Some (mobj_at p (rev before) (c :: s) res)
  | None => search_from p (c :: before) (Some c) s
  end.
Proof. reflexivity. Qed.

Lemma search_from_nil (p : pattern) before pv :
  search_from p before pv [] =
  match match_here p pv [] with
  | Some res => Some (mobj_at p (rev before) [] res)
  | None => None
  end.
Proof. reflexivity. Qed.

Lemma mobj_text (p : pattern) before u s1 cs1 :
  m_text (mobj_at p before (u ++ s1) (s1, cs1)) = u.
Proof. unfold mobj_at. cbn [m_text]. apply ReFacts.firstn_prefix. Qed.

Lemma search_text_incl (p : pattern) s :
  forall before pv m,
    search_from p before pv s = Some m -> incl (m_text m) s.
Proof.
  induction s as [|c s IH]; intros before pv m H.
  - rewrite search_from_nil in H.
    destruct (match_here p pv []) as [[s1 cs1]|] eqn:E; [|discriminate].
    injection H as <-.
    destruct (match_here_prefix p pv [] s1 cs1 E) as (u & Eu).
    symmetry in Eu. apply app_eq_nil in Eu as [-> ->].
    simpl. apply incl_refl.
  - rewrite search_from_cons in H.
    destruct (match_here p pv (c :: s)) as [[s1 cs1]|] eqn:E.
    + assert (Hm : m = mobj_at p (rev before) (c :: s) (s1, cs1)) by congruence.
      destruct (match_here_prefix p pv (c :: s) s1 cs1 E) as (u & Eu).
      rewrite Hm, Eu, mobj_text. apply incl_appl, incl_refl.
    + apply incl_tl. exact (IH _ _ _ H).
Qed.

End ExtentFacts.

(** ** Amount strings without a digit *)

Module DigitFacts.
Import AmountFacts.

#[local] Arguments Ascii.eqb : simpl never.
#[local] Arguments Str.is_digit : simpl never.
#[local] Arguments Str.is_space : simpl never.

Definition no_digit (s : text) : Prop := Forall (fun c => Str.is_digit c = false) s.

Lemma no_digit_incl a b : incl a b -> no_digit b -> no_digit a.
Proof.
  unfold no_digit. rewrite !Forall_forall. intros I H c Hc. apply H, I, Hc.
Qed.

Lemma lstrip_incl s : incl (Str.lstrip s) s.
Proof.
  induction s as [|c s IH]; simpl; [apply incl_refl|].
  destruct (Str.is_space c); [now apply incl_tl|apply incl_refl].
Qed.

Lemma strip_incl s : incl (Str.strip s) s.
Proof.
  unfold Str.strip, Str.rstrip. intros c H. apply in_rev in H.
  apply lstrip_incl in H. apply in_rev in H. now apply lstrip_incl in H.
Qed.

Lemma removelast_incl (s : text) : incl (removelast s) s.
Proof.
  induction s as [|c s IH]; [apply incl_refl|].
  simpl. destruct s as [|d s]; [intros x []|].
  intros x [<-|H]; [now left|right; now apply IH].
Qed.

Lemma first_match_incl pats s m :
  AmountParser.first_match pats s = Some m -> incl m s.
Proof.
  induction pats as [|pat pats IH]; simpl; [discriminate|].
  destruct (AmountParser.re_search pat s) as [mo|] eqn:E.
  - intros [= <-]. unfold AmountParser.re_search in E.
    destruct (Re.compile Re.no_flags pat) as [p|]; [|discriminate].
    exact (ExtentFacts.search_text_incl p s [] None mo E).
  - exact IH.
Qed.

(** What the cleaner extracts from a text without a digit holds no digit. *)
Lemma clean_no_digit s cleaned :
  no_digit s ->
  AmountParser._clean_amount_string s = Some cleaned -> no_digit cleaned.
Proof.
  intros N. unfold AmountParser._clean_amount_string.
  match goal with
  | |- context [AmountParser.first_match _ ?x] => set (s' := x)
  end.
  assert (N' : no_digit s').
  { pose proof (no_digit_incl _ _ (strip_incl s) N) as Ns.
    subst s'. destruct (_ && _); [|exact Ns].
    constructor; [reflexivity|].
    apply (no_digit_incl _ (Str.strip s)); [|exact Ns].
    intros c H. apply removelast_incl in H.
    destruct (Str.strip s); [destruct H|now right]. }
  destruct (AmountParser.first_match AmountParser.amount_patterns s') as [m|] eqn:E.
  - intros [= <-]. apply first_match_incl in E. exact (no_digit_incl _ _ E N').
  - destruct (AmountParser.re_search "[\d,]*\.?\d+" s') as [mo|] eqn:F;
      [|discriminate].
    intros [= <-]. unfold AmountParser.re_search in F.
    destruct (Re.compile Re.no_flags "[\d,]*\.?\d+") as [p|]; [|discriminate].
    exact (no_digit_incl _ _ (ExtentFacts.search_text_incl p s' [] None mo F) N').
Qed.

(** [float] raises on a run of points. *)
Lemma float_of_points s :
  Forall (fun c => c = "."%char) s -> Py.float s = None.
Proof.
  intros H. unfold Py.float.
  rewrite strip_id by (eapply Forall_impl; [|exact H]; now intros c ->).
  destruct s as [|c s]; [reflexivity|].
  inversion H as [|? ? Hc Hs]; subst.
  unfold Py.split_sign. change (Ascii.eqb "." "-") with false.
  change (Ascii.eqb "." "+") with false. cbv iota.
  simpl Str.take_while. change (Str.is_digit ".") with false. cbv iota.
  simpl Str.drop_while. change (Str.is_digit ".") with false. cbv iota.
  unfold Py.fraction. change (Ascii.eqb "." ".") with true. cbv iota.
  destruct s as [|d s]; [reflexivity|].
  inversion Hs; subst. simpl Str.take_while.
  change (Str.is_digit ".") with false. reflexivity.
Qed.

Lemma no_digit_parse s :
  no_digit s -> AmountParser.parse_amount s = None.
Proof.
  intros N. unfold AmountParser.parse_amount. destruct s as [|x s]; [reflexivity|].
  destruct (AmountParser._clean_amount_string (x :: s)) as [cleaned|] eqn:E;
    [|reflexivity].
  pose proof (clean_no_digit _ _ N E) as Nc.
  pose proof (AmountRoundTrip.clean_chars _ _ E) as Ac.
  destruct cleaned as [|y cl]; [reflexivity|].
  rewrite (AmountRoundTrip.float64_plain _ (AmountRoundTrip.no_commas_plain _ Ac)).
  rewrite float_of_points; [reflexivity|].
  rewrite replace_comma. apply Forall_forall. intros c Hc.
  apply filter_In in Hc as [Hc Nc'].
  unfold no_digit in Nc. rewrite Forall_forall in Nc, Ac.
  destruct (Ac c Hc) as [D|[->| ->]]; [|discriminate|reflexivity].
  rewrite (Nc c Hc) in D. discriminate.
Qed.

End DigitFacts.

(** An ASCII string without a decimal digit has no amount: [parse_amount]
    gives no value for it and [validate_amount_format] rejects it, whatever
    commas, points, signs or parentheses it holds.  (Outside ASCII a string
    may hold digits of other scripts, which Python reads.) *)
Theorem amount_without_digit_is_rejected :
  forall (s : text),
    Forall (fun c => Str.is_ascii c = true) s ->
    Forall (fun c => Str.is_digit c = false) s ->
    AmountParser.parse_amount s = None /\
    AmountParser.validate_amount_format s = false.
Proof.
  intros s _ N. split; [now apply DigitFacts.no_digit_parse|].
  destruct (AmountParser.validate_amount_format s) eqn:V; [|reflexivity].
  pose proof (DigitFacts.no_digit_parse s N) as P.
  unfold AmountParser.validate_amount_format in V.
  unfold AmountParser.parse_amount in P.
  destruct s as [|c s]; [discriminate V|].
  destruct (AmountParser._clean_amount_string (c :: s)) as [[|x cl]|];
    try discriminate.
  destruct (Py.float64_of _); discriminate.
Qed.

Lemma amount_without_digit_is_rejected_witness :
  AmountParser.parse_amount (T "(Rs. -,.-)") = None.
Proof.
  apply (amount_without_digit_is_rejected (T "(Rs. -,.-)"));
    repeat constructor.
Defined.

(** ** Negative amounts in accounting notation *)

Module SignFacts.
Import AmountFacts.

#[local] Arguments Ascii.eqb : simpl never.
#[local] Arguments Str.is_digit : simpl never.
#[local] Arguments Str.is_space : simpl never.
#[local] Arguments Re.cset_mem : simpl never.

Lemma search_from_hit (p : Re.pattern) before pv s res :
  Re.match_here p pv s = Some res ->
  Re.search_from p before pv s = Some (Re.mobj_at p (rev before) s res).
Proof. intros H. destruct s; simpl; now rewrite H. Qed.

Section Formatted.
Variables (ds : text) (d1 d2 : ascii).
Hypothesis Hds : Forall (is_true Str.is_digit) ds.
Hypothesis Hne : ds <> [].
Hypothesis Hd1 : Str.is_digit d1 = true.
Hypothesis Hd2 : Str.is_digit d2 = true.

#[local] Abbreviation f := (AmountRoundTrip.formatted ds d1 d2).

Definition first_pattern : Re.pattern :=
  {| Re.ast := Re.Seq (Re.Rep true 1 None AmountRoundTrip.DC)
                 (Re.Seq (Re.Chr (Re.lit "."))
                         (Re.Rep true 2 (Some 2) AmountRoundTrip.D));
     Re.ngroups := 0; Re.pflags := Re.no_flags |}.

(** The first amount pattern reads a formatted amount whole, wherever it
    stands. *)
Lemma formatted_match_here pv :
  Re.match_here first_pattern pv f = Some ([], []).
Proof.
  unfold Re.match_here, first_pattern. simpl Re.ast. simpl Re.pflags.
  simpl Re.exec. unfold AmountRoundTrip.formatted.
  apply ReFacts.rep_greedy_run.
  - eapply Forall_impl; [|exact (AmountRoundTrip.group_chars ds Hds)].
    apply AmountRoundTrip.dc_mem.
  - pose proof (group3_not_nil ds Hne) as G.
    destruct (Py.group3 ds); [congruence|simpl; lia].
  - reflexivity.
  - change (Re.cset_mem (Re.ignorecase Re.no_flags) (Re.lit ".") ".") with true.
    cbv iota.
    rewrite (ReFacts.rep_exact Re.no_flags _ AmountRoundTrip.D [d1; d2] true _ []).
    + reflexivity.
    + repeat constructor; now apply AmountRoundTrip.d_mem.
Qed.

Lemma no_space_in_formatted : Forall (fun c => Str.is_space c = false) f.
Proof.
  unfold AmountRoundTrip.formatted. apply Forall_app. split.
  - eapply Forall_impl; [|exact (AmountRoundTrip.group_chars ds Hds)].
    apply AmountRoundTrip.group_char_not_space.
  - repeat constructor; try reflexivity; now apply digit_not_space.
Qed.

Definition parenthesised : text := T "(" ++ f ++ T ")".

(** The cleaner turns the parentheses into a minus sign and then extracts
    the digits after it. *)
Lemma parenthesised_clean :
  AmountParser._clean_amount_string parenthesised = Some f.
Proof.
  unfold AmountParser._clean_amount_string.
  assert (St : Str.strip parenthesised = parenthesised).
  { apply strip_id. unfold parenthesised. constructor; [reflexivity|].
    apply Forall_app. split; [exact no_space_in_formatted|].
    repeat constructor. }
  rewrite St.
  assert (Sw : Str.startswith (T "(") parenthesised = true) by reflexivity.
  assert (Ew : Str.endswith (T ")") parenthesised = true).
  { unfold Str.endswith, parenthesised.
    change (T "(" ++ f ++ T ")") with (("("%char :: f) ++ [")"%char]).
    rewrite rev_app_distr. reflexivity. }
  rewrite Sw, Ew. simpl andb. cbv iota.
  assert (Rl : removelast (tl parenthesised) = f).
  { unfold parenthesised. simpl tl. apply removelast_last. }
  rewrite Rl.
  unfold AmountParser.amount_patterns, AmountParser.first_match,
    AmountParser.re_search.
  change (Re.compile Re.no_flags "[\d,]+\.\d{2}") with (Some first_pattern).
  cbv iota beta. unfold Re.search.
  rewrite ExtentFacts.search_from_cons.
  change (Re.match_here first_pattern None ("-"%char :: f)) with
    (@None (text * Re.captures)).
  cbv iota.
  rewrite (search_from_hit first_pattern ["-"%char] (Some "-"%char) f ([], []))
    by apply formatted_match_here.
  unfold Re.mobj_at. cbn [Re.m_text]. simpl length.
  now rewrite Nat.sub_0_r, firstn_all.
Qed.

(** Between parentheses the amount is read as without them. *)
Lemma parenthesised_parses :
  AmountParser.parse_amount parenthesised = AmountParser.parse_amount f.
Proof.
  assert (Ne : f <> []).
  { destruct (AmountRoundTrip.formatted_head ds d1 d2 Hds Hne)
      as (c & rest & E & _). rewrite E. discriminate. }
  rewrite (AmountRoundTrip.parse_amount_of_clean parenthesised f);
    [|discriminate|exact Ne|exact parenthesised_clean].
  rewrite (AmountRoundTrip.parse_amount_of_clean f f Ne Ne);
    [reflexivity|].
  now apply AmountRoundTrip.formatted_clean.
Qed.
End Formatted.

Lemma format_negative_cents c :
  (0 < c)%Z ->
  AmountParser.format_amount (Py.Finite (- (c # 100))) false
  = T "(" ++ AmountParser.format_amount (Py.Finite (c # 100)) false ++ T ")".
Proof.
  intros H. unfold AmountParser.format_amount, Py.fabs, Py.negative.
  assert (A1 : Qabs (- (c # 100)) = (c # 100)%Q).
  { unfold Qabs, Qopp. simpl. now rewrite Z.abs_opp, Z.abs_eq by lia. }
  assert (A2 : Qabs (c # 100) = (c # 100)%Q).
  { unfold Qabs. now rewrite Z.abs_eq by lia. }
  assert (N1 : Py.is_neg (- (c # 100)) = true).
  { unfold Py.is_neg. simpl. apply Z.ltb_lt. lia. }
  assert (N2 : Py.is_neg (c # 100) = false).
  { unfold Py.is_neg. simpl. apply Z.ltb_ge. lia. }
  now rewrite A1, A2, N1, N2.
Qed.

Lemma negative_cents_parse c :
  (0 < c)%Z ->
  (c # 100 < Py.overflow_bound)%Q ->
  AmountParser.parse_amount
    (AmountParser.format_amount (Py.Finite (- (c # 100))) false)
  = Some (Py.Finite (c # 100)%Q).
Proof.
  intros H B. rewrite (format_negative_cents c H).
  rewrite <- (AmountRoundTrip.roundtrip_cents c) by (try lia; exact B).
  rewrite (AmountRoundTrip.format_cents c) by lia.
  destruct (digits_of_spec (Z.to_N c / 100)) as (_ & Dg & Ne).
  assert (H1 : ((Z.to_N c mod 100) / 10 < 10)%N).
  { apply N.Div0.div_lt_upper_bound.
    pose proof (N.mod_lt (Z.to_N c) 100). lia. }
  assert (H2 : (Z.to_N c mod 10 < 10)%N) by (apply N.mod_lt; lia).
  fold (parenthesised (Str.digits_of (Z.to_N c / 100))
          (Str.digit_char ((Z.to_N c mod 100) / 10))
          (Str.digit_char (Z.to_N c mod 10))).
  apply parenthesised_parses;
    try (apply digit_char_spec; assumption); assumption.
Qed.

End SignFacts.

(** [format_amount] writes a negative amount between parentheses, and
    [parse_amount] reads that notation as the positive amount: the opposite
    of any non-zero finite parsed value, below the overflow bound of a
    double, formatted and parsed again, comes back without its sign. *)
Theorem negative_amount_loses_sign :
  forall (s : text) (v : Q),
    AmountParser.parse_amount s = Some (Py.Finite v) ->
    (v < Py.overflow_bound)%Q ->
    ~ (v == 0)%Q ->
    AmountParser.format_amount (Py.Finite (- v)) false
    = T "(" ++ AmountParser.format_amount (Py.Finite v) false ++ T ")" /\
    AmountParser.parse_amount (AmountParser.format_amount (Py.Finite (- v)) false)
    = Some (Py.Finite v).
Proof.
  intros s v H B N.
  destruct (AmountRoundTrip.parse_amount_cents s _ H) as [I|(c & Hc & E)];
    [discriminate|].
  injection E as ->.
  assert (P : (0 < c)%Z).
  { destruct (Z.eq_dec c 0) as [->|Ne]; [|lia]. exfalso. apply N. reflexivity. }
  split; [now apply SignFacts.format_negative_cents
         |now apply SignFacts.negative_cents_parse].
Qed.

Lemma negative_amount_loses_sign_witness :
  AmountParser.parse_amount (T "1,234.56") = Some (Py.Finite (123456 # 100)%Q) /\
  AmountParser.format_amount (Py.Finite (- (123456 # 100))) false = T "(1,234.56)" /\
  AmountParser.parse_amount (T "(1,234.56)") = Some (Py.Finite (123456 # 100)%Q).
Proof.
  assert (H : AmountParser.parse_amount (T "1,234.56")
              = Some (Py.Finite (123456 # 100)%Q))
    by (vm_compute; reflexivity).
  assert (B : (123456 # 100 < Py.overflow_bound)%Q) by (vm_compute; reflexivity).
  assert (N : ~ (123456 # 100 == 0)%Q) by discriminate.
  destruct (negative_amount_loses_sign (T "1,234.56") (123456 # 100)%Q H B N)
    as [F P].
  assert (E : AmountParser.format_amount (Py.Finite (- (123456 # 100))) false
              = T "(1,234.56)")
    by (vm_compute; reflexivity).
  rewrite E in P. repeat split; assumption.
Defined.

(** ** Patterns that need a second line *)

Module LineFacts.
Import Re.

#[local] Arguments Re.cset_mem : simpl never.
#[local] Arguments Ascii.eqb : simpl never.

(** A text without a line feed. *)
Definition one_line (s : text) : Prop := Forall (fun c => c <> newline) s.

(** A position inside a line: the character before it is not a line feed. *)
Definition inside (pv : option ascii) : Prop :=
  exists c, pv = Some c /\ c <> newline.

Section Exec.
Variable fl : flags.
Variable R : Type.

(** From a position inside a line a repetition leads to positions inside
    the line only. *)
Lemma rep_inside s :
  forall g cs lo hi pv (k : option ascii -> text -> option R),
    one_line s -> inside pv ->
    (forall pv' s', inside pv' -> one_line s' -> k pv' s' = None) ->
    rep_exec fl g cs lo hi pv s k = None.
Proof.
  induction s as [|c s IH]; intros g cs lo hi pv k L I K; simpl.
  - destruct lo; [now apply K|reflexivity].
  - inversion L as [|? ? Hc Ls]; subst.
    assert (Ic : inside (Some c)) by (exists c; now split).
    assert (More : forall lo' hi', rep_exec fl g cs lo' hi' (Some c) s k = None)
      by (intros; now apply IH).
    assert (Stop : k pv (c :: s) = None) by now apply K.
    destruct (cset_mem (ignorecase fl) cs c && _); destruct lo as [|lo];
      try reflexivity; try exact Stop; try apply More.
    destruct g; rewrite More, Stop; reflexivity.
Qed.

Lemma exec_inside r :
  forall pv s cs (k : option ascii -> text -> captures -> option R),
    one_line s -> inside pv ->
    (forall pv' s' cs', inside pv' -> one_line s' -> k pv' s' cs' = None) ->
    exec fl r pv s cs k = None.
Proof.
  induction r as [|c|a IHa b IHb|a IHa b IHb|g lo hi c|i a IHa| | |];
    intros pv s cs k L I K; simpl.
  - now apply K.
  - destruct s as [|x s]; [reflexivity|].
    inversion L as [|? ? Hx Ls]; subst.
    destruct (cset_mem (ignorecase fl) c x); [|reflexivity].
    apply K; [exists x; now split|exact Ls].
  - apply IHa; try assumption. intros pv' s' cs' I' L'. now apply IHb.
  - rewrite IHa, IHb by assumption. reflexivity.
  - apply rep_inside; try assumption. intros pv' s' I' L'. now apply K.
  - apply IHa; try assumption. intros pv' s' cs' I' L'. now apply K.
  - destruct (at_bol (multiline fl) pv); [now apply K|reflexivity].
  - destruct (at_eol (multiline fl) s); [now apply K|reflexivity].
  - destruct (word_boundary pv s); [now apply K|reflexivity].
Qed.

(** Every way through the expression passes a [^]. *)
Fixpoint needs_bol (r : re) : bool :=
  match r with
  | Bol => true
  | Seq a b => needs_bol a || needs_bol b
  | Alt a b => needs_bol a && needs_bol b
  | Grp _ a => needs_bol a
  | _ => false
  end.

(** Inside a line no [^] matches. *)
Lemma needs_bol_fails r :
  forall pv s cs (k : option ascii -> text -> captures -> option R),
    needs_bol r = true -> one_line s -> inside pv ->
    exec fl r pv s cs k = None.
Proof.
  induction r as [|c|a IHa b IHb|a IHa b IHb|g lo hi c|i a IHa| | |];
    intros pv s cs k N L I; simpl in N; try discriminate; simpl.
  - apply orb_prop in N as [N|N].
    + now apply IHa.
    + apply exec_inside; try assumption.
      intros pv' s' cs' I' L'. now apply IHb.
  - apply andb_prop in N as [Na Nb]. rewrite IHa, IHb by assumption. reflexivity.
  - now apply IHa.
  - destruct I as (c & -> & Hc). unfold at_bol.
    apply Ascii.eqb_neq in Hc. rewrite Hc, andb_false_r. reflexivity.
Qed.

(** The expression starts by reading a character. *)
Fixpoint consumes (r : re) : bool :=
  match r with
  | Chr _ => true
  | Rep _ (S _) _ _ => true
  | Seq a _ => consumes a
  | Alt a b => consumes a && consumes b
  | Grp _ a => consumes a
  | _ => false
  end.

Lemma consumes_enters r :
  forall pv s cs (k : option ascii -> text -> captures -> option R),
    consumes r = true -> one_line s ->
    (forall pv' s' cs', inside pv' -> one_line s' -> k pv' s' cs' = None) ->
    exec fl r pv s cs k = None.
Proof.
  induction r as [|c|a IHa b IHb|a IHa b IHb|g lo hi c|i a IHa| | |];
    intros pv s cs k C L K; simpl in C; try discriminate; simpl.
  - destruct s as [|x s]; [reflexivity|].
    inversion L as [|? ? Hx Ls]; subst.
    destruct (cset_mem (ignorecase fl) c x); [|reflexivity].
    apply K; [exists x; now split|exact Ls].
  - apply IHa; try assumption.
    intros pv' s' cs' I' L'. now apply exec_inside.
  - apply andb_prop in C as [Ca Cb]. rewrite IHa, IHb by assumption. reflexivity.
  - destruct lo as [|lo]; [discriminate|].
    destruct s as [|x s]; [reflexivity|]. simpl.
    inversion L as [|? ? Hx Ls]; subst.
    destruct (cset_mem (ignorecase fl) c x && _); [|reflexivity].
    apply rep_inside; [exact Ls|exists x; now split|].
    intros pv' s' I' L'. now apply K.
  - apply IHa; try assumption. intros pv' s' cs' I' L'. now apply K.
Qed.

(** An expression that reads a character and then needs a [^], with or
    without a [^] in front. *)
Definition second_line (r : re) : bool :=
  match r with
  | Seq Bol (Seq a b) => consumes a && needs_bol b
  | Seq a b => consumes a && needs_bol b
  | _ => false
  end.

Lemma read_then_bol a b :
  forall pv s cs (k : option ascii -> text -> captures -> option R),
    consumes a && needs_bol b = true -> one_line s ->
    exec fl (Seq a b) pv s cs k = None.
Proof.
  intros pv s cs k H L. apply andb_prop in H as [C N]. simpl.
  apply consumes_enters; try assumption.
  intros pv' s' cs' I' L'. now apply needs_bol_fails.
Qed.

Lemma second_line_fails r :
  forall pv s cs (k : option ascii -> text -> captures -> option R),
    second_line r = true -> one_line s ->
    exec fl r pv s cs k = None.
Proof.
  intros pv s cs k H L.
  destruct r as [|c|a b|a b|g lo hi c|i a| | |]; try discriminate.
  destruct a; try (now apply read_then_bol).
  destruct b as [|c|a b|a b|g lo hi c|i a| | |]; try discriminate.
  change (exec fl (Seq Bol (Seq a b)) pv s cs k)
    with (if at_bol (multiline fl) pv
          then exec fl (Seq a b) pv s cs k else None).
  destruct (at_bol (multiline fl) pv); [|reflexivity].
  now apply read_then_bol.
Qed.
End Exec.

Lemma second_line_no_match (p : pattern) (line : text) :
  second_line (ast p) = true -> one_line line -> rmatch p line = None.
Proof.
  intros H L. unfold rmatch, match_here.
  now rewrite (second_line_fails (pflags p) _ (ast p) None line [] _ H L).
Qed.

(** *** Lines of a text *)

Lemma split_lines s : Forall one_line (Str.split newline s).
Proof.
  induction s as [|c s IH]; simpl.
  - repeat constructor.
  - destruct (Ascii.eqb c newline) eqn:E.
    + constructor; [constructor|exact IH].
    + destruct (Str.split newline s) as [|h t]; [repeat constructor|].
      * now apply Ascii.eqb_neq.
      * inversion IH; subst. constructor; [|assumption].
        constructor; [now apply Ascii.eqb_neq|assumption].
Qed.

Lemma lstrip_one_line s : one_line s -> one_line (Str.lstrip s).
Proof.
  induction 1 as [|c s Hc Hs IH]; simpl; [constructor|].
  destruct (Str.is_space c); [exact IH|now constructor].
Qed.

Lemma strip_one_line s : one_line s -> one_line (Str.strip s).
Proof.
  intros H. unfold Str.strip, Str.rstrip, one_line.
  apply Forall_rev. apply lstrip_one_line. apply Forall_rev.
  now apply lstrip_one_line.
Qed.

(** *** Dropping a pattern that matches nothing *)

Lemma first_groups_skip a p b line :
  rmatch p line = None ->
  RegexPatterns.first_groups (a ++ p :: b) line
  = RegexPatterns.first_groups (a ++ b) line.
Proof.
  intros H. induction a as [|q a IH]; simpl.
  - now rewrite H.
  - destruct (rmatch q line); [reflexivity|exact IH].
Qed.

End LineFacts.

(** The generic patterns without the fourth one, the multi-line pattern *)
Definition single_line_patterns : Dict.dict (list Re.pattern) :=
  Dict.set (T "generic")
    (firstn 3 (RegexPatterns.get_patterns RegexPatterns.default_compiled
                 (T "generic")))
    RegexPatterns.default_compiled.

(** The fourth generic pattern, written for a date on one line and the
    details on the next, matches nothing: lines are matched one at a time,
    and within a line its second [^] cannot hold.  The matches found in any
    text, and so the result of any parse, are those found without this
    pattern. *)
Theorem multi_line_pattern_is_dead :
  exists p4,
    RegexPatterns.get_patterns RegexPatterns.default_compiled (T "generic")
    = RegexPatterns.get_patterns single_line_patterns (T "generic") ++ [p4] /\
    Re.compile RegexPatterns.compile_flags
      "^(\d{1,2}[/-]\d{1,2}[/-]\d{4})\s*$\s*^(.*?)\s+([\d,]+\.?\d{0,2})\s+(CR|DR)\s*(.*)$"
    = Some p4 /\
    (forall line, Forall (fun c => c <> Re.newline) line -> Re.rmatch p4 line = None) /\
    (forall txt bank,
        RegexPatterns.find_all_transactions RegexPatterns.default_compiled txt bank
        = RegexPatterns.find_all_transactions single_line_patterns txt bank) /\
    (forall dateutil pd txt bank,
        TransactionParser.parse_transactions RegexPatterns.default_compiled
          dateutil pd txt bank
        = TransactionParser.parse_transactions single_line_patterns
            dateutil pd txt bank).
Proof.
  remember (RegexPatterns.get_patterns RegexPatterns.default_compiled (T "generic"))
    as g eqn:Hg.
  assert (G3 : RegexPatterns.get_patterns single_line_patterns (T "generic")
               = firstn 3 g).
  { unfold RegexPatterns.get_patterns at 1, single_line_patterns.
    now rewrite get_set_same, Hg. }
  assert (Ex : exists p4,
             g = firstn 3 g ++ [p4] /\
             LineFacts.second_line (Re.ast p4) = true /\
             Re.compile RegexPatterns.compile_flags
               "^(\d{1,2}[/-]\d{1,2}[/-]\d{4})\s*$\s*^(.*?)\s+([\d,]+\.?\d{0,2})\s+(CR|DR)\s*(.*)$"
             = Some p4).
  { rewrite Hg. vm_compute. eexists. repeat split. }
  destruct Ex as (p4 & Eg & Dead & Cp).
  remember (firstn 3 g) as g3 eqn:Hg3.
  assert (No : forall line, LineFacts.one_line line -> Re.rmatch p4 line = None).
  { intros line L. now apply LineFacts.second_line_no_match. }
  assert (M : forall line bank,
             LineFacts.one_line line ->
             RegexPatterns.match_transaction RegexPatterns.default_compiled line bank
             = RegexPatterns.match_transaction single_line_patterns line bank).
  { intros line bank L. unfold RegexPatterns.match_transaction.
    pose proof (LineFacts.strip_one_line line L) as Ls.
    destruct (Str.strip line) as [|c s]; [reflexivity|].
    destruct (length (c :: s) <? 10); [reflexivity|].
    rewrite G3, <- Hg.
    destruct (Str.eqb bank (T "generic")) eqn:B.
    - apply str_eqb_eq in B. subst bank. rewrite G3, <- Hg, Eg.
      rewrite <- app_assoc. simpl app.
      rewrite (LineFacts.first_groups_skip g3 p4 (g3 ++ [p4]) (c :: s) (No _ Ls)).
      rewrite app_assoc.
      rewrite (LineFacts.first_groups_skip (g3 ++ g3) p4 [] (c :: s) (No _ Ls)).
      now rewrite app_nil_r.
    - apply str_eqb_neq in B.
      assert (Gb : RegexPatterns.get_patterns single_line_patterns bank
                   = RegexPatterns.get_patterns RegexPatterns.default_compiled bank).
      { unfold RegexPatterns.get_patterns, single_line_patterns.
        now rewrite get_set_other. }
      rewrite Gb, Eg, app_assoc.
      rewrite (LineFacts.first_groups_skip _ p4 [] (c :: s) (No _ Ls)).
      now rewrite app_nil_r. }
  assert (F : forall txt bank,
             RegexPatterns.find_all_transactions RegexPatterns.default_compiled txt bank
             = RegexPatterns.find_all_transactions single_line_patterns txt bank).
  { intros txt bank. unfold RegexPatterns.find_all_transactions.
    pose proof (LineFacts.split_lines txt) as Ls.
    induction Ls as [|line ls Hl _ IH]; [reflexivity|].
    simpl. now rewrite IH, (M line bank Hl). }
  exists p4. repeat split.
  - now rewrite G3.
  - exact Cp.
  - exact No.
  - exact F.
  - intros du pd txt bank. unfold TransactionParser.parse_transactions.
    destruct (Str.eqb bank (T "auto")); now rewrite F.
Qed.

(** ** Custom patterns (regex_patterns.py) *)

Module CustomPatternFacts.
Import RegexPatterns.

Section Lists.
Context {V : Type}.
Implicit Types (d : Dict.dict (list V)) (k : text) (x : V).

Definition old_list d k : list V :=
  match Dict.get k d with Some l => l | None => [] end.

Lemma append_unfold k x d :
  append_to k x (ensure_key k d) = Dict.set k (old_list d k ++ [x]) d.
Proof.
  unfold append_to, ensure_key, old_list. rewrite mem_get.
  destruct (Dict.get k d) as [l|] eqn:G.
  - now rewrite G.
  - rewrite get_set_same. simpl. apply set_set.
Qed.

Lemma keys_of_set k (v : list V) d :
  Dict.keys (Dict.set k v d) =
  if Dict.mem k d then Dict.keys d else Dict.keys d ++ [k].
Proof.
  unfold Dict.keys, Dict.mem. induction d as [|[k2 v2] d IH]; simpl; [reflexivity|].
  destruct (Str.eqb k k2) eqn:E; simpl; [reflexivity|].
  rewrite IH. now destruct (Dict.get k d).
Qed.

Lemma mem_keys k d : Dict.mem k d = true -> In k (Dict.keys d).
Proof.
  unfold Dict.mem, Dict.keys. induction d as [|[k2 v2] d IH]; simpl; [discriminate|].
  destruct (Str.eqb k k2) eqn:E.
  - apply str_eqb_eq in E. now left.
  - intros H. right. now apply IH.
Qed.

Lemma keys_after_append k x d :
  In k (Dict.keys (append_to k x (ensure_key k d))) /\
  incl (Dict.keys d) (Dict.keys (append_to k x (ensure_key k d))).
Proof.
  rewrite append_unfold, keys_of_set.
  destruct (Dict.mem k d) eqn:M; split.
  - now apply mem_keys.
  - apply incl_refl.
  - apply in_or_app. right. now left.
  - apply incl_appl, incl_refl.
Qed.
End Lists.

Lemma patterns_after_append cp bt p b :
  get_patterns (append_to bt p (ensure_key bt cp)) b =
  if Str.eqb b bt then get_patterns cp b ++ [p] else get_patterns cp b.
Proof.
  rewrite append_unfold. unfold get_patterns, old_list.
  destruct (Str.eqb b bt) eqn:E.
  - apply str_eqb_eq in E. subst b. now rewrite get_set_same.
  - apply str_eqb_neq in E. now rewrite get_set_other.
Qed.

(** A list of patterns matches a line when one of them does. *)
Lemma first_groups_some ps line :
  first_groups ps line <> None <->
  exists p, In p ps /\ Re.rmatch p line <> None.
Proof.
  induction ps as [|q ps IH]; simpl.
  - split; [congruence|intros (p & [] & _)].
  - destruct (Re.rmatch q line) as [m|] eqn:E.
    + split; [|discriminate]. intros _. exists q. split; [now left|congruence].
    + rewrite IH. split.
      * intros (p & I & H). exists p. split; [now right|exact H].
      * intros (p & [<-|I] & H); [congruence|]. exists p. now split.
Qed.

Lemma first_groups_mono ps qs line :
  incl ps qs -> first_groups ps line <> None -> first_groups qs line <> None.
Proof.
  intros I H. apply first_groups_some in H as (p & Ip & Hp).
  apply first_groups_some. exists p. split; [now apply I|exact Hp].
Qed.

End CustomPatternFacts.

(** A custom pattern that compiles is entered into both tables under its
    bank type, which from then on is a supported bank, the banks supported
    before staying so.  A line that matched before still matches; for
    another bank type than that of the pattern, when the pattern is not a
    generic one, the groups found are the same.  A pattern that does not
    compile leaves the pattern strings, and so the supported banks, as they
    were. *)
Theorem custom_pattern_extends_matching :
  forall (self : RegexPatterns.instance) (bank_type : text) (pattern : string),
    let r := RegexPatterns.add_custom_pattern self bank_type pattern in
    let cp := RegexPatterns.compiled_patterns self in
    let cp' := RegexPatterns.compiled_patterns (fst r) in
    (snd r = true ->
       In bank_type (RegexPatterns.get_supported_banks (fst r)) /\
       incl (RegexPatterns.get_supported_banks self)
            (RegexPatterns.get_supported_banks (fst r)) /\
       (forall line bank,
           RegexPatterns.match_transaction cp line bank <> None ->
           RegexPatterns.match_transaction cp' line bank <> None) /\
       (forall line bank,
           bank <> bank_type -> bank_type <> T "generic" ->
           RegexPatterns.match_transaction cp' line bank
           = RegexPatterns.match_transaction cp line bank)) /\
    (snd r = false ->
       RegexPatterns.get_supported_banks (fst r)
       = RegexPatterns.get_supported_banks self).
Proof.
  intros self bt pat r cp cp'. subst r cp cp'.
  unfold RegexPatterns.add_custom_pattern.
  destruct (Re.compile RegexPatterns.compile_flags pat) as [p|];
    cbn [fst snd RegexPatterns.compiled_patterns RegexPatterns.patterns
         RegexPatterns.get_supported_banks];
    (split; [|intros H; try discriminate; reflexivity]);
    intros H; try discriminate.
  clear H.
  destruct (CustomPatternFacts.keys_after_append bt pat (RegexPatterns.patterns self))
    as [K1 K2].
  repeat split; try assumption.
  - intros line bank.
    unfold RegexPatterns.match_transaction.
    destruct (Str.strip line) as [|c s]; [congruence|].
    destruct (length (c :: s) <? 10); [congruence|].
    apply CustomPatternFacts.first_groups_mono.
    rewrite !CustomPatternFacts.patterns_after_append.
    apply incl_app.
    + apply incl_appl. destruct (Str.eqb bank bt); [apply incl_appl|]; apply incl_refl.
    + apply incl_appr. destruct (Str.eqb (T "generic") bt);
        [apply incl_appl|]; apply incl_refl.
  - intros line bank Nb Ng.
    unfold RegexPatterns.match_transaction.
    rewrite !CustomPatternFacts.patterns_after_append.
    apply str_eqb_neq in Nb. rewrite Nb.
    assert (Ng' : Str.eqb (T "generic") bt = false).
    { apply str_eqb_neq. congruence. }
    rewrite Ng'. reflexivity.
Qed.

Lemma custom_pattern_extends_matching_witness :
  snd (RegexPatterns.add_custom_pattern RegexPatterns.default_instance (T "pnb")
         "^(\d{2}\.\d{2}\.\d{4})\s+(.*?)\s+([\d,]+\.\d{2})\s+(CR|DR)$") = true /\
  In (T "pnb")
     (RegexPatterns.get_supported_banks
        (fst (RegexPatterns.add_custom_pattern RegexPatterns.default_instance
                (T "pnb")
                "^(\d{2}\.\d{2}\.\d{4})\s+(.*?)\s+([\d,]+\.\d{2})\s+(CR|DR)$"))).
Proof.
  assert (H : snd (RegexPatterns.add_custom_pattern RegexPatterns.default_instance
                     (T "pnb")
                     "^(\d{2}\.\d{2}\.\d{4})\s+(.*?)\s+([\d,]+\.\d{2})\s+(CR|DR)$")
              = true) by (vm_compute; reflexivity).
  split; [exact H|].
  exact (proj1 (proj1 (custom_pattern_extends_matching
                         RegexPatterns.default_instance (T "pnb") _) H)).
Defined.

(** ** What the groups of a match are made of *)

Module CaptureFacts.
Import Re.

#[local] Arguments Re.cset_mem : simpl never.

(** All characters. *)
Definition all_ascii : list ascii := map ascii_of_nat (seq 0 256).

Lemma all_ascii_complete c : In c all_ascii.
Proof.
  unfold all_ascii. rewrite <- (ascii_nat_embedding c).
  apply in_map, in_seq. pose proof (nat_ascii_bounded c). lia.
Qed.

Section Sound.
Variable fl : flags.
Variable R : Type.
(** [G i] holds of the characters the group [i] may read. *)
Variable G : nat -> ascii -> bool.

(** Every member of the set satisfies [p]. *)
Definition set_within (p : ascii -> bool) (cs : cset) : bool :=
  forallb (fun c => implb (cset_mem (ignorecase fl) cs c) (p c)) all_ascii.

Lemma set_within_spec p cs :
  set_within p cs = true ->
  forall c, cset_mem (ignorecase fl) cs c = true -> p c = true.
Proof.
  unfold set_within. rewrite forallb_forall. intros H c M.
  specialize (H c (all_ascii_complete c)). now rewrite M in H.
Qed.

Fixpoint within_b (p : ascii -> bool) (r : re) : bool :=
  match r with
  | Chr cs | Rep _ _ _ cs => set_within p cs
  | Seq a b | Alt a b => within_b p a && within_b p b
  | Grp _ a => within_b p a
  | Eps | Bol | Eol | WordB => true
  end.

Lemma within_b_spec p r :
  within_b p r = true -> ReFacts.within fl (AmountFacts.is_true p) r.
Proof.
  induction r; simpl; intros H; auto;
    try (apply andb_prop in H as [Ha Hb]; split; auto);
    now apply set_within_spec.
Qed.

(** The groups of the expression read characters of their [G] only. *)
Fixpoint groups_within (r : re) : bool :=
  match r with
  | Grp i a => within_b (G i) a && groups_within a
  | Seq a b | Alt a b => groups_within a && groups_within b
  | _ => true
  end.

Definition caps_ok (cs : captures) : Prop :=
  Forall (fun it => Forall (AmountFacts.is_true (G (fst it))) (snd it)) cs.

Lemma within_both (P Q : ascii -> Prop) r :
  ReFacts.within fl P r -> ReFacts.within fl Q r ->
  ReFacts.within fl (fun c => P c /\ Q c) r.
Proof.
  induction r; simpl; intros HP HQ; auto;
    try (destruct HP, HQ; split; auto).
Qed.

(** The soundness of the matcher, with the captures: what an expression
    reads lies within [P], and the groups recorded on the way lie within
    their [G]. *)
Lemma exec_captures r :
  forall (P : ascii -> Prop) pv s cs
         (k : option ascii -> text -> captures -> option R) res,
    ReFacts.within fl P r -> groups_within r = true -> caps_ok cs ->
    exec fl r pv s cs k = Some res ->
    exists u s1 pv1 cs1,
      s = u ++ s1 /\ Forall P u /\ caps_ok cs1 /\ k pv1 s1 cs1 = Some res.
Proof.
  induction r as [|c|a IHa b IHb|a IHa b IHb|g lo hi c|i a IHa| | |];
    intros P pv s cs k res W Gw C H; simpl in H, Gw.
  - exists [], s, pv, cs. repeat split; [constructor|exact C|exact H].
  - destruct s as [|x s]; [discriminate|].
    destruct (cset_mem (ignorecase fl) c x) eqn:E; [|discriminate].
    exists [x], s, (Some x), cs. repeat split; [|exact C|exact H].
    constructor; [now apply W|constructor].
  - destruct W as [Wa Wb]. apply andb_prop in Gw as [Ga Gb].
    destruct (IHa _ _ _ _ _ _ Wa Ga C H) as (u1 & s1 & pv1 & cs1 & -> & F1 & C1 & H1).
    destruct (IHb _ _ _ _ _ _ Wb Gb C1 H1) as (u2 & s2 & pv2 & cs2 & -> & F2 & C2 & H2).
    exists (u1 ++ u2), s2, pv2, cs2. repeat split.
    + now rewrite app_assoc.
    + apply Forall_app. now split.
    + exact C2.
    + exact H2.
  - destruct W as [Wa Wb]. apply andb_prop in Gw as [Ga Gb].
    destruct (exec fl a pv s cs k) eqn:E.
    + injection H as <-. now apply (IHa _ _ _ _ _ _ Wa Ga C E).
    + now apply (IHb _ _ _ _ _ _ Wb Gb C H).
  - destruct (ReFacts.rep_sound fl R c s g lo hi pv _ res H)
      as (u & s1 & pv1 & -> & F & Hk).
    exists u, s1, pv1, cs. repeat split; [|exact C|exact Hk].
    eapply Forall_impl; [|exact F]. exact W.
  - apply andb_prop in Gw as [Gi Ga]. apply within_b_spec in Gi.
    destruct (IHa _ _ _ _ _ _ (within_both _ _ _ W Gi) Ga C H)
      as (u & s1 & pv1 & cs1 & -> & F & C1 & Hk).
    rewrite ReFacts.firstn_prefix in Hk.
    exists u, s1, pv1, ((i, u) :: cs1). repeat split.
    + eapply Forall_impl; [|exact F]. now intros c [Hc _].
    + constructor; [|exact C1]. simpl.
      eapply Forall_impl; [|exact F]. now intros c [_ Hc].
    + exact Hk.
  - destruct (at_bol (multiline fl) pv); [|discriminate].
    exists [], s, pv, cs. repeat split; [constructor|exact C|exact H].
  - destruct (at_eol (multiline fl) s); [|discriminate].
    exists [], s, pv, cs. repeat split; [constructor|exact C|exact H].
  - destruct (word_boundary pv s); [|discriminate].
    exists [], s, pv, cs. repeat split; [constructor|exact C|exact H].
Qed.

Lemma lookup_ok cs i t :
  caps_ok cs -> lookup_cap i cs = Some t -> Forall (AmountFacts.is_true (G i)) t.
Proof.
  induction 1 as [|[j u] cs Hu _ IH]; simpl; [discriminate|].
  destruct (Nat.eqb i j) eqn:E; [|exact IH].
  apply Nat.eqb_eq in E. subst j. now intros [= <-].
Qed.
End Sound.

(** The groups of a match lie within the sets the pattern allows them. *)
Lemma match_groups (G : nat -> ascii -> bool) (p : pattern) (line : text) m :
  groups_within (pflags p) G (ast p) = true ->
  rmatch p line = Some m ->
  forall i t, nth_error (m_groups m) i = Some (Some t) ->
              Forall (AmountFacts.is_true (G (S i))) t.
Proof.
  intros Gw H i t N. unfold rmatch in H.
  destruct (match_here p None line) as [[s1 cs1]|] eqn:E; [|discriminate].
  injection H as <-. unfold match_here in E.
  destruct (exec_captures (pflags p) _ G (ast p) (fun _ => True) None line [] _ _
              (ExtentFacts.within_any _ _) Gw (Forall_nil _) E)
    as (u & s2 & pv2 & cs2 & _ & _ & C & K).
  injection K as -> ->.
  unfold mobj_at in N. cbn [m_groups] in N. unfold groups_of in N.
  rewrite nth_error_map in N.
  destruct (nth_error (seq 1 (ngroups p)) i) as [j|] eqn:Sq; [|discriminate].
  apply nth_error_nth with (d := 0) in Sq as Sj.
  assert (Li : i < ngroups p).
  { assert (L : i < length (seq 1 (ngroups p))) by (apply nth_error_Some; congruence).
    now rewrite length_seq in L. }
  rewrite seq_nth in Sj by exact Li. subst j. simpl in N.
  injection N as N. exact (lookup_ok G cs1 (S i) t C N).
Qed.

End CaptureFacts.

(** ** The pattern with the type before the amount *)

Module SwapFacts.

(** What the third and the fourth group of the pattern read: letters of the
    type, and the characters of an amount. *)
Definition group_chars (i : nat) (c : ascii) : bool :=
  match i with
  | 3 => negb (Str.is_digit c)
  | 4 => Str.is_digit c || Ascii.eqb c "," || Ascii.eqb c "."
  | _ => true
  end.

Lemma for_all_ascii (p : ascii -> bool) :
  forallb p CaptureFacts.all_ascii = true -> forall c, p c = true.
Proof.
  intros H c. rewrite forallb_forall in H.
  apply H, CaptureFacts.all_ascii_complete.
Qed.

(** Upper-casing leaves the characters of an amount alone, and none of
    them is a letter of "CR" or "DR". *)
Lemma amount_char_upper c :
  group_chars 4 c = true ->
  Str.char_upper c = c /\ c <> "C"%char /\ c <> "D"%char.
Proof.
  intros H.
  assert (A : forall c,
             implb (group_chars 4 c)
                   (Ascii.eqb (Str.char_upper c) c
                    && negb (Ascii.eqb c "C") && negb (Ascii.eqb c "D")) = true).
  { apply for_all_ascii. vm_compute. reflexivity. }
  specialize (A c). rewrite H in A. simpl in A.
  apply andb_prop in A as [A A3]. apply andb_prop in A as [A1 A2].
  apply Ascii.eqb_eq in A1. apply negb_true_iff, Ascii.eqb_neq in A2.
  apply negb_true_iff, Ascii.eqb_neq in A3. now repeat split.
Qed.

Lemma upper_amount_text ty :
  Forall (AmountFacts.is_true (group_chars 4)) ty ->
  Str.upper ty = ty /\ ty <> T "CR" /\ ty <> T "DR".
Proof.
  intros H.
  assert (U : Str.upper ty = ty).
  { induction H as [|c ty Hc _ IH]; [reflexivity|].
    simpl. destruct (amount_char_upper c Hc) as (-> & _). now rewrite IH. }
  split; [exact U|].
  destruct H as [|c ty Hc _]; [split; discriminate|].
  destruct (amount_char_upper c Hc) as (_ & Nc & Nd).
  split; intros [= E _]; congruence.
Qed.

Lemma letters_no_digit a :
  Forall (AmountFacts.is_true (group_chars 3)) a -> DigitFacts.no_digit a.
Proof.
  intros H. eapply Forall_impl; [|exact H].
  intros c Hc. unfold AmountFacts.is_true in Hc. simpl in Hc.
  now apply negb_true_iff in Hc.
Qed.

Lemma amount_chars ty :
  Forall (AmountFacts.is_true (group_chars 4)) ty ->
  Forall AmountRoundTrip.amount_char ty.
Proof.
  intros H. eapply Forall_impl; [|exact H].
  intros c Hc. unfold AmountFacts.is_true in Hc. simpl in Hc.
  apply orb_prop in Hc as [Hc|Hc]; [apply orb_prop in Hc as [Hc|Hc]|].
  - now left.
  - right; left. now apply Ascii.eqb_eq.
  - right; right. now apply Ascii.eqb_eq.
Qed.

End SwapFacts.

(** The second generic pattern reads the type before the amount, but its
    five groups are unpacked as date, description, amount, type, narration.
    So for every line it matches, the transaction built from the match has
    the type text where the amount is expected and no amount at all, and
    its type is the upper-cased amount text, never "CR" or "DR";
    [validate_transaction] rejects it. *)
Theorem type_before_amount_is_misread :
  forall (p2 : Re.pattern),
    Re.compile RegexPatterns.compile_flags
      "^(\d{1,2}[/-]\d{1,2}[/-]\d{2,4})\s+(.*?)\s+(CR|DR|Cr|Dr)\s+([\d,]+\.?\d{0,2})\s*(.*)$"
    = Some p2 ->
    In p2 (RegexPatterns.get_patterns RegexPatterns.default_compiled (T "generic")) /\
    (forall dateutil (st st' : stats) (line bank : text) (m : Re.mobj)
            (t : transaction),
        Re.rmatch p2 line = Some m ->
        TransactionParser._parse_transaction_match dateutil st (Re.m_groups m) bank
        = (Some t, st') ->
        amount_original t = nth 2 (Re.m_groups m) None /\
        amount t = None /\
        (exists ty, nth 3 (Re.m_groups m) None = Some ty /\
                    type_ t = ty /\ Forall AmountRoundTrip.amount_char ty) /\
        type_ t <> T "CR" /\ type_ t <> T "DR" /\
        TransactionParser.validate_transaction t = false).
Proof.
  intros p2 Hc.
  assert (Gw : CaptureFacts.groups_within (Re.pflags p2) SwapFacts.group_chars
                 (Re.ast p2) = true).
  { vm_compute in Hc. injection Hc as <-. vm_compute. reflexivity. }
  assert (N5 : Re.ngroups p2 = 5).
  { vm_compute in Hc. injection Hc as <-. reflexivity. }
  split.
  { vm_compute in Hc. injection Hc as <-. vm_compute. right. left. reflexivity. }
  intros du st st' line bank m t Hm Hp.
  pose proof (CaptureFacts.match_groups SwapFacts.group_chars p2 line m Gw Hm) as Hg.
  assert (L : exists g1 g2 g3 g4 g5, Re.m_groups m = [g1; g2; g3; g4; g5]).
  { unfold Re.rmatch in Hm.
    destruct (Re.match_here p2 None line) as [[s1 cs1]|]; [|discriminate].
    injection Hm as <-. unfold Re.mobj_at. cbn [Re.m_groups].
    unfold Re.groups_of. rewrite N5. simpl. do 5 eexists. reflexivity. }
  destruct L as (g1 & g2 & g3 & g4 & g5 & E). rewrite E in Hp, Hg |- *.
  unfold TransactionParser._parse_transaction_match in Hp.
  destruct g4 as [ty|]; [|discriminate]. destruct g5 as [na|]; [|discriminate].
  injection Hp as <- _.
  cbn [amount amount_original type_ nth].
  pose proof (Hg 3 ty eq_refl) as Hty.
  destruct (SwapFacts.upper_amount_text ty Hty) as (U & Ncr & Ndr).
  assert (Am : match g3 with
               | Some a => AmountParser.parse_amount a
               | None => None
               end = None).
  { destruct g3 as [a|]; [|reflexivity].
    apply DigitFacts.no_digit_parse, SwapFacts.letters_no_digit.
    exact (Hg 2 a eq_refl). }
  rewrite U. repeat split; try assumption.
  - exists ty. repeat split. now apply SwapFacts.amount_chars.
  - unfold TransactionParser.validate_transaction. cbn [amount]. rewrite Am.
    now rewrite andb_false_r.
Qed.

Lemma type_before_amount_is_misread_witness :
  exists t,
    fst (TransactionParser.parse_transactions RegexPatterns.default_compiled
           (fun _ => None) (fun _ _ => None)
           (T "15/03/2024 Payment CR 5000.00") (T "generic")) = [t] /\
    amount t = None /\ type_ t = T "5000.00" /\
    TransactionParser.validate_transaction t = false.
Proof.
  destruct (Re.compile RegexPatterns.compile_flags
              "^(\d{1,2}[/-]\d{1,2}[/-]\d{2,4})\s+(.*?)\s+(CR|DR|Cr|Dr)\s+([\d,]+\.?\d{0,2})\s*(.*)$")
    as [p2|] eqn:Hc; [|vm_compute in Hc; discriminate].
  destruct (type_before_amount_is_misread p2 Hc) as [_ H].
  destruct (Re.rmatch p2 (T "15/03/2024 Payment CR 5000.00")) as [m|] eqn:Hm;
    [|vm_compute in Hc; injection Hc as <-; vm_compute in Hm; discriminate].
  destruct (TransactionParser._parse_transaction_match (fun _ => None)
              TransactionParser._reset_stats (Re.m_groups m) (T "generic"))
    as [[t|] st'] eqn:Hp.
  - destruct (H _ _ _ _ _ _ _ Hm Hp) as (_ & Ha & _ & _ & _ & Hv).
    exists t.
    assert (Et : fst (TransactionParser.parse_transactions
                        RegexPatterns.default_compiled
                        (fun _ => None) (fun _ _ => None)
                        (T "15/03/2024 Payment CR 5000.00") (T "generic")) = [t]
                 /\ type_ t = T "5000.00").
    { vm_compute in Hc. injection Hc as <-.
      vm_compute in Hm. injection Hm as <-.
      vm_compute in Hp. injection Hp as <- _.
      split; vm_compute; reflexivity. }
    destruct Et as [E1 E2]. repeat split; assumption.
  - exfalso. vm_compute in Hc. injection Hc as <-.
    vm_compute in Hm. injection Hm as <-.
    vm_compute in Hp. discriminate.
Defined.

(** ** Writing a date and reading it back (date_parser.py) *)

Module DateFacts.
Import Re DateParser.

(** *** Expressions that read a given text *)

(** [reads fl r u f]: at any position, in front of any text, the expression
    [r] reads [u] and records the captures [f] whenever what follows accepts
    that; it is the first way through [r] that succeeds. *)
Definition reads (fl : flags) (r : re) (u : text) (f : captures -> captures)
  : Prop :=
  forall (R : Type) pv rest cs
         (k : option ascii -> text -> captures -> option R) res,
    k (ReFacts.after pv u) rest (f cs) = Some res ->
    exec fl r pv (u ++ rest) cs k = Some res.

Lemma after_app pv u v :
  ReFacts.after (ReFacts.after pv u) v = ReFacts.after pv (u ++ v).
Proof. unfold ReFacts.after. now rewrite fold_left_app. Qed.

Lemma reads_seq fl a b u v f g :
  reads fl a u f -> reads fl b v g ->
  reads fl (Seq a b) (u ++ v) (fun cs => g (f cs)).
Proof.
  intros Ha Hb R pv rest cs k res H. simpl. rewrite <- app_assoc.
  apply Ha. apply Hb. now rewrite after_app.
Qed.

Lemma reads_grp fl i a u f :
  reads fl a u f -> reads fl (Grp i a) u (fun cs => (i, u) :: f cs).
Proof.
  intros Ha R pv rest cs k res H. simpl. apply Ha.
  now rewrite ReFacts.firstn_prefix.
Qed.

Lemma reads_chr fl cs c :
  cset_mem (ignorecase fl) cs c = true -> reads fl (Chr cs) [c] (fun x => x).
Proof. intros M R pv rest cs0 k res H. simpl. now rewrite M. Qed.

(** One or two members, when two stand there. *)
Lemma reads_one_or_two fl cs a b :
  cset_mem (ignorecase fl) cs a = true ->
  cset_mem (ignorecase fl) cs b = true ->
  reads fl (Rep true 1 (Some 2) cs) [a; b] (fun x => x).
Proof.
  intros Ma Mb R pv rest cs0 k res H. simpl in *. rewrite Ma, Mb. simpl.
  destruct rest as [|c rest]; simpl.
  - now rewrite H.
  - rewrite andb_false_r. now rewrite H.
Qed.

Lemma reads_exactly fl cs u :
  Forall (fun c => cset_mem (ignorecase fl) cs c = true) u ->
  reads fl (Rep true (length u) (Some (length u)) cs) u (fun x => x).
Proof.
  intros M R pv rest cs0 k res H. simpl.
  now rewrite (ReFacts.rep_exact fl R cs u true pv rest _ M).
Qed.

(** A pattern that reads the whole string matches it, with the groups
    recorded. *)
Lemma reads_match (p : pattern) s f :
  reads (pflags p) (ast p) s f ->
  rmatch p s = Some {| m_before := []; m_text := s; m_after := [];
                       m_groups := groups_of (ngroups p) (f []) |}.
Proof.
  intros H. unfold rmatch, match_here.
  specialize (H _ None [] [] (fun _ s1 cs1 => Some (s1, cs1)) _ eq_refl).
  rewrite app_nil_r in H. rewrite H. simpl. unfold mobj_at.
  simpl length. now rewrite Nat.sub_0_r, firstn_all.
Qed.

(** *** The expression of the format "%d/%m/%Y" *)

Definition fl : flags := {| ignorecase := true; multiline := false |}.

Definition no_pattern : pattern :=
  {| ast := Eps; ngroups := 0; pflags := no_flags |}.

(** The expression [strptime] matches a string against. *)
Definition dmy : pattern :=
  Eval vm_compute in
    match format_regex 9 (T "%d/%m/%Y") with
    | Some (rs, _) =>
        match compile_text fl rs with Some p => p | None => no_pattern end
    | None => no_pattern
    end.

Definition day_re : re :=
  Eval vm_compute in
    match ast dmy with Seq (Grp _ a) _ => a | _ => Eps end.
Definition month_re : re :=
  Eval vm_compute in
    match ast dmy with Seq _ (Seq _ (Seq (Grp _ a) _)) => a | _ => Eps end.
Definition year_re : re :=
  Eval vm_compute in
    match ast dmy with Seq _ (Seq _ (Seq _ (Seq _ (Grp _ a)))) => a | _ => Eps end.

(** The pattern of [date_patterns] that goes with the format. *)
Definition dmy_check : pattern :=
  Eval vm_compute in
    match compile no_flags "\d{1,2}/\d{1,2}/\d{4}" with
    | Some p => p
    | None => no_pattern
    end.

(** Two digits for a day or a month, as [strftime] writes them. *)
Definition two (n : nat) : text := zero_pad 2 (Z.of_nat n).
Definition day_texts : list text := Eval vm_compute in map two (seq 1 31).
Definition month_texts : list text := Eval vm_compute in map two (seq 1 12).

Lemma day_reads a b :
  In [a; b] day_texts -> reads fl day_re [a; b] (fun x => x).
Proof.
  intros I R pv rest cs k r H. unfold ReFacts.after in H. simpl in H.
  unfold day_texts in I. simpl In in I.
  repeat (destruct I as [I|I]; [injection I as <- <-; cbn; rewrite H; reflexivity|]).
  destruct I.
Qed.

Lemma month_reads a b :
  In [a; b] month_texts -> reads fl month_re [a; b] (fun x => x).
Proof.
  intros I R pv rest cs k r H. unfold ReFacts.after in H. simpl in H.
  unfold month_texts in I. simpl In in I.
  repeat (destruct I as [I|I]; [injection I as <- <-; cbn; rewrite H; reflexivity|]).
  destruct I.
Qed.

Lemma digit_member ic c : Str.is_digit c = true -> cset_mem ic LeadingFacts.digit_set c = true.
Proof.
  intros H. unfold cset_mem, LeadingFacts.digit_set, item_mem_ic. simpl. now rewrite H.
Qed.

Lemma year_reads y1 y2 y3 y4 :
  Forall (fun c => Str.is_digit c = true) [y1; y2; y3; y4] ->
  reads fl year_re [y1; y2; y3; y4] (fun x => x).
Proof.
  intros F. inversion F as [|? ? H1 F1]; subst. inversion F1 as [|? ? H2 F2]; subst.
  inversion F2 as [|? ? H3 F3]; subst. inversion F3 as [|? ? H4 _]; subst.
  apply (reads_seq fl _ _ [y1] [y2; y3; y4] (fun x => x) (fun x => x));
    [apply reads_chr; now apply digit_member|].
  apply (reads_seq fl _ _ [y2] [y3; y4] (fun x => x) (fun x => x));
    [apply reads_chr; now apply digit_member|].
  apply (reads_seq fl _ _ [y3] [y4] (fun x => x) (fun x => x));
    apply reads_chr; now apply digit_member.
Qed.

Definition slash : text := ["/"%char].

(** The text of a date: two digits, two digits, four digits. *)
Definition date_text (dd mm yyyy : text) : text :=
  dd ++ slash ++ mm ++ slash ++ yyyy.

Section Written.
Variables (d1 d2 m1 m2 y1 y2 y3 y4 : ascii).
Hypothesis Hd : In [d1; d2] day_texts.
Hypothesis Hm : In [m1; m2] month_texts.
Hypothesis Hy : Forall (fun c => Str.is_digit c = true) [y1; y2; y3; y4].

#[local] Abbreviation s := (date_text [d1; d2] [m1; m2] [y1; y2; y3; y4]).

Lemma dmy_match :
  rmatch dmy s
  = Some {| m_before := []; m_text := s; m_after := [];
            m_groups := [Some [d1; d2]; Some [m1; m2]; Some [y1; y2; y3; y4]] |}.
Proof.
  apply (reads_match dmy s
           (fun cs => (3, [y1; y2; y3; y4]) :: (2, [m1; m2]) :: (1, [d1; d2]) :: cs)).
  change (ast dmy)
    with (Seq (Grp 1 day_re)
              (Seq (Chr (lit "/"))
                   (Seq (Grp 2 month_re) (Seq (Chr (lit "/")) (Grp 3 year_re))))).
  change (pflags dmy) with fl. unfold date_text.
  apply (reads_seq fl _ _ [d1; d2] _ (fun cs => (1, [d1; d2]) :: cs)
           (fun cs => (3, [y1; y2; y3; y4]) :: (2, [m1; m2]) :: cs));
    [apply (reads_grp fl 1 day_re [d1; d2] (fun x => x)), day_reads, Hd|].
  apply (reads_seq fl _ _ slash _ (fun x => x)
           (fun cs => (3, [y1; y2; y3; y4]) :: (2, [m1; m2]) :: cs));
    [now apply reads_chr|].
  apply (reads_seq fl _ _ [m1; m2] _ (fun cs => (2, [m1; m2]) :: cs)
           (fun cs => (3, [y1; y2; y3; y4]) :: cs));
    [apply (reads_grp fl 2 month_re [m1; m2] (fun x => x)), month_reads, Hm|].
  apply (reads_seq fl _ _ slash [y1; y2; y3; y4] (fun x => x)
           (fun cs => (3, [y1; y2; y3; y4]) :: cs));
    [now apply reads_chr|].
  apply (reads_grp fl 3 year_re [y1; y2; y3; y4] (fun x => x)), year_reads, Hy.
Qed.

Lemma text_digits : Forall (fun c => Str.is_digit c = true) ([d1; d2] ++ [m1; m2]).
Proof.
  assert (D : forallb (forallb Str.is_digit) day_texts = true) by reflexivity.
  assert (M : forallb (forallb Str.is_digit) month_texts = true) by reflexivity.
  rewrite forallb_forall in D, M.
  specialize (D _ Hd). specialize (M _ Hm). rewrite forallb_forall in D, M.
  apply Forall_app. split; apply Forall_forall; assumption.
Qed.

Lemma check_match : re_matches "\d{1,2}/\d{1,2}/\d{4}" s = true.
Proof.
  unfold re_matches.
  change (compile no_flags "\d{1,2}/\d{1,2}/\d{4}") with (Some dmy_check).
  cbv iota.
  pose proof text_digits as F.
  inversion F as [|? ? H1 F1]; subst. inversion F1 as [|? ? H2 F2]; subst.
  inversion F2 as [|? ? H3 F3]; subst. inversion F3 as [|? ? H4 _]; subst.
  rewrite (reads_match dmy_check s (fun x => x)); [reflexivity|].
  change (ast dmy_check)
    with (Seq (Rep true 1 (Some 2) LeadingFacts.digit_set)
              (Seq (Chr (lit "/"))
                   (Seq (Rep true 1 (Some 2) LeadingFacts.digit_set)
                        (Seq (Chr (lit "/")) (Rep true 4 (Some 4) LeadingFacts.digit_set))))).
  change (pflags dmy_check) with no_flags. unfold date_text.
  apply (reads_seq no_flags _ _ [d1; d2] _ (fun x => x) (fun x => x));
    [apply reads_one_or_two; now apply digit_member|].
  apply (reads_seq no_flags _ _ slash _ (fun x => x) (fun x => x));
    [now apply reads_chr|].
  apply (reads_seq no_flags _ _ [m1; m2] _ (fun x => x) (fun x => x));
    [apply reads_one_or_two; now apply digit_member|].
  apply (reads_seq no_flags _ _ slash [y1; y2; y3; y4] (fun x => x) (fun x => x));
    [now apply reads_chr|].
  apply (reads_exactly no_flags LeadingFacts.digit_set [y1; y2; y3; y4]).
  eapply Forall_impl; [|exact Hy]. intros c Hc. now apply digit_member.
Qed.

Lemma strptime_dmy :
  strptime s "%d/%m/%Y"
  = match assign [FDay; FMonth; FYear4]
            [Some [d1; d2]; Some [m1; m2]; Some [y1; y2; y3; y4]] (1, 1, 1900)%Z with
    | Some (d, mo, y) => make_datetime y mo d
    | None => None
    end.
Proof.
  unfold strptime.
  change (format_regex (S (length (T "%d/%m/%Y"))) (T "%d/%m/%Y"))
    with (match format_regex 9 (T "%d/%m/%Y") with
          | Some (rs, _) => Some (rs, [FDay; FMonth; FYear4])
          | None => None
          end).
  destruct (format_regex 9 (T "%d/%m/%Y")) as [[rs flds]|] eqn:E;
    [|vm_compute in E; discriminate].
  assert (C : compile_text fl rs = Some dmy).
  { vm_compute in E. injection E as <- _. vm_compute. reflexivity. }
  fold fl. rewrite C, dmy_match. reflexivity.
Qed.

Lemma no_space : Forall (fun c => Str.is_space c = false) s.
Proof.
  pose proof text_digits as F. unfold date_text, slash.
  inversion F as [|? ? H1 F1]; subst. inversion F1 as [|? ? H2 F2]; subst.
  inversion F2 as [|? ? H3 F3]; subst. inversion F3 as [|? ? H4 _]; subst.
  inversion Hy as [|? ? G1 G1']; subst. inversion G1' as [|? ? G2 G2']; subst.
  inversion G2' as [|? ? G3 G3']; subst. inversion G3' as [|? ? G4 _]; subst.
  repeat constructor; try reflexivity; now apply AmountFacts.digit_not_space.
Qed.
End Written.

(** *** Numbers and their digits *)

Lemma int_of_digits ds :
  Forall (fun c => Str.is_digit c = true) ds -> ds <> [] ->
  Py.int ds = Some (Z.of_N (Str.digits_value ds)).
Proof.
  intros F Ne. unfold Py.int.
  rewrite AmountFacts.strip_id
    by (eapply Forall_impl; [|exact F]; apply AmountFacts.digit_not_space).
  unfold Py.signed_digits.
  destruct ds as [|c ds]; [congruence|].
  inversion F as [|? ? Hc Hds]; subst.
  unfold Py.split_sign.
  rewrite (AmountFacts.digit_neq c "-" Hc eq_refl),
          (AmountFacts.digit_neq c "+" Hc eq_refl).
  assert (A : forallb Str.is_digit (c :: ds) = true).
  { apply forallb_forall. now rewrite Forall_forall in F. }
  now rewrite A.
Qed.

Lemma two_spec (n : nat) :
  1 <= n <= 31 ->
  exists a b, two n = [a; b] /\ In [a; b] day_texts /\
              Py.int [a; b] = Some (Z.of_nat n) /\
              (n <= 12 -> In [a; b] month_texts).
Proof.
  intros H.
  assert (A : forallb
                (fun n => match two n with
                          | [a; b] =>
                              match Py.int [a; b] with
                              | Some v => (v =? Z.of_nat n)%Z
                              | None => false
                              end
                          | _ => false
                          end) (seq 1 31) = true) by (vm_compute; reflexivity).
  rewrite forallb_forall in A.
  assert (I : In n (seq 1 31)) by (apply in_seq; lia).
  specialize (A n I).
  destruct (two n) as [|a [|b [|c t]]] eqn:E; try discriminate.
  destruct (Py.int [a; b]) as [v|] eqn:P; [|discriminate].
  apply Z.eqb_eq in A. subst v.
  exists a, b. split; [reflexivity|]. split; [|split; [exact P|]].
  - rewrite <- E. change day_texts with (map two (seq 1 31)). now apply in_map.
  - intros Hm. rewrite <- E. change month_texts with (map two (seq 1 12)).
    apply in_map, in_seq. lia.
Qed.

(** The four digits of a year from 1000 to 9999. *)
Lemma year_digits (y : N) :
  (1000 <= y <= 9999)%N ->
  exists y1 y2 y3 y4,
    Str.digits_of y = [y1; y2; y3; y4] /\
    Forall (fun c => Str.is_digit c = true) [y1; y2; y3; y4].
Proof.
  intros H.
  destruct (AmountFacts.digits_of_spec y) as (V & F & _).
  assert (L : length (Str.digits_of y) = 4).
  { unfold Str.digits_of.
    assert (Lg : 4 <= S (N.to_nat (N.log2 y))).
    { assert (9 <= N.log2 y)%N.
      { apply N.log2_le_pow2; [lia|]. simpl. lia. }
      lia. }
    destruct (S (N.to_nat (N.log2 y))) as [|[|[|[|f]]]]; try lia.
    cbn [Str.digits_fuel].
    assert (E1 : (y <? 10)%N = false) by (apply N.ltb_ge; lia).
    assert (D1 : (100 <= y / 10 <= 999)%N).
    { split; [apply N.div_le_lower_bound; lia
             |apply N.lt_succ_r, N.Div0.div_lt_upper_bound; lia]. }
    assert (E2 : (y / 10 <? 10)%N = false) by (apply N.ltb_ge; lia).
    assert (D2 : (10 <= y / 10 / 10 <= 99)%N).
    { split; [apply N.div_le_lower_bound; lia
             |apply N.lt_succ_r, N.Div0.div_lt_upper_bound; lia]. }
    assert (E3 : (y / 10 / 10 <? 10)%N = false) by (apply N.ltb_ge; lia).
    assert (D3 : (1 <= y / 10 / 10 / 10 <= 9)%N).
    { split; [apply N.div_le_lower_bound; lia
             |apply N.lt_succ_r, N.Div0.div_lt_upper_bound; lia]. }
    assert (E4 : (y / 10 / 10 / 10 <? 10)%N = true) by (apply N.ltb_lt; lia).
    rewrite E1, E2, E3. destruct f as [|f]; cbn [Str.digits_fuel]; rewrite E4;
      reflexivity. }
  destruct (Str.digits_of y) as [|y1 [|y2 [|y3 [|y4 [|y5 t]]]]]; try discriminate.
  exists y1, y2, y3, y4. split; [reflexivity|]. exact F.
Qed.

End DateFacts.

(** A calendar date from the year 1000 on, written by [format_date] in its
    default format, is read back by [parse_date] as the same date, by the
    first method and whatever [dateutil] would answer; the string is a
    valid date for [validate_date_format], and the format detected for it is
    the one it was written in. *)
Theorem default_date_format_roundtrip :
  forall (dateutil : text -> option datetime) (d : datetime),
    DateParser.make_datetime (year d) (month d) (day d) = Some d ->
    (1000 <= year d)%Z ->
    exists s,
      DateParser.format_date d "%d/%m/%Y" = Some s /\
      DateParser.parse_date dateutil (Some s) = Some d /\
      DateParser.validate_date_format dateutil (Some s) = true /\
      DateParser.detect_date_format s = Some "%d/%m/%Y"%string.
Proof.
  intros du d Hv Hy.
  assert (Rg : (1 <= year d <= 9999 /\ 1 <= month d <= 12 /\ 1 <= day d <= 31)%Z).
  { unfold DateParser.make_datetime in Hv.
    destruct (_ && _) eqn:C in Hv; [|discriminate].
    repeat (apply andb_prop in C as [C ?]).
    repeat match goal with
           | H : (_ <=? _)%Z = true |- _ => apply Z.leb_le in H
           end.
    assert (DateParser.days_in_month (year d) (month d) <= 31)%Z.
    { unfold DateParser.days_in_month.
      repeat match goal with |- context [if ?b then _ else _] => destruct b end;
        lia. }
    lia. }
  destruct Rg as (Ry & Rm & Rd).
  destruct (DateFacts.two_spec (Z.to_nat (day d))) as (d1 & d2 & Ed & Id & Pd & _);
    [lia|].
  destruct (DateFacts.two_spec (Z.to_nat (month d))) as (m1 & m2 & Em & _ & Pm & Im);
    [lia|].
  specialize (Im ltac:(lia)).
  destruct (DateFacts.year_digits (Z.to_N (year d))) as (y1 & y2 & y3 & y4 & Ey & Fy);
    [lia|].
  unfold DateFacts.two in Ed, Em. rewrite Z2Nat.id in Ed, Em, Pd, Pm by lia.
  assert (Py4 : Py.int [y1; y2; y3; y4] = Some (year d)).
  { rewrite DateFacts.int_of_digits; [|exact Fy|discriminate].
    destruct (AmountFacts.digits_of_spec (Z.to_N (year d))) as (V & _).
    rewrite <- Ey, V, Z2N.id by lia. reflexivity. }
  assert (Zy : DateParser.zero_pad 1 (year d) = [y1; y2; y3; y4]).
  { unfold DateParser.zero_pad. now rewrite Ey. }
  set (s := DateFacts.date_text [d1; d2] [m1; m2] [y1; y2; y3; y4]).
  assert (St : DateParser.strptime s "%d/%m/%Y" = Some d).
  { unfold s. rewrite (DateFacts.strptime_dmy d1 d2 m1 m2 y1 y2 y3 y4 Id Im Fy).
    cbn [DateParser.assign]. rewrite Pd, Pm, Py4. exact Hv. }
  assert (Ck : DateParser.re_matches "\d{1,2}/\d{1,2}/\d{4}" s = true)
    by apply (DateFacts.check_match d1 d2 m1 m2 y1 y2 y3 y4 Id Im Fy).
  assert (Pa : DateParser.parse_date du (Some s) = Some d).
  { unfold DateParser.parse_date.
    change s with (d1 :: d2 :: DateFacts.slash ++ [m1; m2] ++ DateFacts.slash
                      ++ [y1; y2; y3; y4]).
    cbv iota.
    change (d1 :: d2 :: DateFacts.slash ++ [m1; m2] ++ DateFacts.slash
               ++ [y1; y2; y3; y4]) with s.
    rewrite (AmountFacts.strip_id s)
      by apply (DateFacts.no_space d1 d2 m1 m2 y1 y2 y3 y4 Id Im Fy).
    unfold DateParser.date_patterns. cbn [DateParser.try_patterns].
    now rewrite Ck, St. }
  exists s. repeat split.
  - unfold DateParser.format_date. cbn [T list_ascii_of_string DateParser.strftime].
    unfold DateParser.directive_text.
    change (Ascii.eqb "d" "d") with true. change (Ascii.eqb "m" "d") with false.
    change (Ascii.eqb "m" "m") with true. change (Ascii.eqb "Y" "d") with false.
    change (Ascii.eqb "Y" "m") with false. change (Ascii.eqb "Y" "Y") with true.
    cbv iota. rewrite Ed, Em, Zy. reflexivity.
  - exact Pa.
  - unfold DateParser.validate_date_format. now rewrite Pa.
  - unfold DateParser.detect_date_format, DateParser.date_patterns.
    cbn [DateParser.detect_in]. now rewrite Ck, St.
Qed.

Lemma default_date_format_roundtrip_witness :
  DateParser.format_date {| year := 2024; month := 2; day := 29 |} "%d/%m/%Y"
  = Some (T "29/02/2024") /\
  DateParser.parse_date (fun _ => None) (Some (T "29/02/2024"))
  = Some {| year := 2024; month := 2; day := 29 |}.
Proof.
  destruct (default_date_format_roundtrip (fun _ => None)
              {| year := 2024; month := 2; day := 29 |} eq_refl)
    as (s & F & P & _); [simpl; lia|].
  assert (E : DateParser.format_date {| year := 2024; month := 2; day := 29 |}
                "%d/%m/%Y" = Some (T "29/02/2024")) by (vm_compute; reflexivity).
  rewrite E in F. injection F as <-. split; [exact E|exact P].
Defined.
